(** * Java upgrade assistant: the response extractor and its helpers

  A shallow embedding of [src/main.py] (the [upgrade_java] endpoint, step 5:
  parsing the model's answer and writing the files) and of [src/utils.py]
  ([detect_java_version], [find_java_files]).
  The definitions after the examples add the rest of the service:
  [clone_repo], the endpoints [clone_and_detect] and [upgrade_java] as a
  whole (the checks, the prompt, the request to the model) and the display
  of the answer in [src/app.py].

  Python values are modelled as follows.
  - [str]: [string], read as a sequence of code points below 256.
  - [list]: [list]; the cursor [i] of a [while i < len(lines)] loop is the
    suffix [lines[i:]] still to be read.
  - [int]: [nat] for counters, [Z] for parsed numbers.
  - exceptions: the type [exn]; a computation that may raise returns
    [result A].
  - the file system: an abstract state with the three operations the
    code calls ([os.path.realpath], [os.makedirs], [open(..., 'w')]).
    [os.path.realpath] is a function of the path alone: the pass creates
    directories and regular files only, which leaves the symbolic links
    as they are, so that the resolution of a path does not change during
    a pass; file systems with other links are other instances.
    [MemFS] below is a concrete instance without symbolic links.
  - git, the XML parser, the reading of files and the model: the
    operations of the class [Service], over the same state. *)

From Stdlib Require Import String Ascii List ZArith Lia Bool Arith.
From Stdlib Require Import DecimalString.
From Equations Require Import Equations.
From stdpp Require Import gmap strings.
Import ListNotations.
Open Scope string_scope.
Open Scope nat_scope.

Set Default Proof Using "Type".

(** ** Exceptions *)

Inductive exn : Type :=
| ValueError (msg : string)
| OverflowError (msg : string)
| OSError (msg : string)
| IndexError (msg : string).

(** [str(e)] as interpolated by an f-string. *)
Definition exn_str (e : exn) : string :=
  match e with
  | ValueError m => m
  | OverflowError m => m
  | OSError m => m
  | IndexError m => m
  end.

Inductive result (A : Type) : Type :=
| Ok (a : A)
| Raise (e : exn).
Arguments Ok {A} a.
Arguments Raise {A} e.

Definition bind {A B : Type} (r : result A) (k : A -> result B) : result B :=
  match r with
  | Ok a => k a
  | Raise e => Raise e
  end.

Notation "'try!' x ':=' r 'in' k" := (bind r (fun x => k))
  (at level 10, x name, r at level 100, k at level 200).

(** ** Python string methods *)

Module PyStr.

Definition code (c : ascii) : nat := nat_of_ascii c.

(** [str.isspace] on one character, for code points below 256. *)
Definition isspace (c : ascii) : bool :=
  let n := code c in
  ((9 <=? n) && (n <=? 13)) || ((28 <=? n) && (n <=? 32))
  || (n =? 133) || (n =? 160).

Fixpoint lstrip_by (p : ascii -> bool) (s : string) : string :=
  match s with
  | EmptyString => EmptyString
  | String c r => if p c then lstrip_by p r else s
  end.

Fixpoint rstrip_by (p : ascii -> bool) (s : string) : string :=
  match s with
  | EmptyString => EmptyString
  | String c r =>
      match rstrip_by p r with
      | EmptyString => if p c then EmptyString else String c EmptyString
      | r' => String c r'
      end
  end.

(** [s.strip()] *)
Definition strip (s : string) : string :=
  rstrip_by isspace (lstrip_by isspace s).

Fixpoint mem_char (c : ascii) (chars : string) : bool :=
  match chars with
  | EmptyString => false
  | String d r => Ascii.eqb c d || mem_char c r
  end.

(** [s.strip(chars)] *)
Definition strip_chars (chars s : string) : string :=
  rstrip_by (fun c => mem_char c chars) (lstrip_by (fun c => mem_char c chars) s).

(** [s.startswith(pre)] *)
Definition startswith (s pre : string) : bool := String.prefix pre s.

(** [s.endswith(suf)] *)
Definition endswith (s suf : string) : bool :=
  (String.length suf <=? String.length s)
  && String.eqb
       (substring (String.length s - String.length suf) (String.length suf) s)
       suf.

(** [s[start:-back]] for [back > 0]. *)
Definition slice_between (start back : nat) (s : string) : string :=
  substring start (String.length s - back - start) s.

(** [needle in hay] *)
Fixpoint contains (needle hay : string) : bool :=
  String.prefix needle hay
  || match hay with
     | EmptyString => false
     | String _ r => contains needle r
     end.

(** [s.split(sep)] for a one-character separator. *)
Fixpoint split (sep : ascii) (s : string) : list string :=
  match s with
  | EmptyString => [EmptyString]
  | String c r =>
      if Ascii.eqb c sep then EmptyString :: split sep r
      else match split sep r with
           | h :: t => String c h :: t
           | [] => [String c EmptyString]
           end
  end.

(** [sep.join(parts)] *)
Definition join (sep : string) (parts : list string) : string :=
  String.concat sep parts.

(** Line boundaries of [str.splitlines], below code point 256. *)
Definition is_linebreak (c : ascii) : bool :=
  let n := code c in
  ((10 <=? n) && (n <=? 13)) || ((28 <=? n) && (n <=? 30)) || (n =? 133).

Definition snoc (s : string) (c : ascii) : string := s ++ String c EmptyString.

Fixpoint splitlines_from (cur : string) (s : string) : list string :=
  match s with
  | EmptyString =>
      match cur with EmptyString => [] | _ => [cur] end
  | String c r =>
      if is_linebreak c then
        cur :: (if code c =? 13 then
                  match r with
                  | String d r' =>
                      if code d =? 10 then splitlines_from EmptyString r'
                      else splitlines_from EmptyString r
                  | EmptyString => splitlines_from EmptyString r
                  end
                else splitlines_from EmptyString r)
      else splitlines_from (snoc cur c) r
  end.

(** [s.splitlines()] *)
Definition splitlines (s : string) : list string :=
  splitlines_from EmptyString s.

(** [str(n)] for a non-negative counter. *)
Definition str_of_nat (n : nat) : string :=
  NilZero.string_of_uint (Nat.to_uint n).

End PyStr.

Import PyStr.

(** ** [os.path] on POSIX (posixpath) *)

Module OsPath.

(** [os.path.isabs] *)
Definition isabs (p : string) : bool := startswith p "/".

(** [os.path.join(a, b)] *)
Definition join (a b : string) : string :=
  if startswith b "/" then b
  else if String.eqb a "" || endswith a "/" then a ++ b
  else a ++ "/" ++ b.

(** [p.rfind('/') + 1] *)
Fixpoint after_last_sep (p : string) : nat :=
  match p with
  | EmptyString => 0
  | String c r =>
      match after_last_sep r with
      | 0 => if Ascii.eqb c "/" then 1 else 0
      | S k => S (S k)
      end
  end.

(** [os.path.basename] *)
Definition basename (p : string) : string :=
  let i := after_last_sep p in
  substring i (String.length p - i) p.

Definition all_sep (s : string) : bool :=
  String.eqb (lstrip_by (fun c => Ascii.eqb c "/") s) "".

(** [os.path.dirname] *)
Definition dirname (p : string) : string :=
  let head := substring 0 (after_last_sep p) p in
  if negb (String.eqb head "") && negb (all_sep head)
  then rstrip_by (fun c => Ascii.eqb c "/") head
  else head.

(** Python's ordering of lists of strings: lexicographic, elements by
    code point. *)
Fixpoint list_compare (a b : list string) : comparison :=
  match a, b with
  | [], [] => Eq
  | [], _ :: _ => Lt
  | _ :: _, [] => Gt
  | x :: a', y :: b' =>
      match String.compare x y with
      | Eq => list_compare a' b'
      | c => c
      end
  end.

Definition list_lt (a b : list string) : bool :=
  match list_compare a b with Lt => true | _ => false end.

(** [min(xs)] and [max(xs)] of a non-empty sequence: the first smallest
    and the first largest element. *)
Definition py_min (h : list string) (t : list (list string)) : list string :=
  fold_left (fun m x => if list_lt x m then x else m) t h.

Definition py_max (h : list string) (t : list (list string)) : list string :=
  fold_left (fun m x => if list_lt m x then x else m) t h.

(** The loop of [commonpath]:
    [for i, c in enumerate(s1): if c != s2[i]: common = s1[:i]; break];
    [s2[i]] raises [IndexError] when [s2] is exhausted first. *)
Fixpoint common_loop (s1 s2 : list string) : result (list string) :=
  match s1 with
  | [] => Ok []
  | c :: s1' =>
      match s2 with
      | [] => Raise (IndexError "list index out of range")
      | d :: s2' =>
          if String.eqb c d
          then try! r := common_loop s1' s2' in Ok (c :: r)
          else Ok []
      end
  end.

(** The components [commonpath] compares: [path.split('/')] without the
    empty ones and without ['.']. *)
Definition components (p : string) : list string :=
  List.filter (fun c => negb (String.eqb c "") && negb (String.eqb c "."))
         (split "/" p).

(** [os.path.commonpath(paths)] *)
Definition commonpath (paths : list string) : result string :=
  match paths with
  | [] => Raise (ValueError "commonpath() arg is an empty sequence")
  | p :: ps =>
      if forallb (fun q => Bool.eqb (isabs q) (isabs p)) ps then
        let split_paths := map components paths in
        match split_paths with
        | [] => Raise (ValueError "commonpath() arg is an empty sequence")
        | h :: t =>
            let s1 := py_min h t in
            let s2 := py_max h t in
            try! common := common_loop s1 s2 in
            Ok ((if isabs p then "/" else "") ++ PyStr.join "/" common)
        end
      else Raise (ValueError "Can't mix absolute and relative paths")
  end.

End OsPath.

(** ** The extraction-and-apply pass of [upgrade_java] (main.py, step 5) *)

Definition nl : string := String (ascii_of_nat 10) EmptyString.
Definition fence : string := "```".
Definition header_prefix : string := "--- File: ".
Definition header_suffix : string := " ---".

(** [line.startswith("--- File: ") and line.endswith(" ---")] (line 184) *)
Definition is_file_header (line : string) : bool :=
  startswith line header_prefix && endswith line header_suffix.

(** [line[len("--- File: "): -len(" ---")].strip()] (line 186) *)
Definition header_path (line : string) : string :=
  strip (slice_between (String.length header_prefix)
                       (String.length header_suffix) line).

(** [lines[i].strip() == "```"] (lines 197, 201, 206) *)
Definition is_fence (line : string) : bool := String.eqb (strip line) fence.

(** The inner loop (lines 200-203): the collected lines and the lines from
  the cursor on. *)
Fixpoint collect (lines : list string) : list string * list string :=
  match lines with
  | [] => ([], [])
  | l :: rest =>
      if is_fence l then ([], lines)
      else let (body, tail) := collect rest in (l :: body, tail)
  end.

(** The dictionary returned to the caller (lines 236-243). *)
Record response : Type := {
  status : string;
  details : option (list string)
}.

(** The file system the service runs on. [realpath] is [os.path.realpath];
it is taken independent of the state because the pass creates directories
and regular files only, never a symbolic link. [makedirs d] is
[os.makedirs(d, exist_ok=True)] and [write_text p c] is
[with open(p, 'w', encoding='utf-8') as f: f.write(c)]; each returns the
new state and the exception raised, if any. *)
Class FileSystem : Type := {
  FS : Type;
  realpath : string -> result string;
  makedirs : string -> FS -> FS * option exn;
  write_text : string -> string -> FS -> FS * option exn
}.

Section ExtractAndApply.

Context {os : FileSystem}.

Variable repo_path : string.

(** The variables of the pass. [write_attempts] is instrumentation: the
    arguments of each entry into the [try] block of lines 208-213, in
    order. *)
Record apply_state : Type := {
  disk : FS;
  updated_files_count : nat;
  errors_applying_changes : list string;
  write_attempts : list (string * string)
}.

Definition initial (fs : FS) : apply_state :=
  {| disk := fs; updated_files_count := 0;
     errors_applying_changes := []; write_attempts := [] |}.

(** The condition of line 191, negated: [true] when the block is kept. *)
Definition path_check (abs_file_path : string) : result bool :=
  try! root_real := realpath repo_path in
  try! file_real := realpath abs_file_path in
  try! common := OsPath.commonpath [root_real; file_real] in
  try! root_again := realpath repo_path in
  Ok (String.eqb common root_again).

(** Lines 208-218: the [try] block and its handler. *)
Definition save_file (st : apply_state) (abs_file_path : string)
    (file_content_lines : list string) : apply_state :=
  let full_content := PyStr.join nl file_content_lines in
  let attempts := (write_attempts st ++ [(abs_file_path, full_content)])%list in
  let failed (d : FS) (e : exn) :=
    let message := "Could not write changes to "
                   ++ OsPath.basename abs_file_path ++ ": " ++ exn_str e in
    {| disk := d;
       updated_files_count := updated_files_count st;
       errors_applying_changes := (errors_applying_changes st ++ [message])%list;
       write_attempts := attempts |} in
  match makedirs (OsPath.dirname abs_file_path) (disk st) with
  | (d1, Some e) => failed d1 e
  | (d1, None) =>
      match write_text abs_file_path full_content d1 with
      | (d2, Some e) => failed d2 e
      | (d2, None) =>
          {| disk := d2;
             updated_files_count := updated_files_count st + 1;
             errors_applying_changes := errors_applying_changes st;
             write_attempts := attempts |}
      end
  end.

(** Line 224 *)
Definition incomplete (st : apply_state) (file_path_relative : string)
    : apply_state :=
  let message := "LLM response for " ++ OsPath.basename file_path_relative
                 ++ " was incomplete." in
  {| disk := disk st;
     updated_files_count := updated_files_count st;
     errors_applying_changes := (errors_applying_changes st ++ [message])%list;
     write_attempts := write_attempts st |}.

(** One iteration of the outer loop (lines 183-232) with the cursor on
    [line]; [rest] are the lines after it. Returns the state and the
    lines from the new cursor on. *)
Definition loop_body (st : apply_state) (line : string) (rest : list string)
    : result (apply_state * list string) :=
  if is_file_header line then
    let file_path_relative := header_path line in
    let abs_file_path := OsPath.join repo_path file_path_relative in
    try! safe := path_check abs_file_path in
    if negb safe then Ok (st, rest)
    else
      match rest with
      | opening :: after_opening =>
          if is_fence opening then
            let (file_content_lines, tail) := collect after_opening in
            match tail with
            | _closing :: after_closing =>
                Ok (save_file st abs_file_path file_content_lines, after_closing)
            | [] => Ok (incomplete st file_path_relative, [])
            end
          else Ok (st, rest)
      | [] => Ok (st, [])
      end
  else Ok (st, rest).

(** Keeps the equation of a matched value in view, for the termination
    proof of [scan]. *)
Definition keep_eq {A : Type} (x : A) : {y : A | x = y} := exist _ x eq_refl.

(** The outer loop (lines 182-232). *)
Equations? scan (st : apply_state) (lines : list string) : result apply_state
  by wf (length lines) lt :=
  scan st [] := Ok st;
  scan st (line :: rest) with keep_eq (loop_body st line rest) := {
    | exist _ (Ok (st', rest')) Heq := scan st' rest';
    | exist _ (Raise e) _ := Raise e }.
Proof.
  assert (Hcollect : forall ls, length (snd (collect ls)) <= length ls).
  { induction ls as [|l ls IH]; simpl; [lia|].
    destruct (is_fence l); simpl; [lia|].
    destruct (collect ls) as [body tail]; simpl in *; lia. }
  revert Heq. unfold loop_body. simpl.
  destruct (is_file_header line); [|intros [= _ <-]; lia].
  destruct (path_check _) as [safe|e]; simpl; [|discriminate].
  destruct safe; simpl; [|intros [= _ <-]; lia].
  destruct rest as [|opening after_opening]; [intros [= _ <-]; simpl; lia|].
  destruct (is_fence opening); [|intros [= _ <-]; simpl; lia].
  specialize (Hcollect after_opening).
  destruct (collect after_opening) as [body tail]; simpl in Hcollect.
  destruct tail as [|closing after_closing]; intros [= _ <-]; simpl in *; lia.
Qed.

(** Lines 236-243 *)
Definition respond (target_version : string) (st : apply_state) : response :=
  match errors_applying_changes st with
  | _ :: _ =>
      {| status := "Upgrade finished with errors";
         details := Some (errors_applying_changes st) |}
  | [] =>
      {| status := "Successfully upgraded " ++ str_of_nat (updated_files_count st)
                   ++ " files to Java " ++ target_version;
         details := None |}
  end.

(** Lines 176-243: from the model's answer to the returned dictionary. *)
Definition apply_llm_output (fs : FS) (target_version llm_output : string)
    : result (apply_state * response) :=
  try! st := scan (initial fs) (splitlines llm_output) in
  Ok (st, respond target_version st).

End ExtractAndApply.

(** ** A file system in memory, without symbolic links

An instance of the operations the pass is parameterised by: directories
and regular files indexed by their normalised absolute path. Paths are
normalised name by name before they are looked up, which is what the
kernel does when every name that a ['..'] follows is an existing
directory; a ['..'] behind a regular file or a missing name, and the
limits on the length of names and paths, are outside this instance. It
serves the examples; the properties of the pass are proved for every
instance of [FileSystem]. *)

Module MemFS.

Inductive node : Type :=
| Dir
| File (content : string).

Abbreviation fs := (gmap string node).

(** The current directory of the process. *)
Definition cwd : string := "/".

(** Lexical resolution of the names of a path, innermost name first in
[stack]: empty names and ['.'] are dropped, ['..'] removes the last
name and stays at the root. *)
Fixpoint resolve (stack : list string) (names : list string) : list string :=
  match names with
  | [] => rev stack
  | name :: names' =>
      if String.eqb name "" || String.eqb name "." then resolve stack names'
      else if String.eqb name ".." then resolve (tl stack) names'
      else resolve (name :: stack) names'
  end.

Definition abs_names (p : string) : list string :=
  resolve [] (split "/" (OsPath.join cwd p)).

Definition path_of (names : list string) : string :=
  "/" ++ PyStr.join "/" names.

Definition has_nul (p : string) : bool := mem_char (ascii_of_nat 0) p.

(** [os.path.realpath]: with no links to follow it is [os.path.abspath].
[realpath] calls [os.lstat] on each name of the path and catches [OSError]
only (posixpath, CPython 3.10 and later); [os.lstat] rejects a path with a
NUL character by [ValueError], which therefore leaves [realpath]. *)
Definition realpath (p : string) : result string :=
  if has_nul p then Raise (ValueError "embedded null byte")
  else Ok (path_of (abs_names p)).

Definition is_dir (d : fs) (names : list string) : bool :=
  match names with
  | [] => true
  | _ => match d !! path_of names with Some Dir => true | _ => false end
  end.

(** Creates the directories [done ++ [n1]], [done ++ [n1; n2]], ... *)
Fixpoint mkdir_chain (done todo : list string) (d : fs) : fs * option exn :=
  match todo with
  | [] => (d, None)
  | name :: todo' =>
      let here := (done ++ [name])%list in
      match d !! path_of here with
      | Some (File _) =>
          (d, Some (OSError
                      (match todo' with
                       | [] => "[Errno 17] File exists: '" ++ path_of here ++ "'"
                       | next :: _ =>
                           "[Errno 20] Not a directory: '"
                           ++ path_of (here ++ [next])%list ++ "'"
                       end)))
      | Some Dir => mkdir_chain here todo' d
      | None => mkdir_chain here todo' (<[path_of here := Dir]> d)
      end
  end.

(** [os.makedirs(name, exist_ok=True)] *)
Definition makedirs (name : string) (d : fs) : fs * option exn :=
  if String.eqb name "" then
    (d, Some (OSError "[Errno 2] No such file or directory: ''"))
  else if has_nul name then (d, Some (ValueError "embedded null byte"))
  else mkdir_chain [] (abs_names name) d.

(** [with open(p, 'w', encoding='utf-8') as f: f.write(c)] *)
Definition write_text (p c : string) (d : fs) : fs * option exn :=
  if has_nul p then (d, Some (ValueError "embedded null byte"))
  else
    let names := abs_names p in
    if is_dir d names || endswith p "/" then
      (d, Some (OSError ("[Errno 21] Is a directory: '" ++ p ++ "'")))
    else if is_dir d (removelast names) then
      (<[path_of names := File c]> d, None)
    else (d, Some (OSError ("[Errno 2] No such file or directory: '" ++ p ++ "'"))).

(** [open(p).read()] *)
Definition read_text (p : string) (d : fs) : option string :=
  match d !! path_of (abs_names p) with
  | Some (File c) => Some c
  | _ => None
  end.

#[global] Instance os : FileSystem :=
  Build_FileSystem fs realpath makedirs write_text.

(** The pass on this file system. *)
Definition run (repo_path : string) (d : fs) (target_version llm_output : string)
    : result (apply_state * response) :=
  apply_llm_output repo_path d target_version llm_output.

End MemFS.

(** ** [float(s)] and [int(x)] on a version string *)

Module PyFloat.

Local Open Scope Z_scope.

Definition is_digit (c : ascii) : bool :=
  ((48 <=? code c) && (code c <=? 57))%nat.

Definition digit_value (c : ascii) : Z := Z.of_nat (code c) - 48.

(** The characters [float] removes at both ends: the ASCII white space and,
of the code points from 128 to 255, the two Unicode spaces. The
separators 28 to 31 are not removed. *)
Definition is_float_space (c : ascii) : bool :=
  (((9 <=? code c) && (code c <=? 13)) || (code c =? 32)
   || (code c =? 133) || (code c =? 160))%nat.

Definition float_strip (s : string) : string :=
  rstrip_by is_float_space (lstrip_by is_float_space s).

Definition head_is_digit (s : string) : bool :=
  match s with
  | String c _ => is_digit c
  | EmptyString => false
  end.

(** Digit grouping: an underscore is accepted only between two digits and
is then dropped. [prev_digit] tells whether the character before is a
digit. *)
Fixpoint drop_underscores (prev_digit : bool) (s : string) : option string :=
  match s with
  | EmptyString => Some EmptyString
  | String c r =>
      if Ascii.eqb c "_" then
        if prev_digit && head_is_digit r then drop_underscores false r else None
      else option_map (String c) (drop_underscores (is_digit c) r)
  end.

(** The longest run of digits at the front, and what follows. *)
Fixpoint take_digits (s : string) : string * string :=
  match s with
  | String c r =>
      if is_digit c then let (ds, tail) := take_digits r in (String c ds, tail)
      else (EmptyString, s)
  | EmptyString => (EmptyString, EmptyString)
  end.

(** The number a string of digits denotes, after the digits [acc]. *)
Fixpoint digits_value (acc : Z) (ds : string) : Z :=
  match ds with
  | EmptyString => acc
  | String c r => digits_value (10 * acc + digit_value c) r
  end.

Definition take_sign (s : string) : bool * string :=
  match s with
  | String c r =>
      if Ascii.eqb c "-" then (true, r)
      else if Ascii.eqb c "+" then (false, r)
      else (false, s)
  | EmptyString => (false, s)
  end.

Definition lower (c : ascii) : ascii :=
  if ((65 <=? code c) && (code c <=? 90))%nat
  then ascii_of_nat (code c + 32) else c.

Fixpoint lowercase (s : string) : string :=
  match s with
  | EmptyString => EmptyString
  | String c r => String (lower c) (lowercase r)
  end.

(** What a string denotes for [float]: [Finite neg m e] is
[(-1)^neg * m * 10^e], exactly. *)
Inductive literal : Type :=
| Finite (neg : bool) (m : Z) (e : Z)
| Infinity (neg : bool)
| NaN.

(** The exponent part: nothing, or [e]/[E], an optional sign and at least
one digit; nothing may follow. *)
Definition parse_exponent (s : string) : option Z :=
  match s with
  | EmptyString => Some 0
  | String c r =>
      if Ascii.eqb (lower c) "e" then
        let (neg, r1) := take_sign r in
        let (ds, tail) := take_digits r1 in
        match ds, tail with
        | String _ _, EmptyString =>
            Some (if neg then - digits_value 0 ds else digits_value 0 ds)
        | _, _ => None
        end
      else None
  end.

(** [sign? (inf | infinity | nan | digits? ('.' digits?)? exponent?)] with at
least one digit in the mantissa. *)
Definition parse_literal (s : string) : option literal :=
  let (neg, body) := take_sign s in
  let word := lowercase body in
  if String.eqb word "inf" || String.eqb word "infinity" then Some (Infinity neg)
  else if String.eqb word "nan" then Some NaN
  else
    let (int_digits, r1) := take_digits body in
    let (frac_digits, r2) :=
      match r1 with
      | String c r => if Ascii.eqb c "." then take_digits r else (EmptyString, r1)
      | EmptyString => (EmptyString, r1)
      end in
    match (int_digits ++ frac_digits)%string with
    | EmptyString => None
    | mantissa =>
        match parse_exponent r2 with
        | Some e =>
            Some (Finite neg (digits_value 0 mantissa)
                         (e - Z.of_nat (String.length frac_digits)))
        | None => None
        end
    end.

(** The literal [float(s)] reads, or [None] when it raises [ValueError]. *)
Definition read (s : string) : option literal :=
  match drop_underscores false (float_strip s) with
  | Some t => parse_literal t
  | None => None
  end.

(** [m * 10^e] as a fraction. *)
Definition fraction (m e : Z) : Z * Z :=
  if 0 <=? e then (m * 10 ^ e, 1) else (m, 10 ^ (- e)).

(** Rounding [num / den] to an integer, ties to the even one. *)
Definition round_half_even (num den : Z) : Z :=
  let q := num / den in
  let r := num mod den in
  if 2 * r <? den then q
  else if den <? 2 * r then q + 1
  else if Z.even q then q else q + 1.

(** [b * 2^k <= a], for [k] of either sign. *)
Definition scaled_le (a b k : Z) : bool :=
  if 0 <=? k then b * 2 ^ k <=? a else b <=? a * 2 ^ (- k).

(** [floor (log2 (a / b))] for positive [a] and [b]. *)
Definition binade (a b : Z) : Z :=
  let k := Z.log2 a - Z.log2 b in
  if scaled_le a b k then k else k - 1.

(** The binary64 value nearest to [a / b] (for [a >= 0], [b > 0]), as a pair
[(q, u)] denoting [q * 2^u]: 53 bits of precision, the exponent of the
last place no smaller than -1074. [None] when the result is infinite. *)
Definition to_double (a b : Z) : option (Z * Z) :=
  if a =? 0 then Some (0, 0)
  else
    let u := Z.max (binade a b - 52) (-1074) in
    let q := if 0 <=? u then round_half_even a (b * 2 ^ u)
             else round_half_even (a * 2 ^ (- u)) b in
    if (0 <=? u) && (2 ^ 1024 <=? q * 2 ^ u) then None else Some (q, u).

(** [int(x)] of the non-negative double [q * 2^u]: the fraction is dropped. *)
Definition truncate (q u : Z) : Z :=
  if 0 <=? u then q * 2 ^ u else q / 2 ^ (- u).

(** [int(float(s))] *)
Definition int_of_float (s : string) : result Z :=
  match read s with
  | None => Raise (ValueError ("could not convert string to float: " ++ s))
  | Some NaN => Raise (ValueError "cannot convert float NaN to integer")
  | Some (Infinity _) =>
      Raise (OverflowError "cannot convert float infinity to integer")
  | Some (Finite neg m e) =>
      let (a, b) := fraction m e in
      match to_double a b with
      | None => Raise (OverflowError "cannot convert float infinity to integer")
      | Some (q, u) => Ok (if neg then - truncate q u else truncate q u)
      end
  end.

(** [int(s)] for a string of decimal digits with an optional sign, which is
what the candidate list holds. *)
Definition int_of_str (s : string) : result Z :=
  let (neg, body) := take_sign (strip s) in
  match drop_underscores false body with
  | Some ds =>
      match take_digits ds with
      | (String c r, EmptyString) =>
          Ok (if neg then - digits_value 0 (String c r)
              else digits_value 0 (String c r))
      | _ => Raise (ValueError ("invalid literal for int() with base 10: " ++ s))
      end
  | None => Raise (ValueError ("invalid literal for int() with base 10: " ++ s))
  end.

End PyFloat.

(** ** [xml.etree.ElementTree] elements *)

Module ET.

(** A parsed element: its qualified tag, the text before its first child
([None] when there is none) and its children in document order. *)
#[warnings="-register-all"]
Inductive element : Type :=
| Element (tag : string) (text : option string) (children : list element).

Definition tag (e : element) : string :=
  match e with Element t _ _ => t end.

Definition text (e : element) : option string :=
  match e with Element _ x _ => x end.

Definition children (e : element) : list element :=
  match e with Element _ _ cs => cs end.

(** The tag a prefixed name stands for under a namespace map. *)
Definition qualified (ns name : string) : string := "{" ++ ns ++ "}" ++ name.

(** All elements below [e], in document order. *)
Fixpoint descendants (e : element) : list element :=
  match e with
  | Element _ _ cs =>
      (fix below (l : list element) : list element :=
         match l with
         | [] => []
         | c :: l' => (c :: descendants c) ++ below l'
         end)%list cs
  end.

(** [e.findall(".//name")] *)
Definition findall_below (t : string) (e : element) : list element :=
  List.filter (fun d => String.eqb (tag d) t) (descendants e).

(** [e.find("name")]: the first child with that tag. *)
Definition find (t : string) (e : element) : option element :=
  List.find (fun c => String.eqb (tag c) t) (children e).

End ET.

(** ** [detect_java_version] (utils.py, lines 87-157) *)

Definition mvn : string := "http://maven.apache.org/POM/4.0.0".

(** One of the two loops over [root.findall(".//mvn:properties", ns)]
(lines 101-106 and 109-114): the version set by the first [properties]
element whose [name] child has a non-empty text, if there is one. *)
Fixpoint first_property (name : string) (props : list ET.element) : option string :=
  match props with
  | [] => None
  | prop :: props' =>
      match ET.find (ET.qualified mvn name) prop with
      | Some java_version_element =>
          match ET.text java_version_element with
          | Some (String c r) => Some (strip (String c r))
          | _ => first_property name props'
          end
      | None => first_property name props'
      end
  end.

Definition assign_found (found : option string) (current_version : string) : string :=
  match found with
  | Some v => v
  | None => current_version
  end.

(** Lines 98-114, on the root element of a parsed pom.xml. *)
Definition maven_version (root : ET.element) (current_version : string) : string :=
  let props := ET.findall_below (ET.qualified mvn "properties") root in
  let current_version :=
    assign_found (first_property "maven.compiler.source" props) current_version in
  if String.eqb current_version "Unknown"
  then assign_found (first_property "java.version" props) current_version
  else current_version.

(** The lines a file opened in text mode yields when iterated, given its
decoded content. The default [newline=None] translates: a line ends at a
line feed, at a carriage return, or at a carriage return followed by a
line feed, and is yielded with a line feed at its end. *)
Fixpoint file_lines_from (cur : string) (s : string) : list string :=
  match s with
  | EmptyString => match cur with EmptyString => [] | _ => [cur] end
  | String c r =>
      if (code c =? 10)%nat then snoc cur c :: file_lines_from EmptyString r
      else if (code c =? 13)%nat then
        snoc cur (ascii_of_nat 10)
        :: match r with
           | String d r' =>
               if (code d =? 10)%nat then file_lines_from EmptyString r'
               else file_lines_from EmptyString r
           | EmptyString => []
           end
      else file_lines_from (snoc cur c) r
  end.

Definition file_lines (s : string) : list string := file_lines_from EmptyString s.

(** [s.split()]: the maximal runs of characters that are not white space. *)
Fixpoint split_whitespace_from (cur : string) (s : string) : list string :=
  match s with
  | EmptyString => match cur with EmptyString => [] | _ => [cur] end
  | String c r =>
      if isspace c then
        match cur with
        | EmptyString => split_whitespace_from EmptyString r
        | _ => cur :: split_whitespace_from EmptyString r
        end
      else split_whitespace_from (snoc cur c) r
  end.

Definition split_whitespace (s : string) : list string :=
  split_whitespace_from EmptyString s.

Definition quote : string := String (ascii_of_nat 34) EmptyString.

(** Lines 128-138: the first line that sets a version. *)
Fixpoint gradle_scan (lines : list string) : option string :=
  match lines with
  | [] => None
  | line :: lines' =>
      let line := strip line in
      if startswith line "sourceCompatibility" || startswith line "targetCompatibility"
      then
        let parts := split_whitespace line in
        if (1 <? length parts)%nat then
          let version_part :=
            strip_chars ";" (strip_chars quote (strip_chars "'" (List.last parts ""))) in
          match version_part with
          | EmptyString => gradle_scan lines'
          | _ => Some version_part
          end
        else gradle_scan lines'
      else gradle_scan lines'
  end.

(** What the project directory holds of a manifest: nothing, a file that
cannot be read or parsed (the exception is caught, lines 116 and 140), or
its content. *)
Inductive manifest (A : Type) : Type :=
| Absent
| Unreadable (e : exn)
| Present (content : A).
Arguments Absent {A}.
Arguments Unreadable {A} e.
Arguments Present {A} content.

(** Line 90 *)
Definition candidates : list string := ["11"; "17"; "21"].

(** Line 147: [[v for v in suggested_versions if int(v) > current_major_version]] *)
Fixpoint keep_greater (current_major_version : Z) (vs : list string)
    : result (list string) :=
  match vs with
  | [] => Ok []
  | v :: vs' =>
      try! n := PyFloat.int_of_str v in
      try! kept := keep_greater current_major_version vs' in
      Ok (if (current_major_version <? n)%Z then v :: kept else kept)
  end.

(** Lines 145-153: a [ValueError] leaves the list as it is, any other
exception leaves the function. *)
Definition filter_suggestions (current_version : string)
    (suggested_versions : list string) : result (list string) :=
  match (try! current_major_version := PyFloat.int_of_float current_version in
         keep_greater current_major_version suggested_versions) with
  | Ok filtered_suggestions => Ok filtered_suggestions
  | Raise (ValueError _) => Ok suggested_versions
  | Raise e => Raise e
  end.

(** The dictionary [detect_java_version] returns. *)
Record version_info : Type := {
  current_version : string;
  suggested_versions : list string
}.

Definition detect_java_version (pom : manifest ET.element)
    (gradle : manifest string) : result version_info :=
  let current_version := "Unknown" in
  let suggested_versions := candidates in
  let current_version :=
    match pom with
    | Present root => maven_version root current_version
    | _ => current_version
    end in
  let current_version :=
    if String.eqb current_version "Unknown" then
      match gradle with
      | Present content =>
          assign_found (gradle_scan (file_lines content)) current_version
      | _ => current_version
      end
    else current_version in
  try! suggested_versions := filter_suggestions current_version suggested_versions in
  Ok {| current_version := current_version;
        suggested_versions := suggested_versions |}.

(** ** [find_java_files] (utils.py, lines 160-169) *)

(** A directory: its sub-directories and its files, in the order
[os.scandir] lists them. *)
#[warnings="-register-all"]
Inductive tree : Type :=
| Node (dirs : list (string * tree)) (files : list string).

(** [os.walk(top)]: top-down, each directory with the names of its
sub-directories and of its files. *)
Fixpoint walk (top : string) (t : tree) : list (string * list string * list string) :=
  match t with
  | Node dirs files =>
      (top, map fst dirs, files)
      :: (fix below (l : list (string * tree)) :=
            match l with
            | [] => []
            | (name, sub) :: l' => (walk (OsPath.join top name) sub ++ below l')%list
            end) dirs
  end.

Definition find_java_files (project_dir : string) (t : tree) : list string :=
  flat_map
    (fun entry =>
       match entry with
       | (root, _, files) =>
           flat_map
             (fun file =>
                if endswith file ".java" then
                  if negb (contains "build" root) && negb (contains "target" root)
                  then [OsPath.join root file]
                  else []
                else [])
             files
       end)
    (walk project_dir t).

(** ** Vocabulary of the specification *)

(** A canonical path, as [os.path.realpath] returns them: a slash, then the
names of the path separated by single slashes, none of them empty or
['.']. *)
Definition canonical (p : string) : Prop :=
  p = "/" ++ PyStr.join "/" (OsPath.components p).

(** [p] is the directory [root] itself or lies below it. *)
Definition inside (root p : string) : Prop :=
  p = root
  \/ String.prefix (root ++ "/") p = true
  \/ (root = "/" /\ OsPath.isabs p = true).

(** The label the prompt puts before each file it shows (main.py, line
142), without its newline. *)
Definition context_label (file_path : string) : string :=
  header_prefix ++ file_path ++ header_suffix.

(** The answer format the prompt asks for (main.py, line 137): the opening
fence immediately followed by the path, the new content, a closing
fence. *)
Definition answer_block (path : string) (body : list string) : list string :=
  String.append fence path :: (body ++ [fence])%list.

Definition answer_lines (blocks : list (string * list string)) : list string :=
  flat_map (fun block => answer_block (fst block) (snd block)) blocks.

(** Only white space. *)
Fixpoint blank (s : string) : bool :=
  match s with
  | EmptyString => true
  | String c r => isspace c && blank r
  end.

(** A fence line: the three-backtick marker, with nothing but white space
before and after it. *)
Definition fence_line (line : string) : Prop :=
  exists before after,
    blank before = true /\ blank after = true
    /\ line = before ++ fence ++ after.

Section Reach.

Context {os : FileSystem}.
Variable repo_path : string.

(** [reaches st lines st' lines']: started at the head of the outer loop
with state [st] and the cursor before [lines], the pass comes to the head
of the loop with state [st'] and the cursor before [lines']. *)
Inductive reaches : apply_state -> list string -> apply_state -> list string -> Prop :=
| reaches_here (st : apply_state) (lines : list string) :
    reaches st lines st lines
| reaches_next (st : apply_state) (line : string) (rest : list string)
    (st1 : apply_state) (rest1 : list string)
    (st2 : apply_state) (rest2 : list string) :
    loop_body repo_path st line rest = Ok (st1, rest1) ->
    reaches st1 rest1 st2 rest2 ->
    reaches st (line :: rest) st2 rest2.

End Reach.

(** The candidate versions with the numbers they denote. *)
Definition candidate_values : list (string * Z) :=
  [("11", 11%Z); ("17", 17%Z); ("21", 21%Z)].

(** The candidates strictly greater than [major]. *)
Definition suggested_above (major : Z) : list string :=
  map fst (List.filter (fun c => (major <? snd c)%Z) candidate_values).

(** [floor] of the number [(-1)^neg * m * 10^e]. *)
Definition exact_floor (neg : bool) (m e : Z) : Z :=
  let (a, b) := PyFloat.fraction m e in
  ((if neg then - a else a) / b)%Z.

(** [c - 2^-h <= a / b < c]: the fraction lies at most [2^-h] below the
integer [c]. *)
Definition just_below (c h a b : Z) : bool :=
  (((c * 2 ^ h - 1) * b <=? 2 ^ h * a) && (2 ^ h * a <? c * 2 ^ h * b))%Z.

(** The versions [float] rounds up to a candidate they lie below: half a
unit in the last place of a double below 11 is [2^-50], below 17 and 21 it
is [2^-49]. *)
Definition rounded_up_to_a_candidate (neg : bool) (a b : Z) : bool :=
  negb neg
  && (just_below 11 50 a b || just_below 17 49 a b || just_below 21 49 a b).

(** The directory path has a component named [build] or [target]. *)
Definition has_build_segment (dir : string) : bool :=
  existsb (fun c => String.eqb c "build" || String.eqb c "target") (split "/" dir).

(** The file collector in the words of the specification: every file under
the root whose name ends in [.java], except those whose path has a
build-output directory segment. *)
Definition find_java_files_spec (project_dir : string) (t : tree) : list string :=
  flat_map
    (fun entry =>
       match entry with
       | (root, _, files) =>
           map (OsPath.join root)
               (List.filter
                  (fun file => endswith file ".java" && negb (has_build_segment root))
                  files)
       end)
    (walk project_dir t).

(** A [properties] element that sets no version under [name]: it has no
such child, or the first one has no text. *)
Definition sets_nothing (name : string) (prop : ET.element) : Prop :=
  forall el, ET.find (ET.qualified mvn name) prop = Some el ->
             ET.text el = None \/ ET.text el = Some "".

(** A name without a slash, and a name as [commonpath] compares them. *)
Definition no_slash (x : string) : Prop := mem_char "/" x = false.

Definition good_name (x : string) : Prop :=
  x <> "" /\ x <> "." /\ no_slash x.

(** The longest common prefix of two lists of names. *)
Fixpoint common_prefix (a b : list string) : list string :=
  match a, b with
  | x :: a', y :: b' => if String.eqb x y then x :: common_prefix a' b' else []
  | _, _ => []
  end.

(** Only decimal digits. *)
Fixpoint all_digits (s : string) : bool :=
  match s with
  | EmptyString => true
  | String c r => PyFloat.is_digit c && all_digits r
  end.

(** ** A working copy for the examples *)

Module Example.

Definition repo_path : string := "/tmp/proj".

(** /tmp/proj with the directory src and the file src/A.java. *)
Definition working_copy : MemFS.fs :=
  {[ "/tmp" := MemFS.Dir;
     "/tmp/proj" := MemFS.Dir;
     "/tmp/proj/src" := MemFS.Dir;
     "/tmp/proj/src/A.java" := MemFS.File "class A { }" ]}.

Definition lines_to_text (lines : list string) : string := PyStr.join nl lines.

(** A header that leaves the root. *)
Definition escaping_answer : string :=
  lines_to_text ["--- File: ../../etc/passwd ---"; "```"; "root:x:0:0"; "```"].

(** An answer in the format the prompt asks for. *)
Definition instructed_answer : string :=
  lines_to_text ["```src/A.java"; "class A { int x; }"; "```"].

(** One complete block for src/A.java. *)
Definition labelled_answer : string :=
  lines_to_text ["--- File: src/A.java ---"; "```"; "class A {"; "}"; "```"].

(** One complete block whose path is the directory src. *)
Definition directory_answer : string :=
  lines_to_text ["--- File: src ---"; "```"; "class A { }"; "```"].

(** A block that is cut off. *)
Definition truncated_answer : string :=
  lines_to_text ["--- File: src/A.java ---"; "```"; "class A {"].

(** A block whose fences carry white space. *)
Definition padded_answer : string :=
  lines_to_text ["--- File: src/A.java ---"; " ``` "; "class A { }"; " ```"].

(** The label of the prompt for src/A.java, given back with new content. *)
Definition echoed_answer : list string :=
  [context_label "/tmp/proj/src/A.java"; "```"; "class A { int x; }"; "```"].

(** A manifest element. *)
Definition pom_element (name : string) (text : option string)
    (children : list ET.element) : ET.element :=
  ET.Element (ET.qualified mvn name) text children.

(** A pom.xml whose properties set both versions. *)
Definition pom_both (source java : string) : ET.element :=
  pom_element "project" None
    [pom_element "modelVersion" (Some "4.0.0") [];
     pom_element "properties" None
       [pom_element "java.version" (Some java) [];
        pom_element "maven.compiler.source" (Some source) []]].

(** A [properties] element that sets [maven.compiler.source] twice, first
without text. *)
Definition pom_repeated_properties : ET.element :=
  pom_element "properties" None
    [pom_element "maven.compiler.source" None [];
     pom_element "maven.compiler.source" (Some "1.8") [];
     pom_element "java.version" (Some "17") []].

Definition pom_repeated : ET.element :=
  pom_element "project" None
    [pom_element "modelVersion" (Some "4.0.0") []; pom_repeated_properties].

(** A working copy with the sources src/builder/Foo.java and
src/main/A.java and a compiled copy under target. *)
Definition source_tree : tree :=
  Node [("src", Node [("builder", Node [] ["Foo.java"]);
                      ("main", Node [] ["A.java"; "notes.txt"])] []);
        ("target", Node [] ["A.java"])]
       ["README.md"].

(** A header whose path holds a NUL character. *)
Definition nul_answer : string :=
  "--- File: a" ++ String (ascii_of_nat 0) "b ---".

(** The pass about to start on the working copy. *)
Definition start : apply_state := initial (os := MemFS.os) working_copy.

(** The lines under the header of [padded_answer]. *)
Definition padded_block : list string := [" ``` "; "class A { }"; " ```"].

Definition passwd_header : string := "--- File: ../../etc/passwd ---".
Definition source_header : string := "--- File: src/A.java ---".
Definition directory_header : string := "--- File: src ---".
Definition absolute_directory_header : string := "--- File: /tmp/proj/src ---".

(** What the handler of line 218 records when the path is the directory
src. *)
Definition directory_error : string :=
  "Could not write changes to src: [Errno 21] Is a directory: '/tmp/proj/src'".

(** The pass on the working copy, to Java 21. *)
Definition run (llm_output : string) : result (apply_state * response) :=
  MemFS.run repo_path working_copy "21" llm_output.

End Example.

(** ** More of Python's [str] and [int] *)

Module PyText.

(** [s.replace(old, new)] for a non-empty [old]: the occurrences of [old]
are taken from the left and do not overlap. [skip] counts the characters
of the occurrence under the cursor that are still to be passed over. *)
Fixpoint replace_from (old new : string) (skip : nat) (s : string) : string :=
  match s with
  | EmptyString => EmptyString
  | String c r =>
      match skip with
      | S k => replace_from old new k r
      | O =>
          if String.prefix old s
          then new ++ replace_from old new (String.length old - 1) r
          else String c (replace_from old new 0 r)
      end
  end.

Definition replace (old new s : string) : string := replace_from old new 0 s.

(** [s.rstrip('/')] *)
Definition rstrip_slash (s : string) : string :=
  rstrip_by (fun c => Ascii.eqb c "/") s.

(** [str(n)] for an [int]. *)
Definition str_of_int (n : Z) : string :=
  if (n <? 0)%Z then "-" ++ str_of_nat (Z.to_nat (- n))
  else str_of_nat (Z.to_nat n).

(** [d[k] = v] on a [dict] of strings, kept as the list of its items in
insertion order: a key that is present keeps its place. *)
Fixpoint dict_set (k v : string) (d : list (string * string))
    : list (string * string) :=
  match d with
  | [] => [(k, v)]
  | (k', v') :: d' =>
      if String.eqb k' k then (k', v) :: d' else (k', v') :: dict_set k v d'
  end.

End PyText.

(** ** The service around the pass

The operating system and the network as the rest of the code uses them,
over the same state as the pass. *)

(** What [subprocess.run(cmd, capture_output=True, text=True, check=False)]
comes back with: a completed process, [FileNotFoundError] when the
executable is missing, or another exception. *)
Inductive process : Type :=
| Completed (returncode : Z) (stdout stderr : string)
| FileNotFoundError
| ProcessError (e : exn).

(** What lines 151-162 of main.py come back with: the JSON object of the
answer, of which only the key [response] is read ([None] when the key is
missing); an exception of [requests.exceptions.RequestException]; or any
other exception. The strings are [str(e)]. *)
Inductive ollama_reply : Type :=
| Generated (response : option string)
| RequestException (message : string)
| OtherException (message : string).

(** [isdir] is [os.path.isdir], [path_exists] is [os.path.exists],
[parse_xml p] is [ET.parse(p).getroot()], [open_lines p] is the text that
[for line in open(p, 'r')] runs through, [os_walk top] is the directory
tree [os.walk(top)] lists, [open_read p] is
[open(p, 'r', encoding='utf-8').read()] and [ollama_post model prompt] is
the request of lines 151-162. *)
Class Service (os : FileSystem) : Type := {
  isdir : string -> FS -> bool;
  path_exists : string -> FS -> bool;
  subprocess_run : list string -> FS -> FS * process;
  parse_xml : string -> FS -> result ET.element;
  open_lines : string -> FS -> result string;
  os_walk : string -> FS -> tree;
  open_read : string -> FS -> result string;
  ollama_post : string -> string -> ollama_reply
}.

(** What an endpoint answers: the dictionary it returns, an
[HTTPException], or an exception that no handler catches. *)
Inductive http_reply (A : Type) : Type :=
| Returned (body : A)
| HTTPException (status_code : nat) (detail : string)
| Uncaught (e : exn).
Arguments Returned {A} body.
Arguments HTTPException {A} status_code detail.
Arguments Uncaught {A} e.

(** The dictionary [clone_and_detect] returns (main.py, line 43). *)
Record detected : Type := {
  returned_repo_path : string;
  current_java_version : string;
  suggested_java_versions : list string
}.

(** What [upgrade_java] leaves behind. [disk_after] is [None] when the pass
of step 5 raised part-way; [prompt_sent] is instrumentation: the prompt of
the request to the model, if one was made. *)
Record upgrade_outcome {os : FileSystem} : Type := {
  disk_after : option FS;
  prompt_sent : option string;
  reply : http_reply response
}.

(** utils.py, line 10 *)
Definition GITLAB_PERSONAL_ACCESS_TOKEN : string := "".

(** main.py, line 76 *)
Definition ollama_api_url : string := "http://localhost:11434/api/generate".

(** main.py, lines 142-143: what the prompt shows of one file. *)
Definition context_section (file_path content : string) : string :=
  context_label file_path ++ nl
  ++ fence ++ nl ++ content ++ nl ++ fence ++ nl ++ nl.

(** main.py, lines 141-143 *)
Definition context_sections (file_contents : list (string * string)) : string :=
  String.concat "" (map (fun item => context_section (fst item) (snd item))
                        file_contents).

(** main.py, lines 128-143 *)
Definition build_prompt (current_version target_version : string)
    (file_contents : list (string * string)) : string :=
  "You are a senior Java developer assistant tasked with upgrading a Java project." ++ nl
  ++ "The project is currently using Java version " ++ current_version
  ++ " and needs to be upgraded to Java version " ++ target_version ++ "." ++ nl
  ++ "Carefully review the provided code and configuration files. Make the necessary changes to:" ++ nl
  ++ "- Update dependencies and compiler/runtime versions in pom.xml or build.gradle." ++ nl
  ++ "- Update Java source code to use features available in Java " ++ target_version
  ++ " and fix any compatibility issues or deprecations from Java " ++ current_version ++ "." ++ nl
  ++ "- Modernize usage of legacy Java APIs (e.g., replace Vector/Enumeration with ArrayList/Iterator, update file I/O, networking, etc.) where appropriate.**" ++ nl
  ++ "- Ensure the code follows best practices for Java " ++ target_version ++ "." ++ nl ++ nl
  ++ "Respond ONLY with the FULL content of the modified files. For each file that requires changes, provide the full content within a markdown code block. It is crucial that you include the file path relative to the repository root immediately after the opening triple backticks, like this:" ++ nl ++ nl
  ++ "```path/to/modified/file.java" ++ nl
  ++ "// Full upgraded code for this file" ++ nl
  ++ "```" ++ nl ++ nl
  ++ "If a file does not need changes, do NOT include it in your response." ++ nl ++ nl
  ++ "Here are the relevant files from the project:" ++ nl ++ nl
  ++ context_sections file_contents.

Section Endpoints.

Context {os : FileSystem} {host : Service os}.

(** *** [clone_repo] (utils.py, lines 13-83) *)

Definition clone_repo (git_url clone_dir : string) (fs : FS)
    : FS * (bool * string) :=
  if startswith git_url "https://gitlab.com/" then
    let authenticated_git_url :=
      PyText.replace "https://gitlab.com/"
        ("https://oauth2:" ++ GITLAB_PERSONAL_ACCESS_TOKEN ++ "@gitlab.com/")
        git_url in
    if path_exists clone_dir fs then
      let pull_command := ["git"; "-C"; clone_dir; "pull"; authenticated_git_url] in
      match subprocess_run pull_command fs with
      | (fs', Completed returncode _ stderr) =>
          if negb (returncode =? 0)%Z then
            (fs', (false,
                   if negb (String.eqb stderr "") then strip stderr
                   else "Git pull failed with code " ++ PyText.str_of_int returncode))
          else (fs', (true, "Directory already exists, updated successfully."))
      | (fs', FileNotFoundError) => (fs', (false, "Git command not found for pull."))
      | (fs', ProcessError e) =>
          (fs', (false,
                 "Directory exists but an unexpected error occurred during update: "
                 ++ exn_str e))
      end
    else
      let clone_command := ["git"; "clone"; authenticated_git_url; clone_dir] in
      match subprocess_run clone_command fs with
      | (fs', Completed returncode _ stderr) =>
          if negb (returncode =? 0)%Z then
            (fs', (false,
                   if negb (String.eqb stderr "") then strip stderr
                   else "Git clone failed with code " ++ PyText.str_of_int returncode))
          else (fs', (true, "Cloned successfully"))
      | (fs', FileNotFoundError) => (fs', (false, "Git command not found."))
      | (fs', ProcessError e) => (fs', (false, exn_str e))
      end
  else (fs, (false, "Unsupported Git URL format: " ++ git_url)).

(** *** [detect_java_version] on a project directory (utils.py, lines
92-97 and 123-128): what the two manifests are found to be. *)

Definition pom_manifest (project_dir : string) (fs : FS) : manifest ET.element :=
  let pom_path := OsPath.join project_dir "pom.xml" in
  if path_exists pom_path fs then
    match parse_xml pom_path fs with
    | Ok root => Present root
    | Raise e => Unreadable e
    end
  else Absent.

Definition gradle_manifest (project_dir : string) (fs : FS) : manifest string :=
  let gradle_path := OsPath.join project_dir "build.gradle" in
  if path_exists gradle_path fs then
    match open_lines gradle_path fs with
    | Ok content => Present content
    | Raise e => Unreadable e
    end
  else Absent.

Definition detect_java_version_in (project_dir : string) (fs : FS)
    : result version_info :=
  detect_java_version (pom_manifest project_dir fs) (gradle_manifest project_dir fs).

(** *** [clone_and_detect] (main.py, lines 24-43) *)

(** Line 29 *)
Definition repo_name_safe (git_url : string) : string :=
  PyText.replace "-" "_"
    (PyText.replace "." "_"
       (PyText.replace ".git" ""
          (List.last (split "/" (PyText.rstrip_slash git_url)) ""))).

(** Line 30 *)
Definition clone_dir_of (git_url : string) : string :=
  OsPath.join "/tmp" (repo_name_safe git_url).

Definition clone_and_detect (git_url : string) (fs : FS)
    : FS * http_reply detected :=
  let clone_dir := clone_dir_of git_url in
  match clone_repo git_url clone_dir fs with
  | (fs', (false, msg)) => (fs', HTTPException 500 ("Cloning failed: " ++ msg))
  | (fs', (true, _)) =>
      match detect_java_version_in clone_dir fs' with
      | Raise e => (fs', Uncaught e)
      | Ok version_info =>
          (fs', Returned
                  {| returned_repo_path := clone_dir;
                     current_java_version := current_version version_info;
                     suggested_java_versions := suggested_versions version_info |})
      end
  end.

(** *** [upgrade_java] (main.py, lines 71-243) *)

(** Lines 99-107 *)
Definition relevant_files (repo_path : string) (fs : FS) : list string :=
  let java_files := find_java_files repo_path (os_walk repo_path fs) in
  let pom_path := OsPath.join repo_path "pom.xml" in
  let gradle_path := OsPath.join repo_path "build.gradle" in
  (java_files
   ++ (if path_exists pom_path fs then [pom_path] else [])
   ++ (if path_exists gradle_path fs then [gradle_path] else []))%list.

(** Lines 116-125: a file that cannot be read is left out. *)
Fixpoint read_files (files : list string) (fs : FS)
    (file_contents : list (string * string)) : list (string * string) :=
  match files with
  | [] => file_contents
  | file_path :: files' =>
      match open_read file_path fs with
      | Ok content =>
          read_files files' fs (PyText.dict_set file_path content file_contents)
      | Raise _ => read_files files' fs file_contents
      end
  end.

Definition upgrade_java (repo_path target_version ollama_model : string) (fs : FS)
    : upgrade_outcome :=
  let untouched (r : http_reply response) :=
    {| disk_after := Some fs; prompt_sent := None; reply := r |} in
  if negb (isdir repo_path fs) then
    untouched (HTTPException 400 ("Invalid repository path: " ++ repo_path))
  else
    match detect_java_version_in repo_path fs with
    | Raise e => untouched (Uncaught e)
    | Ok version_info =>
        let current_version := current_version version_info in
        if String.eqb current_version "Unknown" then
          untouched
            (HTTPException 400
               "Could not detect current Java version. Cannot proceed with upgrade.")
        else if String.eqb current_version target_version then
          untouched
            (Returned
               {| status := "Project is already at target Java version "
                            ++ target_version;
                  details := None |})
        else
          match relevant_files repo_path fs with
          | [] =>
              untouched
                (Returned {| status := "No relevant files found for upgrade.";
                             details := None |})
          | relevant =>
              let file_contents := read_files relevant fs [] in
              let prompt := build_prompt current_version target_version file_contents in
              match ollama_post ollama_model prompt with
              | RequestException message =>
                  {| disk_after := Some fs; prompt_sent := Some prompt;
                     reply :=
                       HTTPException 500
                         ("Error calling Ollama API: " ++ message
                          ++ ". Ensure Ollama is running and accessible at "
                          ++ ollama_api_url ++ " and the model '" ++ ollama_model
                          ++ "' is downloaded.") |}
              | OtherException message =>
                  {| disk_after := Some fs; prompt_sent := Some prompt;
                     reply :=
                       HTTPException 500
                         ("An unexpected error occurred with Ollama response: "
                          ++ message) |}
              | Generated response =>
                  let llm_output :=
                    strip (match response with Some text => text | None => "" end) in
                  match apply_llm_output repo_path fs target_version llm_output with
                  | Ok (st, answer) =>
                      {| disk_after := Some (disk st); prompt_sent := Some prompt;
                         reply := Returned answer |}
                  | Raise e =>
                      {| disk_after := None; prompt_sent := Some prompt;
                         reply := Uncaught e |}
                  end
              end
          end
    end.

End Endpoints.

(** ** The page (app.py) *)

(** What the page puts on the screen. *)
Inductive widget : Type :=
| st_success (text : string)
| st_info (text : string)
| st_warning (text : string)
| st_error (text : string)
| st_write (text : string).

(** Lines 84-101, for a dictionary as [upgrade_java] returns them: one with
the key [status] and, at most, the key [details] holding a list.
['errors' in details] on a list asks for an element equal to ['errors'];
[splitlines] on a list raises [AttributeError], which line 100 catches. *)
Definition show_upgrade_result (upgrade_result : response) : list widget :=
  let keys :=
    "status" :: match details upgrade_result with
                | Some _ => ["details"]
                | None => []
                end in
  let in_details :=
    match details upgrade_result with
    | Some errors => existsb (String.eqb "errors") errors
    | None => contains "errors" ""
    end in
  if in_details then
    [st_warning ("Upgrade Status: " ++ status upgrade_result);
     st_error ("An unexpected error occurred during upgrade: "
               ++ "'list' object has no attribute 'splitlines'")]
  else if existsb (String.eqb "errors") keys then
    st_warning ("Upgrade Status: " ++ status upgrade_result)
    :: match details upgrade_result with
       | Some errors => map st_error errors
       | None => [st_error "An unexpected error occurred during upgrade: 'details'"]
       end
  else [st_success ("Upgrade Status: " ++ status upgrade_result)].

(** The session state (lines 13-18 and 31-33). *)
Record session : Type := {
  session_repo_path : option string;
  session_current_java_version : option string;
  session_suggested_java_versions : list string
}.

(** Lines 31-33 *)
Definition analysed (data : detected) : session :=
  {| session_repo_path := Some (returned_repo_path data);
     session_current_java_version := Some (current_java_version data);
     session_suggested_java_versions := suggested_java_versions data |}.

(** Truth value of an optional string. *)
Definition truthy (s : option string) : bool :=
  match s with
  | Some (String _ _) => true
  | _ => false
  end.

(** Lines 54-62: the target versions the page lets the user pick. *)
Definition offered_targets (s : session) : list string :=
  if truthy (session_repo_path s)
     && negb (match session_current_java_version s with
              | Some v => String.eqb v "Unknown"
              | None => false
              end)
  then session_suggested_java_versions s
  else [].

(** ** Vocabulary of the further properties *)

(** The error the handler of line 218 records, as against the one of line
224. *)
Definition write_failure (message : string) : bool :=
  startswith message "Could not write changes to ".

(** No line boundary of [str.splitlines] in [s]. *)
Fixpoint one_line (s : string) : bool :=
  match s with
  | EmptyString => true
  | String c r => negb (is_linebreak c) && one_line r
  end.

(** No white space in [s]. *)
Fixpoint no_space (s : string) : bool :=
  match s with
  | EmptyString => true
  | String c r => negb (isspace c) && no_space r
  end.

(** The names of a directory tree are names of directory entries: not
empty and without a slash. *)
Fixpoint entry_names (t : tree) : list string :=
  match t with
  | Node dirs files =>
      (files
       ++ (fix below (l : list (string * tree)) :=
             match l with
             | [] => []
             | (name, sub) :: l' => (name :: entry_names sub ++ below l')%list
             end) dirs)%list
  end.

Definition proper_tree (t : tree) : Prop :=
  Forall (fun name => name <> "" /\ no_slash name) (entry_names t).

(** The lines of one section of the prompt's context, as [splitlines]
gives them. *)
Definition echoed_block (file_path : string) (body : list string) : list string :=
  context_label file_path :: fence :: (body ++ [fence; ""])%list.

(** The context of the prompt for files given by their lines. *)
Definition context_of (files : list (string * list string)) : string :=
  context_sections (map (fun f => (fst f, PyStr.join nl (snd f))) files).

(** Each file handed to the write of lines 208-218, in order. *)
Definition write_back {os : FileSystem} (repo_path : string)
    (files : list (string * list string)) (st : apply_state) : apply_state :=
  fold_left (fun st f => save_file st (OsPath.join repo_path (fst f)) (snd f))
            files st.

(** The command [clone_repo] runs for a URL it accepts (utils.py, lines 28
and 57). *)
Definition git_command {os : FileSystem} {host : Service os}
    (git_url clone_dir : string) (fs : FS) : list string :=
  let authenticated_git_url :=
    PyText.replace "https://gitlab.com/"
      ("https://oauth2:" ++ GITLAB_PERSONAL_ACCESS_TOKEN ++ "@gitlab.com/")
      git_url in
  if path_exists clone_dir fs
  then ["git"; "-C"; clone_dir; "pull"; authenticated_git_url]
  else ["git"; "clone"; authenticated_git_url; clone_dir].

(** A block of an answer: the header line, the line that opens the body,
the body, the line that closes it, and the lines up to the next block. *)
Record block : Type := {
  block_header : string;
  block_opening : string;
  block_body : list string;
  block_closing : string;
  block_trailer : list string
}.

Definition block_lines (b : block) : list string :=
  block_header b :: block_opening b
  :: (block_body b ++ block_closing b :: block_trailer b)%list.

(** Each block handed to the write of lines 208-218, in order. *)
Definition write_blocks {os : FileSystem} (repo_path : string)
    (blocks : list block) (st : apply_state) : apply_state :=
  fold_left
    (fun st b =>
       save_file st (OsPath.join repo_path (header_path (block_header b)))
                 (block_body b))
    blocks st.

(** ** A host for the examples

The service on the file system in memory: git, the XML parser and the
model answer as the example says. *)

Module Demo.

Definition present (p : string) (d : MemFS.fs) : bool :=
  match MemFS.abs_names p with
  | [] => true
  | names =>
      match d !! MemFS.path_of names with
      | Some _ => true
      | None => false
      end
  end.

Definition read (p : string) (d : MemFS.fs) : result string :=
  match MemFS.read_text p d with
  | Some content => Ok content
  | None =>
      Raise (OSError ("[Errno 2] No such file or directory: '" ++ p ++ "'"))
  end.

Definition host (git : process) (pom : result ET.element) (files : tree)
    (answer : ollama_reply) : Service MemFS.os :=
  {| isdir := fun p d => MemFS.is_dir d (MemFS.abs_names p);
     path_exists := present;
     subprocess_run := fun _ d => (d, git);
     parse_xml := fun _ _ => pom;
     open_lines := read;
     os_walk := fun _ _ => files;
     open_read := read;
     ollama_post := fun _ _ => answer |}.

(** The working copy of the examples with a pom.xml. *)
Definition working_copy : MemFS.fs :=
  <["/tmp/proj/pom.xml" := MemFS.File "<project/>"]> Example.working_copy.

Definition files : tree := Node [("src", Node [] ["A.java"])] ["pom.xml"].

(** A manifest that sets Java 17. *)
Definition pom : result ET.element := Ok (Example.pom_both "17" "17").

(** An answer with some talk, a block that is written, a block for a
directory and a block that is cut off. *)
Definition mixed_answer : string :=
  Example.lines_to_text
    ["Here are the files."; "";
     "--- File: src/A.java ---"; "```"; "class A { int x; }"; "```";
     "--- File: src ---"; "```"; "class A { }"; "```";
     "--- File: src/B.java ---"; "```"; "class B {"].

(** Git succeeds and the model gives [mixed_answer]. *)
Definition service : Service MemFS.os :=
  host (Completed 0 "" "") pom files (Generated (Some mixed_answer)).

Definition git_url : string := "https://gitlab.com/acme/proj.git".

(** Two files as the prompt shows them. *)
Definition shown : list (string * list string) :=
  [("/tmp/proj/src/A.java", ["class A {"; "}"; ""]);
   ("/tmp/proj/pom.xml", ["<project/>"])].

(** What [clone_and_detect] answers for [git_url]. *)
Definition data : detected :=
  {| returned_repo_path := "/tmp/proj";
     current_java_version := "17";
     suggested_java_versions := ["21"] |}.

(** What [detect_java_version] finds in the working copy. *)
Definition info : version_info :=
  {| current_version := "17"; suggested_versions := ["21"] |}.

(** The errors of [mixed_answer]. *)
Definition mixed_errors : list string :=
  ["Could not write changes to src: [Errno 21] Is a directory: '/tmp/proj/src'";
   "LLM response for B.java was incomplete."].

(** The state [mixed_answer] leaves behind on the working copy of the
examples. *)
Definition mixed_state : apply_state :=
  {| disk := <["/tmp/proj/src/A.java" := MemFS.File "class A { int x; }"]>
               Example.working_copy;
     updated_files_count := 1;
     errors_applying_changes := mixed_errors;
     write_attempts := [("/tmp/proj/src/A.java", "class A { int x; }");
                        ("/tmp/proj/src", "class A { }")] |}.

Definition mixed_response : response :=
  {| status := "Upgrade finished with errors"; details := Some mixed_errors |}.

(** A project with [build] in its name. *)
Definition build_tools_url : string := "https://gitlab.com/acme/build-tools.git".

(** The two complete blocks of [mixed_answer], the first with the talk
before the second. *)
Definition mixed_blocks : list block :=
  [{| block_header := "--- File: src/A.java ---"; block_opening := "```";
      block_body := ["class A { int x; }"]; block_closing := "```";
      block_trailer := ["That was the first file."; ""] |};
   {| block_header := "--- File: src ---"; block_opening := " ```";
      block_body := ["class A { }"]; block_closing := "``` ";
      block_trailer := [] |}].

(** An answer made of [mixed_blocks] and some talk before them. *)
Definition complete_answer : string :=
  Example.lines_to_text
    (["Here are the files."; ""] ++ flat_map block_lines mixed_blocks)%list.

(** What the prompt shows of the working copy. *)
Definition file_contents : list (string * string) :=
  [("/tmp/proj/src/A.java", "class A { }"); ("/tmp/proj/pom.xml", "<project/>")].

(** A build.gradle. *)
Definition gradle_lines : list string :=
  ["plugins { id 'java' }"; "sourceCompatibility"; "  sourceCompatibility = '1.8';"].

(** A block that is written, followed by a header whose path holds a NUL
character: the pass raises at that header, after the write. *)
Definition interrupted_answer : string :=
  Example.lines_to_text
    ["--- File: src/A.java ---"; "```"; "class A { int x; }"; "```";
     Example.nul_answer].

(** The state of the pass on [interrupted_answer] when it comes to the
last line. *)
Definition interrupted_state : apply_state :=
  {| disk := <["/tmp/proj/src/A.java" := MemFS.File "class A { int x; }"]>
               Example.working_copy;
     updated_files_count := 1;
     errors_applying_changes := [];
     write_attempts := [("/tmp/proj/src/A.java", "class A { int x; }")] |}.

(** A file system that resolves paths as [MemFS] does and on which every
directory creation and every write fails: a volume mounted read-only. *)
Definition read_only : FileSystem :=
  {| FS := unit;
     realpath := MemFS.realpath;
     makedirs := fun p d =>
       (d, Some (OSError ("[Errno 30] Read-only file system: '" ++ p ++ "'")));
     write_text := fun p _ d =>
       (d, Some (OSError ("[Errno 30] Read-only file system: '" ++ p ++ "'"))) |}.

End Demo.

(** * Properties *)

(** ** The outer loop *)

Section ScanFacts.

Context {os : FileSystem}.
Variable repo_path : string.

Lemma collect_length (lines : list string) :
  length (snd (collect lines)) <= length lines.
Proof.
  induction lines as [|l rest IH]; simpl; [lia|].
  destruct (is_fence l); simpl; [lia|].
  destruct (collect rest) as [body tail]; simpl in *; lia.
Qed.

Lemma loop_body_length (st : apply_state) (line : string)
    (rest : list string) (st' : apply_state) (rest' : list string) :
  loop_body repo_path st line rest = Ok (st', rest') ->
  length rest' <= length rest.
Proof.
  unfold loop_body.
  destruct (is_file_header line); [|intros [= _ <-]; lia].
  destruct (path_check _) as [safe|e]; simpl; [|discriminate].
  destruct safe; simpl; [|intros [= _ <-]; lia].
  destruct rest as [|opening after_opening]; [intros [= _ <-]; simpl; lia|].
  destruct (is_fence opening); [|intros [= _ <-]; lia].
  pose proof (collect_length after_opening) as Hlen.
  destruct (collect after_opening) as [body tail]; simpl in Hlen.
  destruct tail as [|closing after_closing]; intros [= _ <-]; simpl in *; lia.
Qed.

Lemma scan_nil (st : apply_state) : scan repo_path st [] = Ok st.
Proof. now simp scan. Qed.

Lemma scan_cons (st : apply_state) (line : string) (rest : list string) :
  scan repo_path st (line :: rest)
  = match loop_body repo_path st line rest with
    | Ok (st', rest') => scan repo_path st' rest'
    | Raise e => Raise e
    end.
Proof.
  simp scan.
  enough (Hgen : forall s : {y | loop_body repo_path st line rest = y},
             scan_unfold_clause_2 repo_path st line rest s
             = match proj1_sig s with
               | Ok (st', rest') => scan repo_path st' rest'
               | Raise e => Raise e
               end) by apply Hgen.
  intros [[[st' rest']|e] Heq]; reflexivity.
Qed.

End ScanFacts.

(** ** Strings *)

#[local] Arguments String.append !s1 s2 : simpl nomatch.

Lemma append_nil_r (s : string) : s ++ "" = s.
Proof. induction s as [|c s IH]; simpl; [reflexivity | now rewrite IH]. Qed.

Lemma append_assoc (a b c : string) : (a ++ b) ++ c = a ++ (b ++ c).
Proof. induction a as [|x a IH]; simpl; [reflexivity | now rewrite IH]. Qed.

Lemma length_append (a b : string) :
  String.length (a ++ b) = String.length a + String.length b.
Proof. induction a as [|x a IH]; simpl; [reflexivity | now rewrite IH]. Qed.

Lemma prefix_append (a b : string) : String.prefix a (a ++ b) = true.
Proof.
  induction a as [|x a IH]; simpl.
  - now destruct b.
  - destruct (ascii_dec x x) as [_|Hne]; [exact IH | now elim Hne].
Qed.

Lemma prefix_split (a b : string) :
  String.prefix a b = true -> exists s, b = a ++ s.
Proof.
  revert b; induction a as [|x a IH]; intros b H.
  - now exists b.
  - destruct b as [|y b]; simpl in H; [discriminate|].
    destruct (ascii_dec x y) as [->|_]; [|discriminate].
    destruct (IH b H) as [s ->]. now exists s.
Qed.

(** ** Path components *)

Lemma no_slash_cons (c : ascii) (x : string) :
  no_slash (String c x) <-> Ascii.eqb c "/" = false /\ no_slash x.
Proof.
  unfold no_slash.
  change (mem_char "/" (String c x)) with (Ascii.eqb "/" c || mem_char "/" x).
  rewrite (Ascii.eqb_sym "/" c), orb_false_iff. reflexivity.
Qed.

Lemma split_cons (c : ascii) (s : string) :
  split "/" (String c s)
  = if Ascii.eqb c "/" then "" :: split "/" s
    else match split "/" s with
         | h :: t => String c h :: t
         | [] => [String c ""]
         end.
Proof. reflexivity. Qed.

Lemma split_not_nil (s : string) : split "/" s <> [].
Proof.
  destruct s as [|c s]; [discriminate|].
  rewrite split_cons.
  destruct (Ascii.eqb c "/"); [discriminate|].
  destruct (split "/" s); discriminate.
Qed.

Lemma split_no_slash (s : string) : Forall no_slash (split "/" s).
Proof.
  induction s as [|c s IH].
  - now repeat constructor.
  - rewrite split_cons.
    destruct (Ascii.eqb c "/") eqn:Hc.
    + constructor; [reflexivity | exact IH].
    + destruct (split "/" s) as [|h t].
      * constructor; [|constructor]. now apply no_slash_cons.
      * inversion IH as [|? ? Hh Ht]; subst.
        constructor; [|exact Ht]. now apply no_slash_cons.
Qed.

Lemma split_one (x : string) : no_slash x -> split "/" x = [x].
Proof.
  induction x as [|c x IH]; [reflexivity|].
  intros [Hc Hx]%no_slash_cons.
  now rewrite split_cons, Hc, (IH Hx).
Qed.

Lemma split_append_sep (a b : string) :
  split "/" (a ++ "/" ++ b) = (split "/" a ++ split "/" b)%list.
Proof.
  induction a as [|c a IH]; [reflexivity|].
  change (String c a ++ "/" ++ b) with (String c (a ++ "/" ++ b)).
  rewrite !split_cons, IH.
  destruct (Ascii.eqb c "/"); [reflexivity|].
  pose proof (split_not_nil a) as Hne.
  destruct (split "/" a) as [|h t]; [now elim Hne | reflexivity].
Qed.

Lemma components_append_sep (a b : string) :
  OsPath.components (a ++ "/" ++ b)
  = (OsPath.components a ++ OsPath.components b)%list.
Proof.
  unfold OsPath.components. rewrite split_append_sep. apply List.filter_app.
Qed.

Lemma components_good (p : string) : Forall good_name (OsPath.components p).
Proof.
  unfold OsPath.components.
  pose proof (split_no_slash p) as H.
  induction H as [|x l Hx Hl IH]; simpl; [constructor|].
  destruct (String.eqb_spec x ""); simpl; [exact IH|].
  destruct (String.eqb_spec x "."); simpl; [exact IH|].
  constructor; [now repeat split | exact IH].
Qed.

Lemma components_one (x : string) : good_name x -> OsPath.components x = [x].
Proof.
  intros (Hne & Hdot & Hns). unfold OsPath.components.
  rewrite (split_one x Hns). simpl.
  destruct (String.eqb_spec x ""); [contradiction|].
  destruct (String.eqb_spec x "."); [contradiction|]. reflexivity.
Qed.

Lemma components_join (l : list string) :
  Forall good_name l -> OsPath.components (PyStr.join "/" l) = l.
Proof.
  induction 1 as [|x l Hx Hl IH]; [reflexivity|].
  destruct l as [|y r].
  - simpl. now apply components_one.
  - change (PyStr.join "/" (x :: y :: r)) with (x ++ "/" ++ PyStr.join "/" (y :: r)).
    rewrite components_append_sep, IH, (components_one x Hx). reflexivity.
Qed.

Lemma components_root_join (l : list string) :
  Forall good_name l -> OsPath.components ("/" ++ PyStr.join "/" l) = l.
Proof.
  intros H.
  change ("/" ++ PyStr.join "/" l) with ("" ++ "/" ++ PyStr.join "/" l).
  rewrite components_append_sep. simpl. now apply components_join.
Qed.

Lemma join_append (l1 l2 : list string) :
  l1 <> [] -> l2 <> [] ->
  PyStr.join "/" (l1 ++ l2) = PyStr.join "/" l1 ++ "/" ++ PyStr.join "/" l2.
Proof.
  intros H1 H2. induction l1 as [|x l1 IH]; [now elim H1|].
  destruct l1 as [|y r].
  - destruct l2 as [|z l2]; [now elim H2 | reflexivity].
  - change (PyStr.join "/" ((x :: y :: r) ++ l2))
      with (x ++ "/" ++ PyStr.join "/" ((y :: r) ++ l2)).
    rewrite IH by discriminate.
    change (PyStr.join "/" (x :: y :: r)) with (x ++ "/" ++ PyStr.join "/" (y :: r)).
    now rewrite !append_assoc.
Qed.

(** ** [commonpath] of two absolute paths *)

Lemma common_prefix_sym (a b : list string) :
  common_prefix a b = common_prefix b a.
Proof.
  revert b; induction a as [|x a IH]; intros [|y b]; simpl; try reflexivity.
  rewrite String.eqb_sym.
  destruct (String.eqb_spec y x) as [->|]; [now rewrite IH | reflexivity].
Qed.

Lemma common_prefix_same (a : list string) : common_prefix a a = a.
Proof.
  induction a as [|x a IH]; simpl; [reflexivity|].
  now rewrite String.eqb_refl, IH.
Qed.

Lemma common_prefix_full (a b : list string) :
  common_prefix a b = a <-> exists t, b = (a ++ t)%list.
Proof.
  split.
  - revert b; induction a as [|x a IH]; intros b H; [now exists b|].
    destruct b as [|y b]; simpl in H; [discriminate|].
    destruct (String.eqb_spec x y) as [->|]; [|discriminate].
    injection H as H. destruct (IH b H) as [t ->]. now exists t.
  - intros [t ->]. induction a as [|x a IH]; simpl; [reflexivity|].
    now rewrite String.eqb_refl, IH.
Qed.

Lemma common_prefix_good (a b : list string) :
  Forall good_name a -> Forall good_name (common_prefix a b).
Proof.
  intros H; revert b; induction H as [|x a Hx Ha IH]; intros [|y b]; simpl;
    try constructor.
  destruct (String.eqb x y); constructor; [exact Hx | apply IH].
Qed.

Lemma string_compare_refl (x : string) : String.compare x x = Eq.
Proof.
  pose proof (String.compare_antisym x x) as H.
  destruct (String.compare x x); simpl in H; congruence.
Qed.

Lemma list_compare_refl (a : list string) : OsPath.list_compare a a = Eq.
Proof.
  induction a as [|x a IH]; simpl; [reflexivity|].
  now rewrite string_compare_refl.
Qed.

Lemma list_compare_eq (a b : list string) :
  OsPath.list_compare a b = Eq -> a = b.
Proof.
  revert b; induction a as [|x a IH]; intros [|y b] H; simpl in H;
    try discriminate; [reflexivity|].
  destruct (String.compare x y) eqn:Hxy; try discriminate.
  apply String.compare_eq_iff in Hxy as ->. f_equal. now apply IH.
Qed.

Lemma list_compare_antisym (a b : list string) :
  OsPath.list_compare a b = CompOpp (OsPath.list_compare b a).
Proof.
  revert b; induction a as [|x a IH]; intros [|y b]; simpl; try reflexivity.
  rewrite (String.compare_antisym y x).
  destruct (String.compare x y); simpl; auto.
Qed.

(** With [s1 <= s2] the loop never reads past the end of [s2]. *)
Lemma common_loop_ordered (s1 s2 : list string) :
  OsPath.list_compare s1 s2 <> Gt ->
  OsPath.common_loop s1 s2 = Ok (common_prefix s1 s2).
Proof.
  revert s2; induction s1 as [|c s1 IH]; intros s2 H; [reflexivity|].
  destruct s2 as [|d s2]; simpl in *; [congruence|].
  destruct (String.eqb_spec c d) as [->|Hne].
  - rewrite string_compare_refl in H. now rewrite (IH s2 H).
  - reflexivity.
Qed.

Lemma commonpath_pair (r a : string) :
  OsPath.isabs r = true -> OsPath.isabs a = true ->
  OsPath.commonpath [r; a]
  = Ok ("/" ++ PyStr.join "/"
                 (common_prefix (OsPath.components r) (OsPath.components a))).
Proof.
  intros Hr Ha. unfold OsPath.commonpath.
  simpl forallb. rewrite Hr, Ha. simpl.
  unfold OsPath.py_min, OsPath.py_max, OsPath.list_lt; simpl.
  set (cr := OsPath.components r). set (ca := OsPath.components a).
  pose proof (list_compare_antisym ca cr) as Hanti.
  destruct (OsPath.list_compare cr ca) eqn:Hcmp; simpl in Hanti; rewrite Hanti.
  - rewrite common_loop_ordered by (rewrite list_compare_refl; discriminate).
    simpl. now rewrite (list_compare_eq _ _ Hcmp) at 2.
  - rewrite common_loop_ordered by (rewrite Hcmp; discriminate). reflexivity.
  - rewrite common_loop_ordered by (rewrite Hanti; discriminate).
    simpl. now rewrite common_prefix_sym.
Qed.

Lemma canonical_isabs (p : string) : canonical p -> OsPath.isabs p = true.
Proof.
  intros H. unfold OsPath.isabs, startswith. rewrite H. apply prefix_append.
Qed.

Lemma join_canonical_inj (l1 l2 : list string) :
  Forall good_name l1 -> Forall good_name l2 ->
  "/" ++ PyStr.join "/" l1 = "/" ++ PyStr.join "/" l2 -> l1 = l2.
Proof.
  intros H1 H2 Heq.
  rewrite <- (components_root_join l1 H1), <- (components_root_join l2 H2).
  now rewrite Heq.
Qed.

(** The comparison of line 191 on canonical paths is containment. *)
Lemma commonpath_is_root (r a : string) :
  canonical r -> canonical a ->
  (exists c, OsPath.commonpath [r; a] = Ok c /\ String.eqb c r = true)
  <-> exists t, OsPath.components a = (OsPath.components r ++ t)%list.
Proof.
  intros Hr Ha.
  rewrite (commonpath_pair r a (canonical_isabs r Hr) (canonical_isabs a Ha)).
  split.
  - intros (c & [= <-] & Heq%String.eqb_eq).
    apply common_prefix_full.
    pose proof (eq_trans Heq Hr) as H.
    apply join_canonical_inj in H;
      [exact H | apply common_prefix_good, components_good | apply components_good].
  - intros Heq%common_prefix_full. eexists; split; [reflexivity|].
    rewrite Heq. apply String.eqb_eq. symmetry. exact Hr.
Qed.

Lemma inside_components (r a : string) :
  canonical r -> canonical a ->
  inside r a <-> exists t, OsPath.components a = (OsPath.components r ++ t)%list.
Proof.
  intros Hr Ha. split.
  - intros [-> | [Hpre | [-> Habs]]].
    + exists []. now rewrite app_nil_r.
    + apply prefix_split in Hpre as [s ->].
      rewrite append_assoc, components_append_sep. now eexists.
    + now exists (OsPath.components a).
  - intros [t Ht]. unfold inside.
    destruct t as [|n t].
    + left. rewrite app_nil_r in Ht. unfold canonical in Ha, Hr.
      rewrite Ht in Ha. now rewrite Ha, <- Hr.
    + unfold canonical in Ha, Hr.
      destruct (OsPath.components r) as [|m rs] eqn:Hcr.
      * right; right. split; [exact Hr | now apply canonical_isabs].
      * right; left. rewrite Ha, Ht, join_append by discriminate.
        rewrite Hr, <- !append_assoc.
        apply prefix_append.
Qed.

(** ** The inner loop *)

Lemma collect_spec (lines : list string) :
  lines = (fst (collect lines) ++ snd (collect lines))%list
  /\ Forall (fun l => is_fence l = false) (fst (collect lines))
  /\ match snd (collect lines) with
     | [] => True
     | closing :: _ => is_fence closing = true
     end.
Proof.
  induction lines as [|l rest (Happ & Hbody & Htail)]; simpl.
  - repeat split. constructor.
  - destruct (is_fence l) eqn:Hl; simpl.
    + repeat split; [constructor | exact Hl].
    + destruct (collect rest) as [body tail]; simpl in *.
      repeat split; [now f_equal | now constructor | exact Htail].
Qed.

Lemma collect_closed (body : list string) (closing : string) (after : list string) :
  Forall (fun l => is_fence l = false) body ->
  is_fence closing = true ->
  collect (body ++ closing :: after) = (body, closing :: after).
Proof.
  intros Hbody Hclosing. induction Hbody as [|l body Hl _ IH]; simpl.
  - now rewrite Hclosing.
  - now rewrite Hl, IH.
Qed.

Lemma collect_open (body : list string) :
  Forall (fun l => is_fence l = false) body -> collect body = (body, []).
Proof.
  induction 1 as [|l body Hl _ IH]; simpl; [reflexivity|].
  now rewrite Hl, IH.
Qed.

(** ** One iteration of the outer loop *)

Section Extractor.

Context {os : FileSystem}.
Variable repo_path : string.

(** The check of line 191 keeps exactly the paths inside the root. *)
Lemma path_check_inside (abs_file_path root_real file_real : string) :
  realpath repo_path = Ok root_real ->
  realpath abs_file_path = Ok file_real ->
  canonical root_real -> canonical file_real ->
  exists kept, path_check repo_path abs_file_path = Ok kept
               /\ (kept = true <-> inside root_real file_real).
Proof.
  intros Hroot Hfile Hr Ha. unfold path_check.
  rewrite Hroot, Hfile. cbv beta iota delta [bind].
  rewrite (commonpath_pair _ _ (canonical_isabs _ Hr) (canonical_isabs _ Ha)).
  eexists; split; [reflexivity|].
  rewrite (inside_components _ _ Hr Ha), <- (commonpath_is_root _ _ Hr Ha).
  rewrite (commonpath_pair _ _ (canonical_isabs _ Hr) (canonical_isabs _ Ha)).
  split.
  - intros H. eexists; split; [reflexivity | exact H].
  - now intros (c & [= <-] & H).
Qed.

Lemma loop_body_plain (st : apply_state) (line : string) (rest : list string) :
  is_file_header line = false -> loop_body repo_path st line rest = Ok (st, rest).
Proof. intros H. unfold loop_body. now rewrite H. Qed.

Lemma loop_body_unsafe (st : apply_state) (line : string) (rest : list string) :
  is_file_header line = true ->
  path_check repo_path (OsPath.join repo_path (header_path line)) = Ok false ->
  loop_body repo_path st line rest = Ok (st, rest).
Proof. intros H Hc. unfold loop_body. now rewrite H, Hc. Qed.

Lemma loop_body_safe (st : apply_state) (line : string) (rest : list string) :
  is_file_header line = true ->
  path_check repo_path (OsPath.join repo_path (header_path line)) = Ok true ->
  loop_body repo_path st line rest
  = Ok match rest with
       | opening :: after_opening =>
           if is_fence opening then
             match collect after_opening with
             | (file_content_lines, _ :: after_closing) =>
                 (save_file st (OsPath.join repo_path (header_path line))
                            file_content_lines, after_closing)
             | (_, []) => (incomplete st (header_path line), [])
             end
           else (st, rest)
       | [] => (st, [])
       end.
Proof.
  intros H Hc. unfold loop_body. rewrite H, Hc. simpl.
  destruct rest as [|opening after_opening]; [reflexivity|].
  destruct (is_fence opening); [|reflexivity].
  destruct (collect after_opening) as [body [|closing after_closing]]; reflexivity.
Qed.

Lemma reaches_scan (st st' : apply_state) (lines lines' : list string) :
  reaches repo_path st lines st' lines' ->
  scan repo_path st lines = scan repo_path st' lines'.
Proof.
  induction 1 as [|st line rest st1 rest1 st2 rest2 Hstep _ IH]; [reflexivity|].
  now rewrite scan_cons, Hstep.
Qed.

Lemma reaches_trans (st1 st2 st3 : apply_state) (l1 l2 l3 : list string) :
  reaches repo_path st1 l1 st2 l2 -> reaches repo_path st2 l2 st3 l3 ->
  reaches repo_path st1 l1 st3 l3.
Proof.
  induction 1; [auto|]. intros. eapply reaches_next; eauto.
Qed.

Lemma scan_plain (st : apply_state) (lines : list string) :
  Forall (fun line => is_file_header line = false) lines ->
  scan repo_path st lines = Ok st.
Proof.
  induction 1 as [|line rest Hline _ IH].
  - apply scan_nil.
  - now rewrite scan_cons, loop_body_plain.
Qed.

End Extractor.

(** ** Header and fence lines *)

Lemma substring_skip (a b : string) (n m : nat) :
  substring (String.length a + n) m (a ++ b) = substring n m b.
Proof. induction a as [|c a IH]; simpl; [reflexivity | exact IH]. Qed.

Lemma substring_prefix (a b : string) :
  substring 0 (String.length a) (a ++ b) = a.
Proof.
  induction a as [|c a IH]; simpl.
  - now destruct b.
  - now rewrite IH.
Qed.

Lemma substring_whole (a : string) : substring 0 (String.length a) a = a.
Proof. rewrite <- (append_nil_r a) at 2. apply substring_prefix. Qed.

Lemma endswith_append (a b : string) : endswith (a ++ b) b = true.
Proof.
  unfold endswith. rewrite length_append.
  replace (String.length a + String.length b - String.length b)
    with (String.length a + 0) by lia.
  rewrite substring_skip, substring_whole, String.eqb_refl.
  rewrite andb_true_r. apply Nat.leb_le. lia.
Qed.

(** The label of the prompt is a header line, and the path read back from
it is the labelled path without surrounding white space. *)
Lemma context_label_header (file_path : string) :
  is_file_header (context_label file_path) = true
  /\ header_path (context_label file_path) = strip file_path.
Proof.
  unfold is_file_header, header_path, context_label. split.
  - apply andb_true_iff. split.
    + apply prefix_append.
    + rewrite <- append_assoc. apply endswith_append.
  - unfold slice_between. rewrite !length_append.
    replace (String.length header_prefix
             + (String.length file_path + String.length header_suffix)
             - String.length header_suffix - String.length header_prefix)
      with (String.length file_path) by lia.
    rewrite <- (Nat.add_0_r (String.length header_prefix)).
    now rewrite substring_skip, substring_prefix.
Qed.

(** A line that opens an answer block in the format the prompt asks for
is not a header line. *)
Lemma answer_opening_not_header (path : string) :
  is_file_header (fence ++ path) = false.
Proof. reflexivity. Qed.

Lemma lstrip_blank_append (before s : string) :
  blank before = true ->
  lstrip_by isspace (before ++ s) = lstrip_by isspace s.
Proof.
  induction before as [|c before IH]; simpl; [reflexivity|].
  intros [Hc Hb]%andb_true_iff. now rewrite Hc, IH.
Qed.

Lemma rstrip_blank (after : string) :
  blank after = true -> rstrip_by isspace after = "".
Proof.
  induction after as [|c after IH]; simpl; [reflexivity|].
  intros [Hc Hb]%andb_true_iff. now rewrite (IH Hb), Hc.
Qed.

Lemma lstrip_split (s : string) :
  exists before, blank before = true /\ s = before ++ lstrip_by isspace s.
Proof.
  induction s as [|c s (before & Hb & Hs)]; simpl.
  - now exists "".
  - destruct (isspace c) eqn:Hc.
    + exists (String c before). simpl. rewrite Hc, Hb. split; [reflexivity|].
      now rewrite <- Hs.
    + now exists "".
Qed.

Lemma rstrip_split (s : string) :
  exists after, blank after = true /\ s = rstrip_by isspace s ++ after.
Proof.
  induction s as [|c s (after & Ha & Hs)]; simpl.
  - now exists "".
  - destruct (rstrip_by isspace s) as [|d r] eqn:Hr.
    + destruct (isspace c) eqn:Hc.
      * exists (String c after). simpl. rewrite Hc, Ha. split; [reflexivity|].
        simpl in Hs. now rewrite <- Hs.
      * exists after. split; [exact Ha|]. simpl. now rewrite Hs at 1.
    + exists after. split; [exact Ha|]. simpl. now rewrite Hs at 1.
Qed.

(** The test of lines 197, 201 and 206 holds exactly of the fence lines. *)
Lemma is_fence_iff (line : string) : is_fence line = true <-> fence_line line.
Proof.
  unfold is_fence, fence_line, strip. rewrite String.eqb_eq. split.
  - intros H.
    destruct (lstrip_split line) as (before & Hb & Hline).
    destruct (rstrip_split (lstrip_by isspace line)) as (after & Ha & Hrest).
    exists before, after. repeat split; [exact Hb | exact Ha |].
    rewrite H in Hrest. now rewrite Hrest in Hline.
  - intros (before & after & Hb & Ha & ->).
    rewrite (lstrip_blank_append _ _ Hb). unfold fence. simpl.
    now rewrite (rstrip_blank _ Ha).
Qed.

(** ** The extraction-and-apply pass *)

Section Claims.

Context {os : FileSystem}.
Variable repo_path : string.

Lemma not_fence_line (body : list string) :
  Forall (fun l => ~ fence_line l) body ->
  Forall (fun l => is_fence l = false) body.
Proof.
  apply List.Forall_impl. intros l H.
  destruct (is_fence l) eqn:Hl; [|reflexivity]. now apply is_fence_iff in Hl.
Qed.

(** C1. A header whose path, made canonical, is not inside the canonical
root is skipped: the iteration of the loop that reads it leaves the disk,
the counter, the error list and the write attempts as they are and moves
the cursor to the next line; this holds wherever in a completion text the
pass comes upon such a header. *)
Theorem unsafe_header_is_skipped
    (fs : FS) (llm_output : string) (st : apply_state) (line : string)
    (rest : list string) (root_real file_real : string) :
  reaches repo_path (initial fs) (splitlines llm_output) st (line :: rest) ->
  is_file_header line = true ->
  realpath repo_path = Ok root_real ->
  realpath (OsPath.join repo_path (header_path line)) = Ok file_real ->
  canonical root_real -> canonical file_real ->
  ~ inside root_real file_real ->
  loop_body repo_path st line rest = Ok (st, rest)
  /\ scan repo_path (initial fs) (splitlines llm_output) = scan repo_path st rest.
Proof.
  intros Hreach Hheader Hroot Hfile Hr Ha Hout.
  destruct (path_check_inside repo_path _ _ _ Hroot Hfile Hr Ha)
    as (kept & Hcheck & Hkept).
  assert (kept = false) as ->
    by (destruct kept; [now elim Hout; apply Hkept | reflexivity]).
  pose proof (loop_body_unsafe repo_path st line rest Hheader Hcheck) as Hstep.
  split; [exact Hstep|].
  rewrite (reaches_scan repo_path _ _ _ _ Hreach), scan_cons. now rewrite Hstep.
Qed.

(** Every write the pass attempts is for a path inside the root. *)
Lemma attempts_stay_inside (root_real : string) :
  realpath repo_path = Ok root_real ->
  canonical root_real ->
  (forall p r, realpath p = Ok r -> canonical r) ->
  forall (lines : list string) (st st' : apply_state),
    Forall (fun a => exists file_real,
                realpath (fst a) = Ok file_real /\ inside root_real file_real)
           (write_attempts st) ->
    scan repo_path st lines = Ok st' ->
    Forall (fun a => exists file_real,
                realpath (fst a) = Ok file_real /\ inside root_real file_real)
           (write_attempts st').
Proof.
  intros Hroot Hr Hcanon lines.
  induction lines as [lines IH] using (induction_ltof1 _ (@length string)).
  intros st st' Hst. destruct lines as [|line rest].
  - rewrite scan_nil. now intros [= <-].
  - rewrite scan_cons.
    destruct (loop_body repo_path st line rest) as [[st1 rest1]|e] eqn:Hstep;
      [|discriminate].
    apply IH.
    + unfold ltof. apply loop_body_length in Hstep. simpl. lia.
    + revert Hstep. unfold loop_body.
      destruct (is_file_header line); [|now intros [= <- _]].
      destruct (path_check repo_path _) as [kept|e] eqn:Hcheck;
        [|discriminate].
      cbv beta iota delta [bind].
      destruct kept; simpl negb; cbv iota; [|now intros [= <- _]].
      destruct rest as [|opening after]; [now intros [= <- _]|].
      destruct (is_fence opening); [|now intros [= <- _]].
      destruct (collect after) as [body [|closing after_closing]];
        intros [= <- _]; [exact Hst|].
      set (attempt := (OsPath.join repo_path (header_path line), PyStr.join nl body)).
      assert (Forall (fun a => exists file_real,
                realpath (fst a) = Ok file_real /\ inside root_real file_real)
                (write_attempts st ++ [attempt])%list)
        as Hall.
      { apply Forall_app. split; [exact Hst|]. constructor; [|constructor].
        simpl. revert Hcheck. unfold path_check. rewrite Hroot.
        cbv beta iota delta [bind].
        destruct (realpath (OsPath.join repo_path (header_path line)))
          as [file_real|e] eqn:Hfile; [|discriminate].
        intros Hcheck. exists file_real. split; [reflexivity|].
        destruct (path_check_inside repo_path _ _ _ Hroot Hfile Hr
                    (Hcanon _ _ Hfile)) as (kept & Hk & Hiff).
        unfold path_check in Hk. rewrite Hroot, Hfile in Hk.
        cbv beta iota delta [bind] in Hk.
        rewrite Hcheck in Hk. injection Hk as <-. now apply Hiff. }
      unfold save_file.
      destruct (makedirs _ _) as [d1 [e|]]; [exact Hall|].
      destruct (write_text _ _ _) as [d2 [e|]]; exact Hall.
Qed.

(** An answer in the format the prompt asks for has no header line, unless
the new content of a file has one. *)
Lemma answer_lines_no_header (blocks : list (string * list string)) :
  Forall (fun block => Forall (fun l => is_file_header l = false) (snd block)) blocks ->
  Forall (fun line => is_file_header line = false) (answer_lines blocks).
Proof.
  induction 1 as [|[path body] blocks Hbody _ IH]; [constructor|].
  unfold answer_lines; simpl. constructor; [reflexivity|].
  rewrite <- app_assoc. apply Forall_app. split; [exact Hbody|].
  constructor; [reflexivity | exact IH].
Qed.

(** C2. When no line of the completion text is a header line, the pass
writes nothing and reports zero files and no error. This is so in
particular for an answer in the format the prompt asks for (fence and
path, content, fence) whose content lines are not header lines. *)
Theorem unlabelled_answer_writes_nothing
    (fs : FS) (target_version llm_output : string) :
  Forall (fun line => is_file_header line = false) (splitlines llm_output)
  \/ (exists blocks,
        splitlines llm_output = answer_lines blocks
        /\ Forall (fun block =>
                     Forall (fun l => is_file_header l = false) (snd block))
                  blocks) ->
  apply_llm_output repo_path fs target_version llm_output
  = Ok ({| disk := fs; updated_files_count := 0;
           errors_applying_changes := []; write_attempts := [] |},
        {| status := "Successfully upgraded 0 files to Java " ++ target_version;
           details := None |}).
Proof.
  intros H.
  assert (Hplain : Forall (fun line => is_file_header line = false)
                          (splitlines llm_output)).
  { destruct H as [H | (blocks & -> & H)];
      [exact H | now apply answer_lines_no_header]. }
  unfold apply_llm_output.
  now rewrite (scan_plain repo_path _ _ Hplain).
Qed.

(** What [save_file] leaves behind when nothing raises, and when the
directory creation or the write raises. *)
Lemma save_file_written (st : apply_state) (abs_file_path : string)
    (body : list string) (fs1 fs2 : FS) :
  makedirs (OsPath.dirname abs_file_path) (disk st) = (fs1, None) ->
  write_text abs_file_path (PyStr.join nl body) fs1 = (fs2, None) ->
  save_file st abs_file_path body
  = {| disk := fs2;
       updated_files_count := updated_files_count st + 1;
       errors_applying_changes := errors_applying_changes st;
       write_attempts :=
         (write_attempts st ++ [(abs_file_path, PyStr.join nl body)])%list |}.
Proof. intros H1 H2. unfold save_file. now rewrite H1, H2. Qed.

Lemma save_file_failed (st : apply_state) (abs_file_path : string)
    (body : list string) (fs' : FS) (e : exn) :
  makedirs (OsPath.dirname abs_file_path) (disk st) = (fs', Some e)
  \/ (exists fs1,
        makedirs (OsPath.dirname abs_file_path) (disk st) = (fs1, None)
        /\ write_text abs_file_path (PyStr.join nl body) fs1 = (fs', Some e)) ->
  save_file st abs_file_path body
  = {| disk := fs';
       updated_files_count := updated_files_count st;
       errors_applying_changes :=
         (errors_applying_changes st
          ++ [String.append "Could not write changes to "
                (String.append (OsPath.basename abs_file_path)
                   (String.append ": " (exn_str e)))])%list;
       write_attempts :=
         (write_attempts st ++ [(abs_file_path, PyStr.join nl body)])%list |}.
Proof.
  unfold save_file. intros [H1 | (fs1 & H1 & H2)].
  - now rewrite H1.
  - now rewrite H1, H2.
Qed.

(** A complete block under a header that passed the check of line 191. *)
Lemma loop_body_block (st : apply_state) (line opening closing : string)
    (body after : list string) :
  is_file_header line = true ->
  path_check repo_path (OsPath.join repo_path (header_path line)) = Ok true ->
  fence_line opening ->
  Forall (fun l => ~ fence_line l) body ->
  fence_line closing ->
  loop_body repo_path st line (opening :: body ++ closing :: after)
  = Ok (save_file st (OsPath.join repo_path (header_path line)) body, after).
Proof.
  intros Hheader Hcheck Hopen%is_fence_iff Hbody%not_fence_line Hclose%is_fence_iff.
  rewrite (loop_body_safe repo_path _ _ _ Hheader Hcheck).
  now rewrite Hopen, (collect_closed _ _ _ Hbody Hclose).
Qed.

(** C3, as the code has it. A completion text that is one block (a header
whose path is inside the root, a fence line, body lines none of which is a
fence line, a fence line) makes the pass create the parent directory and
write the body lines, joined by newlines, to the joined path. When neither
call raises, one file is counted and no error is reported; when one of
them raises, no file is counted and one error naming the file is
reported. A fence line is the marker with optional white space around
it. *)
Theorem single_block_is_written
    (fs : FS) (target_version llm_output : string)
    (header opening closing : string) (body : list string)
    (root_real file_real : string) :
  let abs_file_path := OsPath.join repo_path (header_path header) in
  let full_content := PyStr.join nl body in
  splitlines llm_output = (header :: opening :: body ++ [closing])%list ->
  is_file_header header = true ->
  realpath repo_path = Ok root_real ->
  realpath abs_file_path = Ok file_real ->
  canonical root_real -> canonical file_real ->
  inside root_real file_real ->
  fence_line opening ->
  Forall (fun l => ~ fence_line l) body ->
  fence_line closing ->
  (forall fs1 fs2,
      makedirs (OsPath.dirname abs_file_path) fs = (fs1, None) ->
      write_text abs_file_path full_content fs1 = (fs2, None) ->
      apply_llm_output repo_path fs target_version llm_output
      = Ok ({| disk := fs2; updated_files_count := 1;
               errors_applying_changes := [];
               write_attempts := [(abs_file_path, full_content)] |},
            {| status := "Successfully upgraded 1 files to Java " ++ target_version;
               details := None |}))
  /\ (forall fs' e,
        makedirs (OsPath.dirname abs_file_path) fs = (fs', Some e)
        \/ (exists fs1,
              makedirs (OsPath.dirname abs_file_path) fs = (fs1, None)
              /\ write_text abs_file_path full_content fs1 = (fs', Some e)) ->
        let message := "Could not write changes to "
                       ++ OsPath.basename abs_file_path ++ ": " ++ exn_str e in
        apply_llm_output repo_path fs target_version llm_output
        = Ok ({| disk := fs'; updated_files_count := 0;
                 errors_applying_changes := [message];
                 write_attempts := [(abs_file_path, full_content)] |},
              {| status := "Upgrade finished with errors";
                 details := Some [message] |})).
Proof.
  intros abs_file_path full_content Hlines Hheader Hroot Hfile Hr Ha Hin
         Hopen Hbody Hclose.
  destruct (path_check_inside repo_path _ _ _ Hroot Hfile Hr Ha)
    as (kept & Hcheck & Hkept).
  apply Hkept in Hin. subst kept.
  assert (Hscan : scan repo_path (initial fs) (splitlines llm_output)
                  = Ok (save_file (initial fs) abs_file_path body)).
  { rewrite Hlines, scan_cons.
    rewrite (loop_body_block _ _ _ _ _ [] Hheader Hcheck Hopen Hbody Hclose).
    apply scan_nil. }
  unfold apply_llm_output. rewrite Hscan. split.
  - intros fs1 fs2 H1 H2.
    now rewrite (save_file_written (initial fs) _ _ _ _ H1 H2).
  - intros fs' e H.
    now rewrite (save_file_failed (initial fs) _ _ _ _ H).
Qed.

(** C4. When the pass comes upon a block with a valid header and an opening
fence line and no fence line follows before the end of the text, it
writes nothing, leaves the counter as it is, appends one error that names
the file, and ends with the cursor at the end of the text. *)
Theorem truncated_block_is_reported
    (fs : FS) (target_version llm_output : string) (st : apply_state)
    (header opening : string) (body : list string) :
  reaches repo_path (initial fs) (splitlines llm_output) st (header :: opening :: body) ->
  is_file_header header = true ->
  path_check repo_path (OsPath.join repo_path (header_path header)) = Ok true ->
  fence_line opening ->
  Forall (fun l => ~ fence_line l) body ->
  exists st' : apply_state,
    loop_body repo_path st header (opening :: body) = Ok (st', [])
    /\ disk st' = disk st
    /\ updated_files_count st' = updated_files_count st
    /\ write_attempts st' = write_attempts st
    /\ errors_applying_changes st'
       = (errors_applying_changes st
          ++ [String.append "LLM response for "
                (String.append (OsPath.basename (header_path header))
                               " was incomplete.")])%list
    /\ apply_llm_output repo_path fs target_version llm_output
       = Ok (st', {| status := "Upgrade finished with errors";
                     details := Some (errors_applying_changes st') |}).
Proof.
  intros Hreach Hheader Hcheck Hopen%is_fence_iff Hbody%not_fence_line.
  exists (incomplete st (header_path header)).
  assert (Hstep : loop_body repo_path st header (opening :: body)
                  = Ok (incomplete st (header_path header), [])).
  { rewrite (loop_body_safe repo_path _ _ _ Hheader Hcheck).
    now rewrite Hopen, (collect_open _ Hbody). }
  repeat split; try exact Hstep.
  unfold apply_llm_output.
  rewrite (reaches_scan repo_path _ _ _ _ Hreach), scan_cons, Hstep, scan_nil.
  cbv beta iota delta [bind]. f_equal. f_equal.
  unfold respond, incomplete; simpl.
  now destruct (errors_applying_changes st).
Qed.

(** C6, as the code has it. After a header that passed the check, the
block proceeds only if the next line is a fence line, that is the marker
with nothing but white space around it; otherwise the cursor stays on the
line after the header and the state is unchanged. The body is the lines
after the opening fence, unchanged, up to the first fence line or the end
of the text. *)
Theorem fence_lines_delimit_the_body
    (st : apply_state) (header : string) (rest : list string) :
  is_file_header header = true ->
  path_check repo_path (OsPath.join repo_path (header_path header)) = Ok true ->
  match rest with
  | [] => loop_body repo_path st header rest = Ok (st, [])
  | opening :: after =>
      (~ fence_line opening -> loop_body repo_path st header rest = Ok (st, rest))
      /\ (fence_line opening ->
          exists body tail,
            after = (body ++ tail)%list
            /\ Forall (fun l => ~ fence_line l) body
            /\ match tail with
               | [] =>
                   loop_body repo_path st header rest
                   = Ok (incomplete st (header_path header), [])
               | closing :: after_closing =>
                   fence_line closing
                   /\ loop_body repo_path st header rest
                      = Ok (save_file st (OsPath.join repo_path (header_path header))
                                      body, after_closing)
               end)
  end.
Proof.
  intros Hheader Hcheck.
  rewrite (loop_body_safe repo_path _ _ _ Hheader Hcheck).
  destruct rest as [|opening after]; [reflexivity|]. split.
  - intros Hno. destruct (is_fence opening) eqn:Ho; [|reflexivity].
    now apply is_fence_iff in Ho.
  - intros Ho%is_fence_iff. rewrite Ho.
    destruct (collect_spec after) as (Happ & Hbody & Htail).
    destruct (collect after) as [body tail]; simpl in *.
    exists body, tail. repeat split; [exact Happ | |].
    + eapply List.Forall_impl; [|exact Hbody]. intros l Hl Hf%is_fence_iff. congruence.
    + destruct tail as [|closing after_closing]; [reflexivity|].
      split; [now apply is_fence_iff | reflexivity].
Qed.

(** C10, as the code has it. A header whose path is absolute is joined to
itself, the root being dropped; when its canonical form is inside the
canonical root, a block under it is accepted and the pass creates the
parent directory and writes the body lines, joined by newlines, to that
very path. When neither call raises, the file is counted and no error is
added; when one of them raises, the file is not counted and one error
naming the file is added. The label the prompt puts before a file, given
back by the model, is such a header for the labelled path. *)
Theorem absolute_header_path_is_kept
    (st : apply_state) (line file_path : string) (opening closing : string)
    (body after : list string) (root_real file_real : string) :
  let full_content := PyStr.join nl body in
  is_file_header line = true ->
  header_path line = file_path ->
  OsPath.isabs file_path = true ->
  realpath repo_path = Ok root_real ->
  realpath file_path = Ok file_real ->
  canonical root_real -> canonical file_real ->
  inside root_real file_real ->
  fence_line opening ->
  Forall (fun l => ~ fence_line l) body ->
  fence_line closing ->
  OsPath.join repo_path file_path = file_path
  /\ (forall fs1 fs2,
        makedirs (OsPath.dirname file_path) (disk st) = (fs1, None) ->
        write_text file_path full_content fs1 = (fs2, None) ->
        loop_body repo_path st line (opening :: body ++ closing :: after)
        = Ok ({| disk := fs2;
                 updated_files_count := updated_files_count st + 1;
                 errors_applying_changes := errors_applying_changes st;
                 write_attempts :=
                   (write_attempts st ++ [(file_path, full_content)])%list |},
              after))
  /\ (forall fs' e,
        makedirs (OsPath.dirname file_path) (disk st) = (fs', Some e)
        \/ (exists fs1,
              makedirs (OsPath.dirname file_path) (disk st) = (fs1, None)
              /\ write_text file_path full_content fs1 = (fs', Some e)) ->
        let message := "Could not write changes to "
                       ++ OsPath.basename file_path ++ ": " ++ exn_str e in
        loop_body repo_path st line (opening :: body ++ closing :: after)
        = Ok ({| disk := fs';
                 updated_files_count := updated_files_count st;
                 errors_applying_changes :=
                   (errors_applying_changes st ++ [message])%list;
                 write_attempts :=
                   (write_attempts st ++ [(file_path, full_content)])%list |},
              after))
  /\ (strip file_path = file_path ->
      is_file_header (context_label file_path) = true
      /\ header_path (context_label file_path) = file_path).
Proof.
  intros full_content Hheader Hpath Habs Hroot Hfile Hr Ha Hin Hopen Hbody Hclose.
  assert (Hjoin : OsPath.join repo_path file_path = file_path).
  { unfold OsPath.join. unfold OsPath.isabs in Habs. now rewrite Habs. }
  assert (Hstep : loop_body repo_path st line (opening :: body ++ closing :: after)
                  = Ok (save_file st file_path body, after)).
  { rewrite <- Hjoin in Hfile.
    destruct (path_check_inside repo_path _ _ _ Hroot Hfile Hr Ha)
      as (kept & Hcheck & Hkept).
    apply Hkept in Hin. subst kept. rewrite <- Hpath in Hcheck.
    rewrite (loop_body_block _ _ _ _ _ _ Hheader Hcheck Hopen Hbody Hclose).
    now rewrite Hpath, Hjoin. }
  split; [exact Hjoin|]. split; [|split].
  - intros fs1 fs2 H1 H2.
    now rewrite Hstep, (save_file_written st _ _ _ _ H1 H2).
  - intros fs' e H.
    now rewrite Hstep, (save_file_failed st _ _ _ _ H).
  - intros Hstrip. destruct (context_label_header file_path) as [H1 H2].
    split; [exact H1 | now rewrite H2].
Qed.

End Claims.

(** ** The file system in memory *)

Lemma resolve_good (stack names : list string) :
  Forall good_name stack -> Forall no_slash names ->
  Forall good_name (MemFS.resolve stack names).
Proof.
  intros Hstack Hnames. revert stack Hstack.
  induction Hnames as [|name names Hname _ IH]; intros stack Hstack; simpl.
  - now apply Forall_rev.
  - destruct (String.eqb_spec name ""); simpl; [now apply IH|].
    destruct (String.eqb_spec name "."); simpl; [now apply IH|].
    destruct (String.eqb_spec name "..").
    + apply IH. destruct stack; [constructor | now inversion Hstack].
    + apply IH. constructor; [now repeat split | exact Hstack].
Qed.

Lemma memfs_realpath_canonical (p r : string) :
  MemFS.realpath p = Ok r -> canonical r.
Proof.
  unfold MemFS.realpath. destruct (MemFS.has_nul p); [discriminate|].
  intros [= <-]. unfold canonical, MemFS.path_of.
  rewrite components_root_join; [reflexivity|].
  apply resolve_good; [constructor | apply split_no_slash].
Qed.

(** On this file system every write the pass attempts stays inside the
root. *)
Lemma memfs_attempts_stay_inside (repo_path root_real : string)
    (d : MemFS.fs) (llm_output : string) (st : apply_state) :
  MemFS.realpath repo_path = Ok root_real ->
  scan repo_path (initial d) (splitlines llm_output) = Ok st ->
  Forall (fun a => exists file_real,
              MemFS.realpath (fst a) = Ok file_real /\ inside root_real file_real)
         (write_attempts st).
Proof.
  intros Hroot Hscan.
  apply (attempts_stay_inside (os := MemFS.os) repo_path root_real Hroot
           (memfs_realpath_canonical _ _ Hroot) memfs_realpath_canonical
           (splitlines llm_output) (initial (os := MemFS.os) d) st);
    [constructor | exact Hscan].
Qed.

(** A file that was written reads back as written. *)
Lemma memfs_read_after_write (p c : string) (d d' : MemFS.fs) :
  MemFS.write_text p c d = (d', None) -> MemFS.read_text p d' = Some c.
Proof.
  unfold MemFS.write_text, MemFS.read_text.
  destruct (MemFS.has_nul p); [discriminate|].
  destruct (_ || _); [discriminate|].
  destruct (MemFS.is_dir d _); [|discriminate].
  intros [= <-]. now rewrite lookup_insert_eq.
Qed.

(** ** The pass on the example working copy *)

Ltac not_a_fence_line :=
  let H := fresh in intros H%is_fence_iff; vm_compute in H; discriminate H.

Ltac a_fence_line := apply is_fence_iff; vm_compute; reflexivity.

Ltac is_inside := right; left; vm_compute; reflexivity.

Lemma unsafe_header_is_skipped_witness :
  loop_body Example.repo_path Example.start Example.passwd_header
            ["```"; "root:x:0:0"; "```"]
  = Ok (Example.start, ["```"; "root:x:0:0"; "```"])
  /\ scan Example.repo_path Example.start (splitlines Example.escaping_answer)
     = scan Example.repo_path Example.start ["```"; "root:x:0:0"; "```"].
Proof.
  apply (unsafe_header_is_skipped (os := MemFS.os) Example.repo_path
           Example.working_copy Example.escaping_answer Example.start
           Example.passwd_header ["```"; "root:x:0:0"; "```"]
           "/tmp/proj" "/etc/passwd").
  - apply reaches_here.
  - reflexivity.
  - reflexivity.
  - reflexivity.
  - reflexivity.
  - reflexivity.
  - intros [H | [H | [H _]]]; vm_compute in H; discriminate H.
Defined.

(** The header [../../etc/passwd] under the root [/tmp/proj]: nothing is
written and nothing is reported. *)
Lemma escaping_answer_writes_nothing :
  Example.run Example.escaping_answer
  = Ok (Example.start,
        {| status := "Successfully upgraded 0 files to Java 21"; details := None |}).
Proof. vm_compute. reflexivity. Qed.

(** Containment is by path components, not by characters: /tmp/proj2 begins
with the characters of /tmp/proj and is outside it. *)
Lemma sibling_directory_is_outside :
  String.prefix "/tmp/proj" "/tmp/proj2/x" = true
  /\ ~ inside "/tmp/proj" "/tmp/proj2/x"
  /\ path_check (os := MemFS.os) Example.repo_path "/tmp/proj2/x" = Ok false.
Proof.
  repeat split.
  intros [H | [H | [H _]]]; vm_compute in H; discriminate H.
Qed.

Lemma unlabelled_answer_writes_nothing_witness :
  Example.run Example.instructed_answer
  = Ok (Example.start,
        {| status := "Successfully upgraded 0 files to Java 21"; details := None |}).
Proof.
  apply (unlabelled_answer_writes_nothing (os := MemFS.os) Example.repo_path
           Example.working_copy "21" Example.instructed_answer).
  right. exists [("src/A.java", ["class A { int x; }"])].
  split; [reflexivity | repeat constructor].
Defined.

(** A well-formed block whose path is a directory of the working copy:
nothing is counted and an error is reported. *)
Lemma single_block_not_always_written :
  splitlines Example.directory_answer
  = [Example.directory_header; "```"; "class A { }"; "```"]
  /\ is_file_header Example.directory_header = true
  /\ MemFS.realpath
       (OsPath.join Example.repo_path (header_path Example.directory_header))
     = Ok "/tmp/proj/src"
  /\ inside "/tmp/proj" "/tmp/proj/src"
  /\ Example.run Example.directory_answer
     = Ok ({| disk := Example.working_copy;
              updated_files_count := 0;
              errors_applying_changes := [Example.directory_error];
              write_attempts := [("/tmp/proj/src", "class A { }")] |},
           {| status := "Upgrade finished with errors";
              details := Some [Example.directory_error] |})
  /\ ~ (exists (st : apply_state) (r : response),
          Example.run Example.directory_answer = Ok (st, r)
          /\ updated_files_count st = 1
          /\ errors_applying_changes st = []).
Proof.
  assert (Hrun : Example.run Example.directory_answer
                 = Ok ({| disk := Example.working_copy;
                          updated_files_count := 0;
                          errors_applying_changes := [Example.directory_error];
                          write_attempts := [("/tmp/proj/src", "class A { }")] |},
                       {| status := "Upgrade finished with errors";
                          details := Some [Example.directory_error] |}))
    by (vm_compute; reflexivity).
  repeat split; try reflexivity; try exact Hrun.
  - is_inside.
  - intros (st & r & Heq & Hcount & _). rewrite Hrun in Heq.
    injection Heq as <- _. discriminate Hcount.
Qed.

Lemma single_block_is_written_witness :
  Example.run Example.labelled_answer
  = Ok ({| disk := <["/tmp/proj/src/A.java" := MemFS.File ("class A {" ++ nl ++ "}")]>
                     Example.working_copy;
           updated_files_count := 1;
           errors_applying_changes := [];
           write_attempts := [("/tmp/proj/src/A.java", "class A {" ++ nl ++ "}")] |},
        {| status := "Successfully upgraded 1 files to Java 21"; details := None |}).
Proof.
  refine (proj1 (single_block_is_written (os := MemFS.os) Example.repo_path
                   Example.working_copy "21" Example.labelled_answer
                   Example.source_header "```" "```" ["class A {"; "}"]
                   "/tmp/proj" "/tmp/proj/src/A.java"
                   _ _ _ _ _ _ _ _ _ _) Example.working_copy _ _ _).
  - reflexivity.
  - reflexivity.
  - reflexivity.
  - reflexivity.
  - reflexivity.
  - reflexivity.
  - is_inside.
  - a_fence_line.
  - repeat constructor; not_a_fence_line.
  - a_fence_line.
  - vm_compute. reflexivity.
  - vm_compute. reflexivity.
Defined.

Lemma example_path_check_source :
  path_check (os := MemFS.os) Example.repo_path
    (OsPath.join Example.repo_path (header_path Example.source_header))
  = Ok true.
Proof. vm_compute. reflexivity. Qed.

Lemma truncated_block_is_reported_witness :
  exists st' : apply_state,
    loop_body Example.repo_path Example.start Example.source_header
              ["```"; "class A {"]
    = Ok (st', [])
    /\ disk st' = Example.working_copy
    /\ updated_files_count st' = 0
    /\ write_attempts st' = []
    /\ errors_applying_changes st' = ["LLM response for A.java was incomplete."]
    /\ Example.run Example.truncated_answer
       = Ok (st', {| status := "Upgrade finished with errors";
                     details := Some (errors_applying_changes st') |}).
Proof.
  apply (truncated_block_is_reported (os := MemFS.os) Example.repo_path
           Example.working_copy "21" Example.truncated_answer Example.start
           Example.source_header "```" ["class A {"]).
  - apply reaches_here.
  - reflexivity.
  - exact example_path_check_source.
  - a_fence_line.
  - repeat constructor; not_a_fence_line.
Defined.

(** A fence with white space around it is not the bare marker, and the
block under it is written all the same; the fence that closes it carries
white space too. *)
Lemma padded_fence_is_accepted :
  " ``` " <> fence
  /\ " ```" <> fence
  /\ loop_body Example.repo_path Example.start Example.source_header
               Example.padded_block
     <> Ok (Example.start, Example.padded_block)
  /\ Example.run Example.padded_answer
     = Ok ({| disk := <["/tmp/proj/src/A.java" := MemFS.File "class A { }"]>
                        Example.working_copy;
              updated_files_count := 1;
              errors_applying_changes := [];
              write_attempts := [("/tmp/proj/src/A.java", "class A { }")] |},
           {| status := "Successfully upgraded 1 files to Java 21"; details := None |}).
Proof.
  repeat split; try discriminate.
Qed.

Lemma fence_lines_delimit_the_body_witness :
  (~ fence_line " ``` " ->
   loop_body Example.repo_path Example.start Example.source_header
             Example.padded_block
   = Ok (Example.start, Example.padded_block))
  /\ (fence_line " ``` " ->
      exists body tail,
        ["class A { }"; " ```"] = (body ++ tail)%list
        /\ Forall (fun l => ~ fence_line l) body
        /\ match tail with
           | [] =>
               loop_body Example.repo_path Example.start Example.source_header
                         Example.padded_block
               = Ok (incomplete Example.start (header_path Example.source_header), [])
           | closing :: after_closing =>
               fence_line closing
               /\ loop_body Example.repo_path Example.start Example.source_header
                            Example.padded_block
                  = Ok (save_file Example.start
                          (OsPath.join Example.repo_path
                             (header_path Example.source_header))
                          body, after_closing)
           end).
Proof.
  apply (fence_lines_delimit_the_body (os := MemFS.os) Example.repo_path
           Example.start Example.source_header Example.padded_block).
  - reflexivity.
  - exact example_path_check_source.
Defined.

Lemma absolute_header_path_is_kept_witness :
  loop_body Example.repo_path Example.start
    (context_label "/tmp/proj/src/A.java")
    ("```" :: ["class A { int x; }"] ++ "```" :: [])
  = Ok ({| disk := <["/tmp/proj/src/A.java" := MemFS.File "class A { int x; }"]>
                     Example.working_copy;
           updated_files_count := 1;
           errors_applying_changes := [];
           write_attempts := [("/tmp/proj/src/A.java", "class A { int x; }")] |},
        []).
Proof.
  refine (proj1 (proj2 (absolute_header_path_is_kept (os := MemFS.os)
                          Example.repo_path Example.start
                          (context_label "/tmp/proj/src/A.java")
                          "/tmp/proj/src/A.java" "```" "```"
                          ["class A { int x; }"] []
                          "/tmp/proj" "/tmp/proj/src/A.java"
                          _ _ _ _ _ _ _ _ _ _ _))
            Example.working_copy _ _ _).
  - reflexivity.
  - reflexivity.
  - reflexivity.
  - reflexivity.
  - reflexivity.
  - reflexivity.
  - reflexivity.
  - is_inside.
  - a_fence_line.
  - repeat constructor; not_a_fence_line.
  - a_fence_line.
  - vm_compute. reflexivity.
  - vm_compute. reflexivity.
Defined.

(** A header whose path is absolute, inside the root, and names the
directory src of the working copy: the block under it is accepted, the
write raises, nothing is written or counted and one error is recorded. *)
Lemma absolute_directory_path_is_not_written :
  is_file_header Example.absolute_directory_header = true
  /\ header_path Example.absolute_directory_header = "/tmp/proj/src"
  /\ OsPath.isabs "/tmp/proj/src" = true
  /\ MemFS.realpath Example.repo_path = Ok "/tmp/proj"
  /\ MemFS.realpath "/tmp/proj/src" = Ok "/tmp/proj/src"
  /\ inside "/tmp/proj" "/tmp/proj/src"
  /\ loop_body Example.repo_path Example.start Example.absolute_directory_header
       ["```"; "class A { }"; "```"]
     = Ok ({| disk := Example.working_copy;
              updated_files_count := 0;
              errors_applying_changes := [Example.directory_error];
              write_attempts := [("/tmp/proj/src", "class A { }")] |},
           [])
  /\ Example.run
       (Example.lines_to_text
          [Example.absolute_directory_header; "```"; "class A { }"; "```"])
     = Ok ({| disk := Example.working_copy;
              updated_files_count := 0;
              errors_applying_changes := [Example.directory_error];
              write_attempts := [("/tmp/proj/src", "class A { }")] |},
           {| status := "Upgrade finished with errors";
              details := Some [Example.directory_error] |}).
Proof.
  repeat split; try (vm_compute; reflexivity).
  is_inside.
Qed.

(** The label of the prompt for src/A.java, given back with new content,
replaces the file in place. *)
Lemma echoed_label_rewrites_the_file :
  exists st : apply_state,
    scan Example.repo_path Example.start Example.echoed_answer = Ok st
    /\ updated_files_count st = 1
    /\ errors_applying_changes st = []
    /\ MemFS.read_text "/tmp/proj/src/A.java" (disk st) = Some "class A { int x; }".
Proof. eexists. vm_compute. repeat split. Qed.

(** ** Exceptions that leave the pass *)

Section Totality.

Context {os : FileSystem}.
Variable repo_path : string.

(** As long as [os.path.realpath] returns (an absolute path, as it does),
nothing raises: the pass returns a state and the dictionary made from
it, which reports errors exactly when the error list is not empty. *)
Lemma pass_returns_when_paths_resolve :
  (forall p, exists r, realpath p = Ok r /\ OsPath.isabs r = true) ->
  forall (fs : FS) (target_version llm_output : string),
  exists st,
    apply_llm_output repo_path fs target_version llm_output
    = Ok (st, respond target_version st)
    /\ (details (respond target_version st) = Some (errors_applying_changes st)
        /\ status (respond target_version st) = "Upgrade finished with errors"
        <-> errors_applying_changes st <> [])
    /\ (details (respond target_version st) = None
        <-> errors_applying_changes st = []).
Proof.
  intros Hreal fs target_version llm_output.
  assert (Hcheck : forall p, exists kept, path_check repo_path p = Ok kept).
  { intros p. unfold path_check.
    destruct (Hreal repo_path) as (r & -> & Hr).
    destruct (Hreal p) as (a & -> & Ha).
    cbv beta iota delta [bind]. rewrite (commonpath_pair r a Hr Ha).
    now eexists. }
  assert (Hstep : forall st line rest, exists st' rest',
             loop_body repo_path st line rest = Ok (st', rest')).
  { intros st line rest. unfold loop_body.
    destruct (is_file_header line); [|now eexists; eexists].
    destruct (Hcheck (OsPath.join repo_path (header_path line))) as [kept ->].
    cbv beta iota delta [bind].
    destruct kept; simpl negb; cbv iota; [|now eexists; eexists].
    destruct rest as [|opening after]; [now eexists; eexists|].
    destruct (is_fence opening); [|now eexists; eexists].
    destruct (collect after) as [body [|closing after_closing]];
      now eexists; eexists. }
  assert (Hscan : forall lines st, exists st', scan repo_path st lines = Ok st').
  { intros lines.
    induction lines as [lines IH] using (induction_ltof1 _ (@length string)).
    intros st. destruct lines as [|line rest].
    - exists st. apply scan_nil.
    - destruct (Hstep st line rest) as (st1 & rest1 & Hs).
      rewrite scan_cons, Hs. apply IH.
      unfold ltof. apply loop_body_length in Hs. simpl. lia. }
  destruct (Hscan (splitlines llm_output) (initial fs)) as [st Hst].
  exists st. unfold apply_llm_output. rewrite Hst. split; [reflexivity|].
  unfold respond.
  destruct (errors_applying_changes st) as [|e es]; simpl; split; split;
    try congruence; try discriminate.
  - now intros [H _].
  - now intros _.
Qed.

End Totality.

(** C5, where the code departs from it. A header whose path holds a NUL
character makes [os.path.realpath] raise [ValueError] at line 191, outside
any [try]: the pass raises instead of returning. *)
Theorem nul_in_header_path_raises :
  Example.run Example.nul_answer = Raise (ValueError "embedded null byte").
Proof. vm_compute. reflexivity. Qed.

(** ** Rounding to binary64 *)

Module FloatFacts.

Import PyFloat.
Local Open Scope Z_scope.

Lemma round_half_even_bounds (num den : Z) :
  0 < den -> num / den <= round_half_even num den <= num / den + 1.
Proof.
  intros Hden. unfold round_half_even.
  destruct (2 * (num mod den) <? den); [lia|].
  destruct (den <? 2 * (num mod den)); [lia|].
  destruct (Z.even (num / den)); lia.
Qed.

Lemma round_half_even_ge (num den g : Z) :
  0 < den -> g * den <= num -> g <= round_half_even num den.
Proof.
  intros Hden H.
  pose proof (round_half_even_bounds num den Hden).
  assert (g <= num / den) by (apply Z.div_le_lower_bound; lia).
  lia.
Qed.

Lemma round_half_even_le (num den g : Z) :
  0 < den -> num <= g * den -> round_half_even num den <= g.
Proof.
  intros Hden H.
  pose proof (Z.div_mod num den ltac:(lia)) as Hdm.
  pose proof (Z.mod_pos_bound num den Hden) as Hr.
  unfold round_half_even.
  destruct (Z_lt_le_dec (num / den) g) as [Hlt|Hge].
  - destruct (2 * (num mod den) <? den); [lia|].
    destruct (den <? 2 * (num mod den)); [lia|].
    destruct (Z.even (num / den)); lia.
  - assert (num mod den = 0) by nia.
    assert (num / den = g) by nia.
    replace (2 * (num mod den) <? den) with true by (symmetry; apply Z.ltb_lt; lia).
    lia.
Qed.

Lemma binade_ge (a b : Z) :
  0 < a -> 0 < b -> 0 <= binade a b -> b * 2 ^ binade a b <= a.
Proof.
  intros Ha Hb. unfold binade, scaled_le.
  set (k := Z.log2 a - Z.log2 b).
  destruct (0 <=? k) eqn:Hk.
  - destruct (b * 2 ^ k <=? a) eqn:Hle; intros Hpos.
    + now apply Z.leb_le.
    + apply Z.leb_le in Hk.
      pose proof (Z.log2_spec a Ha) as [Hla _].
      pose proof (Z.log2_spec b Hb) as [_ Hlb].
      pose proof (Z.log2_nonneg b) as Hnb.
      assert (Hsplit : 2 ^ Z.log2 a = 2 ^ (k - 1) * 2 ^ (Z.succ (Z.log2 b))).
      { rewrite <- Z.pow_add_r by lia. f_equal. unfold k. lia. }
      assert (0 < 2 ^ (k - 1)) by (apply Z.pow_pos_nonneg; lia).
      nia.
  - apply Z.leb_gt in Hk.
    destruct (b <=? a * 2 ^ (- k)); intros Hpos; lia.
Qed.

Lemma pow2_pos (n : Z) : 0 <= n -> 0 < 2 ^ n.
Proof. intros H. apply Z.pow_pos_nonneg; lia. Qed.

Lemma pow2_le (n m : Z) : 0 <= n <= m -> 2 ^ n <= 2 ^ m.
Proof. intros H. apply Z.pow_le_mono_r; lia. Qed.

(** The integer part of the double nearest to [a / b], against an integer
[c] below 32. *)
Lemma truncate_against (a b c q u : Z) :
  0 < a -> 0 < b -> 0 < c < 32 ->
  to_double a b = Some (q, u) ->
  (c * b <= a -> c <= truncate q u)
  /\ (2 ^ 48 * a + b <= 2 ^ 48 * b * c -> truncate q u < c).
Proof.
  intros Ha Hb Hc. unfold to_double, truncate. cbv zeta.
  destruct (a =? 0) eqn:Ha0; [apply Z.eqb_eq in Ha0; lia|].
  set (k := binade a b). set (u0 := Z.max (k - 52) (-1074)).
  pose proof (binade_ge a b Ha Hb) as Hk. fold k in Hk.
  destruct (0 <=? u0) eqn:Hu0.
  - apply Z.leb_le in Hu0. rewrite andb_true_l.
    destruct (2 ^ 1024 <=? round_half_even a (b * 2 ^ u0) * 2 ^ u0);
      [discriminate|]. intros [= <- <-].
    rewrite (proj2 (Z.leb_le 0 u0) Hu0).
    assert (Hku : k = u0 + 52) by lia.
    assert (Hpow : 2 ^ k = 2 ^ 52 * 2 ^ u0)
      by (rewrite Hku, Z.pow_add_r by lia; lia).
    pose proof (pow2_pos u0 Hu0) as Hpu.
    assert (Hq : 2 ^ 52 <= round_half_even a (b * 2 ^ u0)).
    { apply round_half_even_ge; [nia|]. specialize (Hk ltac:(lia)). nia. }
    specialize (Hk ltac:(lia)).
    split; intros H.
    + change (2 ^ 52) with 4503599627370496 in *. nia.
    + change (2 ^ 52) with 4503599627370496 in *.
      change (2 ^ 48) with 281474976710656 in *. nia.
  - apply Z.leb_gt in Hu0. rewrite andb_false_l. intros [= <- <-].
    rewrite (proj2 (Z.leb_gt 0 u0) Hu0).
    pose proof (pow2_pos (- u0) ltac:(lia)) as Hps.
    split; intros H.
    + apply Z.div_le_lower_bound; [exact Hps|].
      rewrite Z.mul_comm. apply round_half_even_ge; [exact Hb | nia].
    + assert (Hk4 : k <= 4).
      { destruct (Z_le_gt_dec k 4) as [|Hgt]; [assumption|].
        specialize (Hk ltac:(lia)).
        pose proof (pow2_le 5 k ltac:(lia)) as H5.
        change (2 ^ 5) with 32 in H5.
        change (2 ^ 48) with 281474976710656 in *. nia. }
      assert (Hs : 48 <= - u0) by lia.
      assert (Hpow : 2 ^ (- u0) = 2 ^ (- u0 - 48) * 2 ^ 48)
        by (rewrite <- Z.pow_add_r by lia; f_equal; lia).
      pose proof (pow2_pos (- u0 - 48) ltac:(lia)) as Hpp.
      apply Z.div_lt_upper_bound; [exact Hps|].
      assert (Hle : round_half_even (a * 2 ^ (- u0)) b
                    <= c * 2 ^ (- u0) - 2 ^ (- u0 - 48)).
      { apply round_half_even_le; [exact Hb|]. rewrite Hpow.
        change (2 ^ 48) with 281474976710656 in *. nia. }
      lia.
Qed.

Lemma to_double_finite (a b : Z) :
  0 <= a -> 0 < b -> a < 2 ^ 1023 * b ->
  exists q u, to_double a b = Some (q, u) /\ 0 <= truncate q u.
Proof.
  intros Ha Hb Hfin. unfold to_double. cbv zeta.
  destruct (a =? 0) eqn:Ha0; [now exists 0, 0|].
  apply Z.eqb_neq in Ha0.
  set (k := binade a b). set (u0 := Z.max (k - 52) (-1074)).
  pose proof (binade_ge a b ltac:(lia) Hb) as Hk. fold k in Hk.
  destruct (0 <=? u0) eqn:Hu0.
  - apply Z.leb_le in Hu0. rewrite andb_true_l.
    assert (Hku : k = u0 + 52) by lia.
    specialize (Hk ltac:(lia)).
    assert (Hk1023 : k < 1023).
    { destruct (Z_lt_ge_dec k 1023) as [|Hge]; [assumption|].
      pose proof (pow2_le 1023 k ltac:(lia)). nia. }
    pose proof (pow2_pos u0 Hu0) as Hpu.
    assert (Hpow : 2 ^ 1023 = 2 ^ (1023 - u0) * 2 ^ u0)
      by (rewrite <- Z.pow_add_r by lia; f_equal; lia).
    assert (Hq : round_half_even a (b * 2 ^ u0) <= 2 ^ (1023 - u0)).
    { apply round_half_even_le; [nia|]. nia. }
    assert (Hq0 : 0 <= round_half_even a (b * 2 ^ u0)).
    { apply round_half_even_ge; [nia | lia]. }
    assert (Hlt : round_half_even a (b * 2 ^ u0) * 2 ^ u0 < 2 ^ 1024).
    { assert (2 ^ 1023 < 2 ^ 1024) by (apply Z.pow_lt_mono_r; lia). nia. }
    apply Z.leb_gt in Hlt. rewrite Hlt.
    eexists; eexists; split; [reflexivity|].
    unfold truncate. rewrite (proj2 (Z.leb_le 0 u0) Hu0). nia.
  - rewrite andb_false_l. eexists; eexists; split; [reflexivity|].
    unfold truncate. rewrite Hu0.
    apply Z.leb_gt in Hu0.
    apply Z.div_pos; [|apply pow2_pos; lia].
    apply round_half_even_ge; [exact Hb | ].
    pose proof (pow2_pos (- u0) ltac:(lia)). nia.
Qed.

(** Rounding stays below an even integer exactly when the fraction is
below that integer less one half. *)
Lemma round_half_even_lt (num den g : Z) :
  0 < den -> Z.even g = true ->
  round_half_even num den < g <-> 2 * num < (2 * g - 1) * den.
Proof.
  intros Hden Hg.
  pose proof (Z.div_mod num den ltac:(lia)) as Hdm.
  pose proof (Z.mod_pos_bound num den Hden) as Hr.
  unfold round_half_even.
  destruct (Z_lt_le_dec (num / den) (g - 1)) as [Hlow | Hhigh].
  - split; intros _; [nia|].
    destruct (2 * (num mod den) <? den); [lia|].
    destruct (den <? 2 * (num mod den)); [lia|].
    destruct (Z.even (num / den)); lia.
  - destruct (Z.eq_dec (num / den) (g - 1)) as [Heq | Hne].
    + assert (Hodd : Z.even (num / den) = false).
      { rewrite Heq, Z.even_sub, Hg. reflexivity. }
      rewrite Hodd.
      destruct (Z.ltb_spec (2 * (num mod den)) den).
      * split; intros _; [nia | lia].
      * destruct (den <? 2 * (num mod den)); split; intros H'; nia || lia.
    + assert (g <= num / den) by lia.
      split; intros H'; [|nia].
      destruct (2 * (num mod den) <? den); [lia|].
      destruct (den <? 2 * (num mod den)); [lia|].
      destruct (Z.even (num / den)); lia.
Qed.

Lemma binade_lt (a b : Z) :
  0 < b -> b <= a -> a < b * 2 ^ (binade a b + 1).
Proof.
  intros Hb Hab. unfold binade, scaled_le.
  set (k := Z.log2 a - Z.log2 b).
  assert (Ha : 0 < a) by lia.
  pose proof (Z.log2_spec a Ha) as [_ Hla].
  pose proof (Z.log2_spec b Hb) as [Hlb _].
  pose proof (Z.log2_nonneg b) as Hnb.
  pose proof (Z.log2_le_mono b a Hab) as Hmono.
  assert (Hk : 0 <= k) by (unfold k; lia).
  rewrite (proj2 (Z.leb_le 0 k) Hk).
  destruct (Z.leb_spec (b * 2 ^ k) a) as [Hle | Hgt].
  - assert (Hsplit : 2 ^ Z.succ (Z.log2 a) = 2 ^ (k + 1) * 2 ^ Z.log2 b).
    { rewrite <- Z.pow_add_r by lia. f_equal. unfold k. lia. }
    assert (0 < 2 ^ (k + 1)) by (apply Z.pow_pos_nonneg; lia).
    nia.
  - replace (k - 1 + 1) with k by lia. lia.
Qed.

(** The integer part of the double nearest to [a / b] is below an integer
[c] of the binade [2^k] exactly when [a / b] is more than half a unit in
the last place below [c]. *)
Lemma truncate_exact (a b c k q u : Z) :
  0 < a -> 0 < b -> k = 3 \/ k = 4 -> 2 ^ k < c < 2 ^ (k + 1) ->
  to_double a b = Some (q, u) ->
  truncate q u < c <-> 2 ^ (53 - k) * a < (c * 2 ^ (53 - k) - 1) * b.
Proof.
  intros Ha Hb Hk Hc Hd.
  assert (Hc32 : 0 < c < 32)
    by (destruct Hk as [-> | ->]; simpl in Hc; lia).
  destruct (truncate_against a b c q u Ha Hb Hc32 Hd) as [Hge Hlt].
  destruct (Z_le_gt_dec (c * b) a) as [Hover | Hunder].
  { specialize (Hge Hover).
    assert (0 < 2 ^ (53 - k)) by (apply Z.pow_pos_nonneg; lia).
    split; intros H'; [lia | nia]. }
  destruct (Z_le_gt_dec (2 ^ 48 * a + b) (2 ^ 48 * b * c)) as [Hfar | Hnear].
  { specialize (Hlt Hfar). split; intros _; [|exact Hlt].
    change (2 ^ 48) with 281474976710656 in Hfar.
    destruct Hk as [-> | ->]; simpl; lia. }
  clear Hge Hlt.
  assert (Hlow : b * 2 ^ k <= a).
  { change (2 ^ 48) with 281474976710656 in Hnear.
    destruct Hk as [-> | ->]; simpl in *; nia. }
  assert (Hbk : binade a b = k).
  { pose proof (binade_ge a b Ha Hb) as Hbge.
    assert (H1 : b <= a).
    { assert (1 <= 2 ^ k) by (destruct Hk as [-> | ->]; simpl; lia). nia. }
    pose proof (binade_lt a b Hb H1) as Hblt.
    assert (Hnn : 0 <= binade a b).
    { destruct (Z_le_gt_dec 0 (binade a b)) as [|Hneg]; [assumption|].
      assert (2 ^ (binade a b + 1) <= 1).
      { destruct (Z.eq_dec (binade a b) (-1)) as [->|];
          [simpl; lia | rewrite Z.pow_neg_r by lia; lia]. }
      nia. }
    specialize (Hbge Hnn).
    destruct (Z_lt_le_dec k (binade a b)) as [Hhi|Hle].
    - pose proof (pow2_le (k + 1) (binade a b) ltac:(lia)). nia.
    - destruct (Z_lt_le_dec (binade a b) k) as [Hlo|]; [|lia].
      pose proof (pow2_le (binade a b + 1) k ltac:(lia)). nia. }
  revert Hd. unfold to_double, truncate. cbv zeta.
  destruct (a =? 0) eqn:Ha0; [apply Z.eqb_eq in Ha0; lia|].
  rewrite Hbk.
  assert (Hu : Z.max (k - 52) (-1074) = k - 52) by lia.
  rewrite Hu.
  assert (Hneg : (0 <=? k - 52) = false) by (apply Z.leb_gt; lia).
  rewrite Hneg, andb_false_l. intros [= <- <-]. rewrite Hneg.
  replace (- (k - 52)) with (52 - k) by lia.
  assert (Hp : 0 < 2 ^ (52 - k)) by (apply Z.pow_pos_nonneg; lia).
  assert (Heven : Z.even (c * 2 ^ (52 - k)) = true).
  { rewrite Z.even_mul. replace (52 - k) with (Z.succ (51 - k)) by lia.
    rewrite Z.pow_succ_r by lia. rewrite Z.even_mul. simpl.
    apply orb_true_r. }
  pose proof (round_half_even_lt (a * 2 ^ (52 - k)) b _ Hb Heven) as Hround.
  assert (Hpow : 2 ^ (53 - k) = 2 * 2 ^ (52 - k)).
  { replace (53 - k) with (Z.succ (52 - k)) by lia.
    now rewrite Z.pow_succ_r by lia. }
  rewrite Hpow. split.
  - intros Hdiv.
    assert (round_half_even (a * 2 ^ (52 - k)) b < c * 2 ^ (52 - k)).
    { destruct (Z_lt_le_dec (round_half_even (a * 2 ^ (52 - k)) b)
                            (c * 2 ^ (52 - k))) as [|Hge]; [assumption|].
      assert (c <= round_half_even (a * 2 ^ (52 - k)) b / 2 ^ (52 - k))
        by (apply Z.div_le_lower_bound; lia).
      lia. }
    apply Hround in H. lia.
  - intros Hfrac. apply Z.div_lt_upper_bound; [exact Hp|].
    rewrite (Z.mul_comm (2 ^ (52 - k)) c). apply Hround. lia.
Qed.

(** [float] reads every number below [2^1024 - 2^970] as a finite
double. *)
Lemma to_double_finite_exact (a b : Z) :
  0 <= a -> 0 < b -> a < (2 ^ 1024 - 2 ^ 970) * b ->
  exists q u, to_double a b = Some (q, u) /\ 0 <= truncate q u.
Proof.
  intros Ha Hb Hfin.
  assert (Hp : 0 < 2 ^ 970) by (apply Z.pow_pos_nonneg; lia).
  assert (H1024 : 2 ^ 1024 = 2 ^ 54 * 2 ^ 970)
    by (rewrite <- Z.pow_add_r by lia; reflexivity).
  assert (H1023 : 2 ^ 1023 = 2 ^ 53 * 2 ^ 970)
    by (rewrite <- Z.pow_add_r by lia; reflexivity).
  assert (H971 : 2 ^ 971 = 2 * 2 ^ 970)
    by (change 971 with (Z.succ 970); rewrite Z.pow_succ_r by lia; reflexivity).
  destruct (Z_lt_le_dec a (2 ^ 1023 * b)) as [Hsmall | Hbig];
    [now apply to_double_finite|].
  assert (Hpos : 0 < a).
  { rewrite H1023 in Hbig. change (2 ^ 53) with 9007199254740992 in Hbig. nia. }
  assert (Hba : b <= a).
  { rewrite H1023 in Hbig. change (2 ^ 53) with 9007199254740992 in Hbig. nia. }
  assert (Hbk : binade a b = 1023).
  { pose proof (binade_ge a b Hpos Hb) as Hbge.
    pose proof (binade_lt a b Hb Hba) as Hblt.
    assert (Hnn : 0 <= binade a b).
    { destruct (Z_le_gt_dec 0 (binade a b)) as [|Hneg]; [assumption|].
      assert (2 ^ (binade a b + 1) <= 1).
      { destruct (Z.eq_dec (binade a b) (-1)) as [->|];
          [simpl; lia | rewrite Z.pow_neg_r by lia; lia]. }
      nia. }
    specialize (Hbge Hnn).
    assert (Hupper : a < 2 ^ 1024 * b) by nia.
    destruct (Z_lt_le_dec 1023 (binade a b)) as [Hhi|Hle].
    - pose proof (pow2_le 1024 (binade a b) ltac:(lia)) as Hpow.
      assert (b * 2 ^ 1024 <= b * 2 ^ binade a b)
        by (apply Z.mul_le_mono_nonneg_l; lia).
      lia.
    - destruct (Z_lt_le_dec (binade a b) 1023) as [Hlo|]; [|lia].
      pose proof (pow2_le (binade a b + 1) 1023 ltac:(lia)) as Hpow.
      assert (b * 2 ^ (binade a b + 1) <= b * 2 ^ 1023)
        by (apply Z.mul_le_mono_nonneg_l; lia).
      lia. }
  unfold to_double. cbv zeta.
  destruct (a =? 0) eqn:Ha0; [apply Z.eqb_eq in Ha0; lia|].
  rewrite Hbk. change (Z.max (1023 - 52) (-1074)) with 971.
  change (0 <=? 971) with true. cbv iota. rewrite andb_true_l.
  assert (Hden : 0 < b * 2 ^ 971) by nia.
  assert (Hq : round_half_even a (b * 2 ^ 971) < 2 ^ 53).
  { apply (round_half_even_lt a (b * 2 ^ 971) (2 ^ 53) Hden eq_refl).
    rewrite H971. rewrite H1024 in Hfin.
    change (2 ^ 54) with 18014398509481984 in Hfin.
    change (2 ^ 53) with 9007199254740992. nia. }
  assert (Hq0 : 0 <= round_half_even a (b * 2 ^ 971))
    by (apply round_half_even_ge; [exact Hden | lia]).
  assert (Hlt : round_half_even a (b * 2 ^ 971) * 2 ^ 971 < 2 ^ 1024).
  { set (r := round_half_even a (b * 2 ^ 971)) in *.
    rewrite H971, H1024. change (2 ^ 54) with 18014398509481984.
    change (2 ^ 53) with 9007199254740992 in Hq.
    assert (r * 2 ^ 970 <= 9007199254740991 * 2 ^ 970)
      by (apply Z.mul_le_mono_nonneg_r; lia).
    lia. }
  apply Z.leb_gt in Hlt. rewrite Hlt.
  eexists; eexists; split; [reflexivity|].
  unfold truncate. change (0 <=? 971) with true. cbv iota. nia.
Qed.


End FloatFacts.

(** ** The suggestion filter *)

Module SuggestionFacts.

Import PyFloat FloatFacts.
Local Open Scope Z_scope.

Lemma take_digits_all (s : string) : all_digits (fst (take_digits s)) = true.
Proof.
  induction s as [|c s IH]; simpl; [reflexivity|].
  destruct (is_digit c) eqn:Hc; [|reflexivity].
  destruct (take_digits s) as [ds tail]; simpl in *. now rewrite Hc.
Qed.

Lemma all_digits_append (a b : string) :
  all_digits a = true -> all_digits b = true -> all_digits (a ++ b) = true.
Proof.
  induction a as [|c a IH]; simpl; [auto|].
  intros [Hc Ha]%andb_true_iff Hb. now rewrite Hc, IH.
Qed.

Lemma digits_value_nonneg (ds : string) (acc : Z) :
  all_digits ds = true -> 0 <= acc -> 0 <= digits_value acc ds.
Proof.
  revert acc; induction ds as [|c ds IH]; simpl; intros acc; [auto|].
  intros [Hc Hds]%andb_true_iff Hacc. apply IH; [exact Hds|].
  unfold is_digit in Hc. apply andb_true_iff in Hc as [Hlo _].
  apply Nat.leb_le in Hlo. unfold digit_value. lia.
Qed.

Lemma parse_literal_nonneg (s : string) (neg : bool) (m e : Z) :
  parse_literal s = Some (Finite neg m e) -> 0 <= m.
Proof.
  unfold parse_literal.
  destruct (take_sign s) as [sign body].
  destruct (_ || _); [discriminate|].
  destruct (String.eqb _ "nan"); [discriminate|].
  pose proof (take_digits_all body) as Hint.
  destruct (take_digits body) as [int_digits r1]; simpl in Hint.
  assert (Hfrac : forall fd r2,
             match r1 with
             | String c r => if Ascii.eqb c "." then take_digits r else (EmptyString, r1)
             | EmptyString => (EmptyString, r1)
             end = (fd, r2) -> all_digits fd = true).
  { intros fd r2. destruct r1 as [|c r]; [now intros [= <- _]|].
    destruct (Ascii.eqb c "."); [|now intros [= <- _]].
    intros H. pose proof (take_digits_all r) as Hr. now rewrite H in Hr. }
  destruct (match r1 with
            | String c r => if Ascii.eqb c "." then take_digits r else (EmptyString, r1)
            | EmptyString => (EmptyString, r1)
            end) as [frac_digits r2].
  specialize (Hfrac _ _ eq_refl).
  pose proof (all_digits_append _ _ Hint Hfrac) as Hall.
  destruct (int_digits ++ frac_digits)%string as [|c mantissa] eqn:Hm; [discriminate|].
  destruct (parse_exponent r2); [|discriminate].
  intros [= _ <- _].
  apply (digits_value_nonneg (String c mantissa) 0 Hall). lia.
Qed.

Lemma read_nonneg (s : string) (neg : bool) (m e : Z) :
  read s = Some (Finite neg m e) -> 0 <= m.
Proof.
  unfold read. destruct (drop_underscores _ _); [|discriminate].
  apply parse_literal_nonneg.
Qed.

Lemma fraction_sign (m e : Z) :
  0 <= m -> 0 <= fst (fraction m e) /\ 0 < snd (fraction m e).
Proof.
  intros Hm. unfold fraction. destruct (0 <=? e) eqn:He; simpl.
  - apply Z.leb_le in He. split; [|lia].
    apply Z.mul_nonneg_nonneg; [exact Hm | apply Z.pow_nonneg; lia].
  - apply Z.leb_gt in He. split; [exact Hm | apply Z.pow_pos_nonneg; lia].
Qed.

(** Line 147 on the candidate list. *)
Lemma keep_greater_candidates (major : Z) :
  keep_greater major candidates = Ok (suggested_above major).
Proof.
  unfold candidates, suggested_above, candidate_values.
  cbn [keep_greater List.filter map fst snd].
  change (int_of_str "11") with (Ok 11).
  change (int_of_str "17") with (Ok 17).
  change (int_of_str "21") with (Ok 21).
  cbv beta iota delta [bind].
  destruct (major <? 11), (major <? 17), (major <? 21); reflexivity.
Qed.

Lemma suggested_above_agree (t f : Z) :
  ((t <? 11) = (f <? 11)) -> ((t <? 17) = (f <? 17)) -> ((t <? 21) = (f <? 21)) ->
  suggested_above t = suggested_above f.
Proof.
  intros H1 H2 H3. unfold suggested_above, candidate_values.
  cbn [List.filter map fst snd]. now rewrite H1, H2, H3.
Qed.

Lemma ltb_agree (t f c : Z) : (c <= t <-> c <= f) -> (t <? c) = (f <? c).
Proof.
  intros H. destruct (Z.ltb_spec t c), (Z.ltb_spec f c); try reflexivity; lia.
Qed.

(** The integer part of the nearest double against a candidate. *)
Lemma truncate_is_floor (a b c q u : Z) :
  0 <= a -> 0 < b -> 0 < c < 32 ->
  to_double a b = Some (q, u) ->
  2 ^ 48 * a + b <= 2 ^ 48 * b * (a / b + 1) ->
  (truncate q u <? c) = (a / b <? c).
Proof.
  intros Ha Hb Hc Hd Hzone. apply ltb_agree.
  destruct (Z.eq_dec a 0) as [->|Hne].
  - unfold to_double in Hd. simpl in Hd. injection Hd as <- <-.
    rewrite Z.div_0_l by lia. reflexivity.
  - destruct (truncate_against a b c q u ltac:(lia) Hb Hc Hd) as [Hge Hlt].
    pose proof (Z.div_mod a b ltac:(lia)) as Hdm.
    pose proof (Z.mod_pos_bound a b Hb) as Hr.
    split; intros H.
    + destruct (Z_le_gt_dec c (a / b)) as [|Hgt]; [assumption|].
      assert (truncate q u < c); [|lia].
      apply Hlt. assert (a / b + 1 <= c) by lia.
      change (2 ^ 48) with 281474976710656 in *. nia.
    + apply Hge. nia.
Qed.

End SuggestionFacts.

(** C7, as the code has it. A version string that [float] reads as a
finite number (one of magnitude below [2^1024 - 2^970]), and that [float]
does not round up to one of the candidates 11, 17 and 21, gets exactly the
candidates that are strictly greater than its floor. [float] rounds a
number up to a candidate when it lies at most half a unit in the last
place below it: [2^-50] below 11, [2^-49] below 17 or 21. A string for
which [float] or [int] raises [ValueError] (one that is not a number,
which includes ["Unknown"], and [nan]) gets all the candidates. *)
Theorem suggestions_follow_the_floor
    (current_version : string) (neg : bool) (m e : Z) :
  (PyFloat.read current_version = Some (PyFloat.Finite neg m e) ->
   (fst (PyFloat.fraction m e)
    < (2 ^ 1024 - 2 ^ 970) * snd (PyFloat.fraction m e))%Z ->
   rounded_up_to_a_candidate neg (fst (PyFloat.fraction m e))
     (snd (PyFloat.fraction m e)) = false ->
   filter_suggestions current_version candidates
   = Ok (suggested_above (exact_floor neg m e)))
  /\ (PyFloat.read current_version = None
      \/ PyFloat.read current_version = Some PyFloat.NaN ->
      filter_suggestions current_version candidates = Ok candidates).
Proof.
  split.
  - intros Hread Hfin Hzone.
    pose proof (SuggestionFacts.read_nonneg _ _ _ _ Hread) as Hm.
    destruct (SuggestionFacts.fraction_sign m e Hm) as [Ha Hb].
    unfold filter_suggestions, PyFloat.int_of_float, exact_floor.
    rewrite Hread.
    destruct (PyFloat.fraction m e) as [a b]; simpl fst in *; simpl snd in *.
    destruct (FloatFacts.to_double_finite_exact a b Ha Hb Hfin)
      as (q & u & Hd & Hpos).
    rewrite Hd. cbv beta iota delta [bind].
    rewrite SuggestionFacts.keep_greater_candidates. f_equal.
    destruct neg.
    + assert (Hfloor : (- a / b <= 0)%Z).
      { apply Z.lt_succ_r. apply Z.div_lt_upper_bound; lia. }
      apply SuggestionFacts.suggested_above_agree;
        apply SuggestionFacts.ltb_agree; lia.
    + destruct (Z.eq_dec a 0%Z) as [-> | Hne].
      { unfold PyFloat.to_double in Hd. simpl in Hd. injection Hd as <- <-.
        rewrite Z.div_0_l by lia. reflexivity. }
      unfold rounded_up_to_a_candidate, just_below in Hzone.
      cbn [negb andb] in Hzone.
      apply orb_false_iff in Hzone as [Hzone H21].
      apply orb_false_iff in Hzone as [H11 H17].
      assert (Hagree : forall c k,
                 (k = 3 \/ k = 4)%Z -> (2 ^ k < c < 2 ^ (k + 1))%Z ->
                 (((c * 2 ^ (53 - k) - 1) * b <=? 2 ^ (53 - k) * a)
                  && (2 ^ (53 - k) * a <? c * 2 ^ (53 - k) * b))%Z = false ->
                 (PyFloat.truncate q u <? c)%Z = (a / b <? c)%Z).
      { intros c k Hk Hc Hout. apply SuggestionFacts.ltb_agree.
        pose proof (FloatFacts.truncate_exact a b c k q u ltac:(lia) Hb Hk Hc Hd)
          as Hexact.
        assert (Hp : (0 < 2 ^ (53 - k))%Z) by (apply Z.pow_pos_nonneg; lia).
        apply andb_false_iff in Hout.
        rewrite Z.leb_gt, Z.ltb_ge in Hout.
        split; intros H.
        - apply Z.div_le_lower_bound; [exact Hb|].
          assert (~ (2 ^ (53 - k) * a < (c * 2 ^ (53 - k) - 1) * b)%Z)
            by (intros H'; apply Hexact in H'; lia).
          nia.
        - assert (c * b <= a)%Z.
          { pose proof (Z.mul_div_le a b Hb).
            assert (c * b <= b * (a / b))%Z by nia. lia. }
          assert (~ (PyFloat.truncate q u < c)%Z)
            by (intros H'; apply Hexact in H'; nia).
          lia. }
      apply SuggestionFacts.suggested_above_agree.
      * apply (Hagree 11%Z 3%Z); [now left | simpl; lia | exact H11].
      * apply (Hagree 17%Z 4%Z); [now right | simpl; lia | exact H17].
      * apply (Hagree 21%Z 4%Z); [now right | simpl; lia | exact H21].
  - unfold filter_suggestions, PyFloat.int_of_float.
    intros [-> | ->]; reflexivity.
Qed.

(** Where the floor is missed: a version that [float] rounds up to a candidate gets
the candidates strictly greater than that candidate, although the
candidate itself is greater than its floor. *)
Lemma rounded_up_version_loses_the_candidate
    (current_version : string) (m e c h k : Z) :
  PyFloat.read current_version = Some (PyFloat.Finite false m e) ->
  In (c, h, k) [(11, 50, 3); (17, 49, 4); (21, 49, 4)]%Z ->
  just_below c h (fst (PyFloat.fraction m e)) (snd (PyFloat.fraction m e)) = true ->
  (exact_floor false m e = c - 1)%Z
  /\ filter_suggestions current_version candidates = Ok (suggested_above c).
Proof.
  intros Hread Hc Hzone.
  pose proof (SuggestionFacts.read_nonneg _ _ _ _ Hread) as Hm.
  destruct (SuggestionFacts.fraction_sign m e Hm) as [Ha Hb].
  unfold filter_suggestions, PyFloat.int_of_float, exact_floor.
  rewrite Hread.
  destruct (PyFloat.fraction m e) as [a b]; simpl fst in *; simpl snd in *.
  unfold just_below in Hzone. apply andb_true_iff in Hzone as [Hlow Hhigh].
  apply Z.leb_le in Hlow. apply Z.ltb_lt in Hhigh.
  assert (Hck : (h = 53 - k /\ (k = 3 \/ k = 4) /\ 2 ^ k < c < 2 ^ (k + 1)
                 /\ 8 < c < 32 /\ 49 <= h <= 50)%Z).
  { destruct Hc as [[= <- <- <-] | [[= <- <- <-] | [[= <- <- <-] | []]]];
      repeat split; simpl; lia || (now left) || (now right). }
  destruct Hck as (-> & Hk & Hbin & Hc32 & Hh).
  assert (Hp : (0 < 2 ^ (53 - k))%Z) by (apply Z.pow_pos_nonneg; lia).
  assert (Hp1 : (2 <= 2 ^ (53 - k))%Z).
  { replace (53 - k)%Z with (Z.succ (52 - k)) by lia.
    rewrite Z.pow_succ_r by lia.
    assert (0 < 2 ^ (52 - k))%Z by (apply Z.pow_pos_nonneg; lia). lia. }
  assert (Hab : (a < c * b)%Z) by nia.
  assert (Hab' : ((c - 1) * b <= a)%Z) by nia.
  assert (Hapos : (0 < a)%Z) by nia.
  assert (Hfloor : (a / b = c - 1)%Z).
  { apply Z.le_antisymm.
    - apply Z.lt_succ_r. apply Z.div_lt_upper_bound; lia.
    - apply Z.div_le_lower_bound; lia. }
  split; [exact Hfloor|].
  assert (Hfin : (a < 2 ^ 1023 * b)%Z).
  { assert (32 <= 2 ^ 1023)%Z
      by (change 32%Z with (2 ^ 5)%Z; apply Z.pow_le_mono_r; lia).
    nia. }
  destruct (FloatFacts.to_double_finite a b Ha Hb Hfin) as (q & u & Hd & Hpos).
  rewrite Hd. cbv beta iota delta [bind].
  rewrite SuggestionFacts.keep_greater_candidates. f_equal.
  pose proof (FloatFacts.truncate_exact a b c k q u Hapos Hb Hk Hbin Hd) as Hexact.
  assert (Hreach : (c <= PyFloat.truncate q u)%Z).
  { destruct (Z_lt_le_dec (PyFloat.truncate q u) c) as [Hlt|]; [|assumption].
    apply Hexact in Hlt. lia. }
  assert (Hstay : forall c', (0 < c' < 32 -> c < c' ->
                              PyFloat.truncate q u < c')%Z).
  { intros c' Hc' Hlt.
    apply (proj2 (FloatFacts.truncate_against a b c' q u Hapos Hb Hc' Hd)).
    change (2 ^ 48)%Z with 281474976710656%Z. nia. }
  apply SuggestionFacts.suggested_above_agree; apply SuggestionFacts.ltb_agree.
  all: split; intros H; [|lia].
  all: match goal with
       | |- (?c0 <= ?c1)%Z =>
           destruct (Z_le_gt_dec c0 c1) as [|Hgt]; [assumption|];
           specialize (Hstay c0 ltac:(lia) ltac:(lia)); lia
       end.
Qed.

Lemma suggestions_follow_the_floor_witness :
  filter_suggestions "1.8" candidates = Ok ["11"; "17"; "21"]
  /\ filter_suggestions "21.99999999999999999999" candidates = Ok []
  /\ filter_suggestions "5.99999999999999999999" candidates = Ok ["11"; "17"; "21"]
  /\ filter_suggestions "1e308" candidates = Ok []
  /\ filter_suggestions "Unknown" candidates = Ok ["11"; "17"; "21"].
Proof.
  split; [|split; [|split; [|split]]].
  - etransitivity;
      [apply (proj1 (suggestions_follow_the_floor "1.8" false 18 (-1)));
       vm_compute; reflexivity|].
    vm_compute. reflexivity.
  - etransitivity;
      [apply (proj1 (suggestions_follow_the_floor "21.99999999999999999999"
                       false 2199999999999999999999 (-20)));
       vm_compute; reflexivity|].
    vm_compute. reflexivity.
  - etransitivity;
      [apply (proj1 (suggestions_follow_the_floor "5.99999999999999999999"
                       false 599999999999999999999 (-20)));
       vm_compute; reflexivity|].
    vm_compute. reflexivity.
  - etransitivity;
      [apply (proj1 (suggestions_follow_the_floor "1e308" false 1 308));
       vm_compute; reflexivity|].
    vm_compute. reflexivity.
  - apply (proj2 (suggestions_follow_the_floor "Unknown" false 0 0)).
    left. reflexivity.
Defined.

(** The examples of the specification. *)
Lemma suggestion_examples :
  filter_suggestions "1.8" candidates = Ok ["11"; "17"; "21"]
  /\ filter_suggestions "17" candidates = Ok ["21"]
  /\ filter_suggestions "21" candidates = Ok []
  /\ filter_suggestions "Unknown" candidates = Ok ["11"; "17"; "21"].
Proof. repeat split; vm_compute; reflexivity. Qed.

(** A version just below 17 is read as the double 17.0: its floor is 16,
the candidate 17 is greater than that, and 17 is not suggested. *)
Lemma rounding_drops_a_candidate :
  PyFloat.read "16.99999999999999999999"
  = Some (PyFloat.Finite false 1699999999999999999999 (-20))
  /\ exact_floor false 1699999999999999999999 (-20) = 16%Z
  /\ suggested_above 16 = ["17"; "21"]
  /\ rounded_up_to_a_candidate false
       (fst (PyFloat.fraction 1699999999999999999999 (-20)))
       (snd (PyFloat.fraction 1699999999999999999999 (-20))) = true
  /\ filter_suggestions "16.99999999999999999999" candidates = Ok ["21"].
Proof. repeat split; vm_compute; reflexivity. Qed.

(** A version that [float] reads as infinite leaves the function by
[OverflowError], which line 150 does not catch. *)
Lemma infinite_version_raises :
  filter_suggestions "1e400" candidates
  = Raise (OverflowError "cannot convert float infinity to integer")
  /\ filter_suggestions "inf" candidates
     = Raise (OverflowError "cannot convert float infinity to integer").
Proof. split; vm_compute; reflexivity. Qed.

(** ** The Maven manifest *)

Lemma first_property_skips (name : string) (before rest : list ET.element) :
  Forall (sets_nothing name) before ->
  first_property name (before ++ rest) = first_property name rest.
Proof.
  induction 1 as [|prop before Hprop _ IH]; [reflexivity|].
  simpl. destruct (ET.find (ET.qualified mvn name) prop) as [el|] eqn:Hfind;
    [|exact IH].
  destruct (Hprop el Hfind) as [-> | ->]; exact IH.
Qed.

Lemma first_property_found (name : string) (before after : list ET.element)
    (prop el : ET.element) (t : string) :
  Forall (sets_nothing name) before ->
  ET.find (ET.qualified mvn name) prop = Some el ->
  ET.text el = Some t -> t <> "" ->
  first_property name (before ++ prop :: after) = Some (strip t).
Proof.
  intros Hbefore Hfind Htext Hne.
  rewrite (first_property_skips name before _ Hbefore). simpl.
  rewrite Hfind, Htext. destruct t; [now elim Hne | reflexivity].
Qed.

(** When the first [properties] element of the manifest that sets
[maven.compiler.source] to a non-empty text sets it to [t], the detected
version is [t] without surrounding white space, whatever [java.version]
is set to and whatever the Gradle script says, unless that is the word
[Unknown]; the function returns it together with the suggestions filtered
for it. *)
Lemma compiler_source_wins
    (root : ET.element) (gradle : manifest string)
    (before after : list ET.element) (prop el : ET.element) (t : string) :
  ET.findall_below (ET.qualified mvn "properties") root
  = (before ++ prop :: after)%list ->
  Forall (sets_nothing "maven.compiler.source") before ->
  ET.find (ET.qualified mvn "maven.compiler.source") prop = Some el ->
  ET.text el = Some t ->
  t <> "" ->
  strip t <> "Unknown" ->
  maven_version root "Unknown" = strip t
  /\ detect_java_version (Present root) gradle
     = (try! suggestions := filter_suggestions (strip t) candidates in
        Ok {| current_version := strip t; suggested_versions := suggestions |}).
Proof.
  intros Hprops Hbefore Hfind Htext Hne Hknown.
  assert (Hmaven : maven_version root "Unknown" = strip t).
  { unfold maven_version. rewrite Hprops.
    rewrite (first_property_found _ _ _ _ _ _ Hbefore Hfind Htext Hne).
    simpl assign_found.
    destruct (String.eqb_spec (strip t) "Unknown"); [contradiction | reflexivity]. }
  split; [exact Hmaven|].
  unfold detect_java_version. rewrite Hmaven.
  destruct (String.eqb_spec (strip t) "Unknown"); [contradiction | reflexivity].
Qed.

(** A manifest that sets [maven.compiler.source] to 1.8 and [java.version]
to 17: the version detected is 1.8. *)
Lemma compiler_source_example :
  maven_version (Example.pom_both " 1.8 " "17") "Unknown" = "1.8"
  /\ detect_java_version (Present (Example.pom_both " 1.8 " "17")) Absent
     = Ok {| current_version := "1.8"; suggested_versions := ["11"; "17"; "21"] |}.
Proof.
  apply (compiler_source_wins (Example.pom_both " 1.8 " "17") Absent [] []
           (Example.pom_element "properties" None
              [Example.pom_element "java.version" (Some "17") [];
               Example.pom_element "maven.compiler.source" (Some " 1.8 ") []])
           (Example.pom_element "maven.compiler.source" (Some " 1.8 ") [])
           " 1.8 ").
  - reflexivity.
  - constructor.
  - reflexivity.
  - reflexivity.
  - discriminate.
  - vm_compute. discriminate.
Qed.

(** C8, where the code departs from it. The manifest sets both
[maven.compiler.source] and [java.version], neither of them empty, and the
version detected is the one of [java.version], not the one of
[maven.compiler.source]: the text of [maven.compiler.source] is the word
[Unknown], which line 108 takes for "nothing found yet", so that
[java.version] is consulted although [maven.compiler.source] is there. *)
Theorem unknown_source_falls_through :
  (exists props source java,
      ET.findall_below (ET.qualified mvn "properties") (Example.pom_both "Unknown" "17")
      = [props]
      /\ ET.find (ET.qualified mvn "maven.compiler.source") props = Some source
      /\ ET.text source = Some "Unknown"
      /\ ET.find (ET.qualified mvn "java.version") props = Some java
      /\ ET.text java = Some "17")
  /\ maven_version (Example.pom_both "Unknown" "17") "Unknown" = "17"
  /\ detect_java_version (Present (Example.pom_both "Unknown" "17")) Absent
     = Ok {| current_version := "17"; suggested_versions := ["21"] |}.
Proof.
  split; [|split].
  - eexists; eexists; eexists. repeat split; reflexivity.
  - vm_compute. reflexivity.
  - vm_compute. reflexivity.
Qed.

(** [find] returns the first child of the name: when the first
[maven.compiler.source] of a [properties] element has no text, a second
one with the text 1.8 is not looked at and [java.version] decides. *)
Lemma empty_compiler_source_hides_the_next :
  first_property "maven.compiler.source" [Example.pom_repeated_properties] = None
  /\ detect_java_version (Present Example.pom_repeated) Absent
     = Ok {| current_version := "17"; suggested_versions := ["21"] |}.
Proof. split; vm_compute; reflexivity. Qed.

(** ** The file collector *)

Lemma split_head_prefix (s h : string) (t : list string) :
  split "/" s = h :: t -> String.prefix h s = true.
Proof.
  revert h t; induction s as [|c s IH]; intros h t.
  - now intros [= <- _].
  - rewrite split_cons. destruct (Ascii.eqb c "/").
    + now intros [= <- _].
    + destruct (split "/" s) as [|h' t'] eqn:Hs.
      * intros [= <- _]. simpl.
        destruct (ascii_dec c c); [now destruct s | contradiction].
      * intros [= <- _]. simpl.
        destruct (ascii_dec c c); [now apply (IH h' t') | contradiction].
Qed.

(** A name of a path is a piece of the path. *)
Lemma split_contains (s c : string) :
  In c (split "/" s) -> contains c s = true.
Proof.
  induction s as [|x s IH].
  - intros [<- | []]. reflexivity.
  - rewrite split_cons. intros Hin.
    assert (Htail : In c (split "/" s) -> contains c (String x s) = true).
    { intros H. simpl. rewrite (IH H). apply orb_true_r. }
    destruct (Ascii.eqb x "/").
    + destruct Hin as [<- | Hin]; [reflexivity | now apply Htail].
    + destruct (split "/" s) as [|h t] eqn:Hs.
      * destruct Hin as [<- | []].
        simpl. destruct (ascii_dec x x); [|contradiction].
        now destruct s.
      * destruct Hin as [<- | Hin]; [|apply Htail; now right].
        simpl. destruct (ascii_dec x x); [|contradiction].
        now rewrite (split_head_prefix s h t Hs).
Qed.

Lemma build_segment_contains (dir : string) :
  has_build_segment dir = true ->
  contains "build" dir || contains "target" dir = true.
Proof.
  unfold has_build_segment. intros (c & Hin & Hc)%existsb_exists.
  apply orb_true_iff in Hc as [->%String.eqb_eq | ->%String.eqb_eq].
  - now rewrite (split_contains dir "build" Hin).
  - rewrite (split_contains dir "target" Hin). apply orb_true_r.
Qed.

(** The collector returns only files the specification asks for. *)
Lemma find_java_files_sound (project_dir : string) (t : tree) (p : string) :
  In p (find_java_files project_dir t) -> In p (find_java_files_spec project_dir t).
Proof.
  unfold find_java_files, find_java_files_spec.
  rewrite !in_flat_map. intros ([[root dirs] files] & Hentry & Hp).
  exists (root, dirs, files). split; [exact Hentry|].
  apply in_flat_map in Hp as (file & Hfile & Hp).
  destruct (endswith file ".java") eqn:Hjava; [|contradiction].
  destruct (negb (contains "build" root) && negb (contains "target" root)) eqn:Hclean;
    [|contradiction].
  destruct Hp as [<- | []].
  apply in_map, List.filter_In. split; [exact Hfile|].
  rewrite Hjava. simpl.
  destruct (has_build_segment root) eqn:Hseg; [|reflexivity].
  apply build_segment_contains in Hseg.
  apply andb_true_iff in Hclean as [H1 H2].
  apply negb_true_iff in H1, H2. rewrite H1, H2 in Hseg. discriminate.
Qed.

(** C9, where the code departs from it. The file src/builder/Foo.java has
no path component named [build] or [target], the specification keeps it,
and the collector leaves it out: line 166 looks for the letters [build]
anywhere in the directory path. *)
Theorem collector_drops_builder_directory :
  has_build_segment "/tmp/proj/src/builder" = false
  /\ find_java_files_spec "/tmp/proj" Example.source_tree
     = ["/tmp/proj/src/builder/Foo.java"; "/tmp/proj/src/main/A.java"]
  /\ find_java_files "/tmp/proj" Example.source_tree
     = ["/tmp/proj/src/main/A.java"].
Proof. repeat split; vm_compute; reflexivity. Qed.

(** * Further properties *)

(** ** The pass, one iteration at a time *)

Section PassFacts.

Context {os : FileSystem}.
Variable repo_path : string.

(** A pass that returns has come to the end of the lines. *)
Lemma scan_reaches (lines : list string) : forall st st',
  scan repo_path st lines = Ok st' -> reaches repo_path st lines st' [].
Proof.
  induction lines as [lines IH] using (induction_ltof1 _ (@length string)).
  intros st st'. destruct lines as [|line rest].
  - rewrite scan_nil. intros [= <-]. constructor.
  - rewrite scan_cons.
    destruct (loop_body repo_path st line rest) as [[st1 rest1]|e] eqn:Hstep;
      [|discriminate].
    intros H. eapply reaches_next; [exact Hstep|]. apply IH; [|exact H].
    unfold ltof. apply loop_body_length in Hstep. simpl. lia.
Qed.

(** The ways an iteration of the outer loop ends: nothing done, a block
handed to the write, a block found cut off. *)
Lemma loop_body_cases (st : apply_state) (line : string) (rest : list string)
    (st1 : apply_state) (rest1 : list string) :
  loop_body repo_path st line rest = Ok (st1, rest1) ->
  (st1 = st /\ rest1 = rest)
  \/ (is_file_header line = true
      /\ path_check repo_path (OsPath.join repo_path (header_path line)) = Ok true
      /\ ((exists opening body closing,
             rest = (opening :: body ++ closing :: rest1)%list
             /\ st1 = save_file st (OsPath.join repo_path (header_path line)) body)
          \/ (st1 = incomplete st (header_path line) /\ rest1 = []))).
Proof.
  unfold loop_body.
  destruct (is_file_header line) eqn:Hh; [|intros [= <- <-]; now left].
  destruct (path_check repo_path _) as [kept|e] eqn:Hc; [|discriminate].
  cbv beta iota delta [bind].
  destruct kept; simpl negb; cbv iota; [|intros [= <- <-]; now left].
  destruct rest as [|opening after]; [intros [= <- <-]; now left|].
  destruct (is_fence opening); [|intros [= <- <-]; now left].
  pose proof (collect_spec after) as (Happ & _ & _).
  destruct (collect after) as [body [|closing after_closing]]; simpl in Happ;
    intros [= <- <-]; right; (split; [reflexivity|]); (split; [reflexivity|]).
  - now right.
  - left. exists opening, body, closing. now rewrite Happ at 1.
Qed.

Lemma loop_body_suffix (st : apply_state) (line : string) (rest : list string)
    (st1 : apply_state) (rest1 : list string) :
  loop_body repo_path st line rest = Ok (st1, rest1) ->
  exists before, rest = (before ++ rest1)%list.
Proof.
  intros [[_ ->] | (_ & _ & [(opening & body & closing & -> & _) | [_ ->]])]%loop_body_cases.
  - now exists [].
  - exists (opening :: body ++ [closing])%list. simpl. now rewrite <- app_assoc.
  - exists rest. now rewrite app_nil_r.
Qed.

Lemma reaches_suffix (st st' : apply_state) (lines lines' : list string) :
  reaches repo_path st lines st' lines' ->
  exists before, lines = (before ++ lines')%list.
Proof.
  induction 1 as [st lines|st line rest st1 rest1 st2 rest2 Hstep _ [mid ->]].
  - now exists [].
  - destruct (loop_body_suffix _ _ _ _ _ Hstep) as [before ->].
    exists (line :: before ++ mid)%list. simpl. now rewrite <- app_assoc.
Qed.

Lemma reaches_end (st st' : apply_state) (lines' : list string) :
  reaches repo_path st [] st' lines' -> st' = st /\ lines' = [].
Proof. now inversion 1. Qed.

(** What [save_file] does to the variables of the pass. *)
Lemma save_file_cases (st : apply_state) (abs_file_path : string)
    (body : list string) :
  write_attempts (save_file st abs_file_path body)
  = (write_attempts st ++ [(abs_file_path, PyStr.join nl body)])%list
  /\ ((updated_files_count (save_file st abs_file_path body)
       = updated_files_count st + 1
       /\ errors_applying_changes (save_file st abs_file_path body)
          = errors_applying_changes st)
      \/ (updated_files_count (save_file st abs_file_path body)
          = updated_files_count st
          /\ exists e,
               errors_applying_changes (save_file st abs_file_path body)
               = (errors_applying_changes st
                  ++ [String.append "Could not write changes to "
                        (String.append (OsPath.basename abs_file_path)
                           (String.append ": " (exn_str e)))])%list)).
Proof.
  unfold save_file.
  destruct (makedirs _ _) as [d1 [e|]]; simpl.
  - split; [reflexivity|]. right. split; [reflexivity|]. now exists e.
  - destruct (write_text _ _ _) as [d2 [e|]]; simpl.
    + split; [reflexivity|]. right. split; [reflexivity|]. now exists e.
    + split; [reflexivity|]. now left.
Qed.

End PassFacts.

(** ** More on strings *)

Lemma substring_cut (s : string) : forall n,
  n <= String.length s ->
  s = substring 0 n s ++ substring n (String.length s - n) s.
Proof.
  induction s as [|c s IH]; intros n Hn.
  - simpl in Hn. now replace n with 0 by lia.
  - destruct n as [|n].
    + cbn [substring String.length Nat.sub]. now rewrite substring_whole.
    + simpl in Hn. cbn [substring String.length Nat.sub].
      simpl. f_equal. apply IH. lia.
Qed.

Lemma endswith_split (s suf : string) :
  endswith s suf = true -> exists a, s = a ++ suf.
Proof.
  unfold endswith. intros [Hlen Heq]%andb_true_iff.
  apply Nat.leb_le in Hlen. apply String.eqb_eq in Heq.
  exists (substring 0 (String.length s - String.length suf) s).
  pose proof (substring_cut s (String.length s - String.length suf) ltac:(lia))
    as Hcut.
  replace (String.length s - (String.length s - String.length suf))
    with (String.length suf) in Hcut by lia.
  now rewrite Heq in Hcut.
Qed.

Lemma endswith_behind (a s suf : string) :
  endswith s suf = true -> endswith (a ++ s) suf = true.
Proof.
  intros [b ->]%endswith_split. rewrite <- append_assoc. apply endswith_append.
Qed.

Lemma append_last_inj (a b : string) (x y : ascii) :
  a ++ String x "" = b ++ String y "" -> x = y.
Proof.
  revert b. induction a as [|c a IH]; intros [|d b]; simpl.
  - now intros [= ->].
  - intros [= _ H]. now destruct b.
  - intros [= _ H]. now destruct a.
  - intros [= _ H]. now apply (IH b).
Qed.

Lemma prefix_trans (a b c : string) :
  String.prefix a b = true -> String.prefix b c = true -> String.prefix a c = true.
Proof.
  intros [s ->]%prefix_split [t ->]%prefix_split.
  rewrite append_assoc. apply prefix_append.
Qed.

Lemma contains_prefix (needle hay : string) :
  String.prefix needle hay = true -> contains needle hay = true.
Proof. intros H. destruct hay; cbn [contains]; now rewrite H. Qed.

Lemma contains_ahead (needle a b : string) :
  contains needle a = true -> contains needle (a ++ b) = true.
Proof.
  induction a as [|c a IH].
  - simpl. rewrite orb_false_r. intros H.
    destruct needle; [now destruct b | discriminate].
  - cbn [contains]. intros [H | H]%orb_true_iff.
    + apply prefix_split in H as [s Hs].
      change (String c a ++ b) with (String c (a ++ b)).
      replace (String c (a ++ b)) with (needle ++ s ++ b)
        by (rewrite <- append_assoc, <- Hs; reflexivity).
      apply contains_prefix, prefix_append.
    + change (String c a ++ b) with (String c (a ++ b)).
      cbn [contains]. rewrite (IH H). apply orb_true_r.
Qed.

Lemma contains_behind (needle a b : string) :
  contains needle b = true -> contains needle (a ++ b) = true.
Proof.
  intros H. induction a as [|c a IH]; [exact H|].
  change (String c a ++ b) with (String c (a ++ b)).
  cbn [contains]. rewrite IH. apply orb_true_r.
Qed.

Lemma mem_char_append (c : ascii) (a b : string) :
  mem_char c (a ++ b) = mem_char c a || mem_char c b.
Proof.
  induction a as [|d a IH]; [reflexivity|].
  change (String d a ++ b) with (String d (a ++ b)).
  cbn [mem_char]. now rewrite IH, orb_assoc.
Qed.

(** ** Invariants of the pass *)

Section PassInvariants.

Context {os : FileSystem}.
Variable repo_path : string.

Lemma write_failure_message (name text : string) :
  write_failure
    (String.append "Could not write changes to "
       (String.append name (String.append ": " text))) = true.
Proof. apply prefix_append. Qed.

Lemma incomplete_message (name : string) :
  write_failure ("LLM response for " ++ name ++ " was incomplete.") = false.
Proof. reflexivity. Qed.

Lemma incomplete_cases (st : apply_state) (file_path_relative : string) :
  updated_files_count (incomplete st file_path_relative) = updated_files_count st
  /\ write_attempts (incomplete st file_path_relative) = write_attempts st
  /\ errors_applying_changes (incomplete st file_path_relative)
     = (errors_applying_changes st
        ++ [String.append "LLM response for "
              (String.append (OsPath.basename file_path_relative)
                 " was incomplete.")])%list.
Proof. now repeat split. Qed.

Lemma filter_snoc (p : string -> bool) (l : list string) (x : string) :
  List.filter p (l ++ [x])%list
  = (List.filter p l ++ (if p x then [x] else []))%list.
Proof. now rewrite List.filter_app. Qed.

Lemma reaches_accounts (st st' : apply_state) (lines lines' : list string) :
  reaches repo_path st lines st' lines' ->
  updated_files_count st'
  + length (List.filter write_failure (errors_applying_changes st'))
  + length (write_attempts st)
  = updated_files_count st
    + length (List.filter write_failure (errors_applying_changes st))
    + length (write_attempts st')
  /\ (length (List.filter (fun e => negb (write_failure e))
                (errors_applying_changes st'))
      = length (List.filter (fun e => negb (write_failure e))
                  (errors_applying_changes st))
      \/ (length (List.filter (fun e => negb (write_failure e))
                    (errors_applying_changes st'))
          = S (length (List.filter (fun e => negb (write_failure e))
                         (errors_applying_changes st)))
          /\ lines' = [])).
Proof.
  induction 1 as [st lines|st line rest st1 rest1 st2 rest2 Hstep Hreach [IH1 IH2]].
  - split; [reflexivity | now left].
  - apply loop_body_cases in Hstep
      as [[-> ->] | (_ & _ & [(opening & body & closing & _ & ->) | [-> ->]])].
    + now split.
    + destruct (save_file_cases st (OsPath.join repo_path (header_path line)) body)
        as (Hatt & [[Hcount Herr] | (Hcount & e & Herr)]);
        rewrite Hatt, Hcount, Herr in *.
      * rewrite length_app in IH1. simpl in IH1. split; [lia | exact IH2].
      * rewrite !filter_snoc, write_failure_message in IH1, IH2.
        simpl in IH1, IH2. rewrite !length_app in IH1. simpl in IH1.
        rewrite app_nil_r in IH2. split; [lia | exact IH2].
    + apply reaches_end in Hreach as [-> ->].
      destruct (incomplete_cases st (header_path line)) as (-> & -> & ->).
      rewrite !filter_snoc, incomplete_message. simpl.
      rewrite app_nil_r, length_app. simpl. split; [lia|].
      right. split; [lia | reflexivity].
Qed.

(** Every error the pass records is one of the two messages of lines 218
and 224. *)
Lemma reaches_error_shapes (st st' : apply_state) (lines lines' : list string) :
  reaches repo_path st lines st' lines' ->
  Forall (fun e => write_failure e = true
                   \/ startswith e "LLM response for " = true)
         (errors_applying_changes st) ->
  Forall (fun e => write_failure e = true
                   \/ startswith e "LLM response for " = true)
         (errors_applying_changes st').
Proof.
  induction 1 as [st lines|st line rest st1 rest1 st2 rest2 Hstep Hreach IH];
    [auto|].
  intros Hst. apply IH.
  apply loop_body_cases in Hstep
    as [[-> ->] | (_ & _ & [(opening & body & closing & _ & ->) | [-> ->]])].
  - exact Hst.
  - destruct (save_file_cases st (OsPath.join repo_path (header_path line)) body)
      as (_ & [[_ Herr] | (_ & e & Herr)]); rewrite Herr; [exact Hst|].
    apply Forall_app. split; [exact Hst|]. constructor; [|constructor].
    left. apply write_failure_message.
  - destruct (incomplete_cases st (header_path line)) as (_ & _ & ->).
    apply Forall_app. split; [exact Hst|].
    constructor; [|constructor]. right. apply prefix_append.
Qed.

(** Every write attempt is for the path of a header line of the text. *)
Lemma reaches_provenance (text : list string) (st st' : apply_state)
    (lines lines' : list string) :
  reaches repo_path st lines st' lines' ->
  (forall line, In line lines -> In line text) ->
  Forall (fun a => exists line,
              In line text /\ is_file_header line = true
              /\ fst a = OsPath.join repo_path (header_path line))
         (write_attempts st) ->
  Forall (fun a => exists line,
              In line text /\ is_file_header line = true
              /\ fst a = OsPath.join repo_path (header_path line))
         (write_attempts st').
Proof.
  induction 1 as [st lines|st line rest st1 rest1 st2 rest2 Hstep Hreach IH];
    [auto|].
  intros Hin Hst.
  destruct (loop_body_suffix repo_path _ _ _ _ _ Hstep) as [before Hrest].
  apply IH.
  - intros x Hx. apply Hin. right. rewrite Hrest. apply in_or_app. now right.
  - apply loop_body_cases in Hstep
      as [[-> _] | (Hheader & _ & [(opening & body & closing & _ & ->) | [-> _]])].
    + exact Hst.
    + destruct (save_file_cases st (OsPath.join repo_path (header_path line)) body)
        as (-> & _).
      apply Forall_app. split; [exact Hst|]. constructor; [|constructor].
      exists line. repeat split; [|exact Hheader]. apply Hin. now left.
    + exact Hst.
Qed.

(** A path that passed the check of line 191 resolves inside the root. *)
Lemma checked_path_is_inside (root_real abs_file_path : string) :
  realpath repo_path = Ok root_real ->
  canonical root_real ->
  (forall p r, realpath p = Ok r -> canonical r) ->
  path_check repo_path abs_file_path = Ok true ->
  exists file_real,
    realpath abs_file_path = Ok file_real /\ inside root_real file_real.
Proof.
  intros Hroot Hr Hcanon Hcheck.
  destruct (realpath abs_file_path) as [file_real|e] eqn:Hfile.
  - exists file_real. split; [reflexivity|].
    destruct (path_check_inside repo_path _ _ _ Hroot Hfile Hr (Hcanon _ _ Hfile))
      as (kept & Hk & Hiff).
    rewrite Hcheck in Hk. injection Hk as <-. now apply Hiff.
  - unfold path_check in Hcheck. rewrite Hroot in Hcheck.
    cbv beta iota delta [bind] in Hcheck. rewrite Hfile in Hcheck.
    discriminate Hcheck.
Qed.

(** Every write attempt is for a path that resolves inside the root. *)
Lemma reaches_inside (root_real : string) (st st' : apply_state)
    (lines lines' : list string) :
  realpath repo_path = Ok root_real ->
  canonical root_real ->
  (forall p r, realpath p = Ok r -> canonical r) ->
  reaches repo_path st lines st' lines' ->
  Forall (fun a => exists file_real,
              realpath (fst a) = Ok file_real /\ inside root_real file_real)
         (write_attempts st) ->
  Forall (fun a => exists file_real,
              realpath (fst a) = Ok file_real /\ inside root_real file_real)
         (write_attempts st').
Proof.
  intros Hroot Hr Hcanon.
  induction 1 as [st lines|st line rest st1 rest1 st2 rest2 Hstep Hreach IH];
    [auto|].
  intros Hst. apply IH.
  apply loop_body_cases in Hstep
    as [[-> _] | (_ & Hcheck & [(opening & body & closing & _ & ->) | [-> _]])].
  - exact Hst.
  - destruct (save_file_cases st (OsPath.join repo_path (header_path line)) body)
      as (-> & _).
    apply Forall_app. split; [exact Hst|]. constructor; [|constructor].
    exact (checked_path_is_inside _ _ Hroot Hr Hcanon Hcheck).
  - exact Hst.
Qed.

(** X1. At every point of the pass, whether it goes on to return or to
raise, every write attempted so far is for the path of a header line of
the completion text, joined to the root, and that path, made canonical,
lies inside the canonical root. *)
Theorem writes_come_from_headers_inside_the_root
    (root_real : string) (fs : FS) (llm_output : string)
    (st : apply_state) (rest : list string) :
  realpath repo_path = Ok root_real ->
  canonical root_real ->
  (forall p r, realpath p = Ok r -> canonical r) ->
  reaches repo_path (initial fs) (splitlines llm_output) st rest ->
  Forall (fun a => exists line file_real,
              In line (splitlines llm_output)
              /\ is_file_header line = true
              /\ fst a = OsPath.join repo_path (header_path line)
              /\ realpath (fst a) = Ok file_real
              /\ inside root_real file_real)
         (write_attempts st).
Proof.
  intros Hroot Hr Hcanon Hreach.
  pose proof (reaches_inside root_real _ _ _ _ Hroot Hr Hcanon Hreach
                (List.Forall_nil _)) as Hinside.
  pose proof (reaches_provenance (splitlines llm_output) _ _ _ _ Hreach
                (fun _ H => H) (List.Forall_nil _)) as Hfrom.
  rewrite Forall_forall in *. intros a Ha.
  destruct (Hinside a Ha) as (file_real & Hreal & Hin).
  destruct (Hfrom a Ha) as (line & Hline & Hheader & Hpath).
  now exists line, file_real.
Qed.

(** X2. When the pass returns, every write it attempted is accounted for
once: the files counted and the write errors reported add up to the
attempts. Beyond the write errors the list holds at most one error, that
of a block that was cut off. *)
Theorem pass_accounts_for_every_attempt
    (fs : FS) (target_version llm_output : string)
    (st : apply_state) (answer : response) :
  apply_llm_output repo_path fs target_version llm_output = Ok (st, answer) ->
  updated_files_count st
  + length (List.filter write_failure (errors_applying_changes st))
  = length (write_attempts st)
  /\ length (List.filter (fun e => negb (write_failure e))
               (errors_applying_changes st)) <= 1.
Proof.
  unfold apply_llm_output.
  destruct (scan repo_path (initial fs) (splitlines llm_output)) as [st'|e] eqn:Hscan;
    [|discriminate].
  cbv beta iota delta [bind]. intros [= <- _].
  destruct (reaches_accounts _ _ _ _ (scan_reaches repo_path _ _ _ Hscan))
    as [H1 H2].
  simpl in H1, H2. split; [lia|]. destruct H2 as [-> | [-> _]]; lia.
Qed.

(** X3. The pass returns whenever [os.path.realpath] returns an absolute
path for the root and for the path of every header line of the text. *)
Theorem pass_returns_when_header_paths_resolve
    (fs : FS) (target_version llm_output : string) :
  (exists r, realpath repo_path = Ok r /\ OsPath.isabs r = true) ->
  (forall line, In line (splitlines llm_output) ->
                is_file_header line = true ->
                exists r, realpath (OsPath.join repo_path (header_path line)) = Ok r
                          /\ OsPath.isabs r = true) ->
  exists st, apply_llm_output repo_path fs target_version llm_output
             = Ok (st, respond target_version st).
Proof.
  intros (root & Hroot & Habs) Hlines.
  enough (Hscan : forall lines,
             (forall line, In line lines -> In line (splitlines llm_output)) ->
             forall st, exists st', scan repo_path st lines = Ok st').
  { destruct (Hscan (splitlines llm_output) (fun _ H => H) (initial fs)) as [st Hst].
    exists st. unfold apply_llm_output. now rewrite Hst. }
  intros lines.
  induction lines as [lines IH] using (induction_ltof1 _ (@length string)).
  intros Hin st. destruct lines as [|line rest].
  - exists st. apply scan_nil.
  - assert (Hstep : exists st1 rest1,
               loop_body repo_path st line rest = Ok (st1, rest1)).
    { unfold loop_body.
      destruct (is_file_header line) eqn:Hheader; [|now eexists; eexists].
      destruct (Hlines line (Hin line (or_introl eq_refl)) Hheader)
        as (a & Ha & Haabs).
      unfold path_check. rewrite Hroot, Ha. cbv beta iota delta [bind].
      rewrite (commonpath_pair root a Habs Haabs).
      cbv beta iota delta [bind].
      destruct (String.eqb _ _); simpl negb; cbv iota; [|now eexists; eexists].
      destruct rest as [|opening after]; [now eexists; eexists|].
      destruct (is_fence opening); [|now eexists; eexists].
      destruct (collect after) as [body [|closing after_closing]];
        now eexists; eexists. }
    destruct Hstep as (st1 & rest1 & Hstep).
    rewrite scan_cons, Hstep.
    destruct (loop_body_suffix repo_path _ _ _ _ _ Hstep) as [before Hrest].
    apply IH.
    + unfold ltof. apply loop_body_length in Hstep. simpl. lia.
    + intros x Hx. apply Hin. right. rewrite Hrest. apply in_or_app. now right.
Qed.

End PassInvariants.

(** ** The prompt's context, given back as the answer *)

Lemma one_line_append (a b : string) :
  one_line (a ++ b) = one_line a && one_line b.
Proof.
  induction a as [|c a IH]; simpl; [reflexivity|].
  now rewrite IH, andb_assoc.
Qed.

Lemma splitlines_from_one_line (a s : string) : forall cur,
  one_line a = true ->
  splitlines_from cur (a ++ s) = splitlines_from (cur ++ a) s.
Proof.
  induction a as [|c a IH]; intros cur; simpl.
  - now rewrite append_nil_r.
  - intros [Hc Ha]%andb_true_iff. apply negb_true_iff in Hc. rewrite Hc.
    rewrite (IH _ Ha). unfold snoc. now rewrite append_assoc.
Qed.

Lemma splitlines_from_nl (cur s : string) :
  splitlines_from cur (nl ++ s) = cur :: splitlines_from "" s.
Proof. reflexivity. Qed.

Lemma splitlines_line (a s : string) :
  one_line a = true ->
  splitlines_from "" (a ++ nl ++ s) = a :: splitlines_from "" s.
Proof.
  intros Ha. now rewrite (splitlines_from_one_line _ _ _ Ha), splitlines_from_nl.
Qed.

Lemma splitlines_join (body : list string) (s : string) :
  body <> [] ->
  Forall (fun l => one_line l = true) body ->
  splitlines_from "" (PyStr.join nl body ++ nl ++ s)
  = (body ++ splitlines_from "" s)%list.
Proof.
  intros Hne Hbody. induction Hbody as [|l body Hl Hbody IH]; [congruence|].
  destruct body as [|l' body].
  - simpl. now apply splitlines_line.
  - change (PyStr.join nl (l :: l' :: body))
      with (l ++ nl ++ PyStr.join nl (l' :: body)).
    rewrite !append_assoc, (splitlines_line _ _ Hl). simpl. f_equal.
    now apply IH.
Qed.

Lemma one_line_label (file_path : string) :
  one_line file_path = true -> one_line (context_label file_path) = true.
Proof.
  intros H. unfold context_label. now rewrite !one_line_append, H.
Qed.

(** The lines of one section, whatever follows it. *)
Lemma splitlines_section (file_path : string) (body : list string) (s : string) :
  one_line file_path = true ->
  body <> [] ->
  Forall (fun l => one_line l = true) body ->
  splitlines_from "" (context_section file_path (PyStr.join nl body) ++ s)
  = (echoed_block file_path body ++ splitlines_from "" s)%list.
Proof.
  intros Hp Hne Hbody. unfold context_section, echoed_block.
  rewrite !append_assoc.
  rewrite (splitlines_line _ _ (one_line_label _ Hp)).
  rewrite (splitlines_line fence _ eq_refl).
  rewrite (splitlines_join _ _ Hne Hbody).
  rewrite (splitlines_line fence _ eq_refl), splitlines_from_nl.
  simpl. now rewrite <- app_assoc.
Qed.

(** The lines of the last section once [strip] has taken its end away. *)
Lemma splitlines_last_section (file_path : string) (body : list string) :
  one_line file_path = true ->
  body <> [] ->
  Forall (fun l => one_line l = true) body ->
  splitlines_from ""
    (context_label file_path ++ nl ++ fence ++ nl ++ PyStr.join nl body ++ nl ++ fence)
  = (context_label file_path :: fence :: body ++ [fence])%list.
Proof.
  intros Hp Hne Hbody.
  rewrite (splitlines_line _ _ (one_line_label _ Hp)).
  rewrite (splitlines_line fence _ eq_refl).
  now rewrite (splitlines_join _ _ Hne Hbody).
Qed.

Lemma context_sections_cons (item : string * string)
    (items : list (string * string)) :
  context_sections (item :: items)
  = context_section (fst item) (snd item) ++ context_sections items.
Proof.
  unfold context_sections. simpl.
  destruct (map _ items) as [|x xs] eqn:H; simpl; [now rewrite append_nil_r|].
  reflexivity.
Qed.

Lemma rstrip_append_blank (a after : string) :
  blank after = true ->
  rstrip_by isspace (a ++ after) = rstrip_by isspace a.
Proof.
  intros Hb. induction a as [|c a IH]; simpl.
  - now apply rstrip_blank.
  - now rewrite IH.
Qed.

Lemma rstrip_ends_marked (a : string) (c : ascii) :
  isspace c = false ->
  rstrip_by isspace (a ++ String c "") = a ++ String c "".
Proof.
  intros Hc. induction a as [|d a IH]; simpl.
  - now rewrite Hc.
  - rewrite IH. destruct (a ++ String c "") eqn:H; [|reflexivity].
    now destruct a.
Qed.

(** [strip] takes the two newlines at the end of the context away, and
nothing else. *)
Lemma strip_context (items : list (string * string)) (file_path content : string) :
  strip (context_sections items ++ context_section file_path content)
  = context_sections items
    ++ context_label file_path ++ nl ++ fence ++ nl ++ content ++ nl ++ fence.
Proof.
  unfold strip.
  assert (Hl : lstrip_by isspace
                 (context_sections items ++ context_section file_path content)
               = context_sections items ++ context_section file_path content).
  { destruct items as [|item items]; [reflexivity|].
    now rewrite context_sections_cons. }
  rewrite Hl. unfold context_section.
  replace (context_sections items
           ++ context_label file_path ++ nl ++ fence ++ nl ++ content ++ nl
           ++ fence ++ nl ++ nl)
    with ((context_sections items
           ++ context_label file_path ++ nl ++ fence ++ nl ++ content ++ nl ++ "``")
          ++ String "`" "" ++ (nl ++ nl))
    by (now rewrite !append_assoc).
  rewrite <- append_assoc, (rstrip_append_blank _ (nl ++ nl) eq_refl).
  rewrite (rstrip_ends_marked _ "`" eq_refl).
  now rewrite !append_assoc.
Qed.

Lemma context_sections_snoc (items : list (string * string))
    (item : string * string) :
  context_sections (items ++ [item])
  = context_sections items ++ context_section (fst item) (snd item).
Proof.
  induction items as [|x items IH].
  - simpl. rewrite context_sections_cons. apply append_nil_r.
  - simpl. now rewrite !context_sections_cons, IH, append_assoc.
Qed.

Lemma splitlines_sections (files : list (string * list string)) (s : string) :
  Forall (fun f => one_line (fst f) = true /\ snd f <> []
                   /\ Forall (fun l => one_line l = true) (snd f)) files ->
  splitlines_from "" (context_of files ++ s)
  = (flat_map (fun f => echoed_block (fst f) (snd f)) files
     ++ splitlines_from "" s)%list.
Proof.
  unfold context_of. induction 1 as [|f files (Hp & Hne & Hbody) _ IH];
    [reflexivity|].
  cbn [map flat_map]. rewrite context_sections_cons. cbn [fst snd].
  rewrite append_assoc, (splitlines_section _ _ _ Hp Hne Hbody), IH.
  now rewrite <- app_assoc.
Qed.

Section Echo.

Context {os : FileSystem}.
Variable repo_path : string.

(** A section whose path passes the check of line 191 is handed to the
write, and the pass goes on behind it. *)
Lemma scan_echoed_block (st : apply_state) (file_path : string)
    (body rest : list string) :
  strip file_path = file_path ->
  path_check repo_path (OsPath.join repo_path file_path) = Ok true ->
  Forall (fun l => ~ fence_line l) body ->
  scan repo_path st (echoed_block file_path body ++ rest)
  = scan repo_path (save_file st (OsPath.join repo_path file_path) body) rest.
Proof.
  intros Hstrip Hcheck Hbody.
  destruct (context_label_header file_path) as [Hheader Hpath].
  rewrite Hstrip in Hpath.
  assert (Hfence : fence_line fence) by (apply is_fence_iff; reflexivity).
  unfold echoed_block. simpl. rewrite scan_cons.
  replace ((body ++ [fence; ""]) ++ rest)%list
    with (body ++ fence :: "" :: rest)%list by (now rewrite <- app_assoc).
  rewrite (loop_body_block repo_path st _ fence fence body ("" :: rest) Hheader);
    [| now rewrite Hpath | exact Hfence | exact Hbody | exact Hfence].
  rewrite Hpath, scan_cons. now rewrite loop_body_plain.
Qed.

Lemma scan_last_block (st : apply_state) (file_path : string) (body : list string) :
  strip file_path = file_path ->
  path_check repo_path (OsPath.join repo_path file_path) = Ok true ->
  Forall (fun l => ~ fence_line l) body ->
  scan repo_path st (context_label file_path :: fence :: body ++ [fence])
  = Ok (save_file st (OsPath.join repo_path file_path) body).
Proof.
  intros Hstrip Hcheck Hbody.
  destruct (context_label_header file_path) as [Hheader Hpath].
  rewrite Hstrip in Hpath.
  assert (Hfence : fence_line fence) by (apply is_fence_iff; reflexivity).
  rewrite scan_cons.
  rewrite (loop_body_block repo_path st _ fence fence body [] Hheader);
    [| now rewrite Hpath | exact Hfence | exact Hbody | exact Hfence].
  now rewrite Hpath, scan_nil.
Qed.

(** X4. When the completion text is the context of the prompt as the
endpoint built it (lines 141-143) and then stripped (line 162), the pass
hands every file of the context to the write with the very content the
prompt showed, in the order of the prompt. This holds for files whose
paths pass the check of line 191, hold no line boundary and have no white
space at either end, and whose content has the newline as its only line
boundary and no fence line. *)
Theorem echoed_context_is_written_back
    (files : list (string * list string)) (fs : FS) (target_version : string) :
  Forall (fun f =>
            strip (fst f) = fst f
            /\ one_line (fst f) = true
            /\ path_check repo_path (OsPath.join repo_path (fst f)) = Ok true
            /\ snd f <> []
            /\ Forall (fun l => one_line l = true /\ ~ fence_line l) (snd f))
         files ->
  apply_llm_output repo_path fs target_version (strip (context_of files))
  = Ok (write_back repo_path files (initial fs),
        respond target_version (write_back repo_path files (initial fs)))
  /\ write_attempts (write_back repo_path files (initial fs))
     = map (fun f => (OsPath.join repo_path (fst f), PyStr.join nl (snd f))) files.
Proof.
  intros Hfiles.
  assert (Hattempts : forall st,
             write_attempts (write_back repo_path files st)
             = (write_attempts st
                ++ map (fun f => (OsPath.join repo_path (fst f),
                                  PyStr.join nl (snd f))) files)%list).
  { clear Hfiles. unfold write_back.
    induction files as [|f files' IH]; intros st; simpl.
    - now rewrite app_nil_r.
    - rewrite IH. destruct (save_file_cases st (OsPath.join repo_path (fst f)) (snd f))
        as [-> _].
      now rewrite <- app_assoc. }
  split; [|exact (Hattempts (initial fs))].
  unfold apply_llm_output.
  enough (Hscan : forall st,
             scan repo_path st (splitlines (strip (context_of files)))
             = Ok (write_back repo_path files st))
    by now rewrite Hscan.
  destruct files as [|f0 files0]; [intros st; apply scan_nil|].
  destruct (exists_last (l := f0 :: files0)) as (init & [file_path body] & Heq);
    [discriminate|].
  rewrite Heq in *. clear Heq f0 files0 Hattempts.
  apply Forall_app in Hfiles as [Hinit Hlast].
  apply Forall_inv in Hlast. cbn [fst snd] in Hlast.
  destruct Hlast as (Hstrip & Hp & Hcheck & Hne & Hbody).
  apply Forall_and_inv in Hbody as [Hbody Hnofence].
  intros st. unfold context_of at 1. rewrite map_app. cbn [map fst snd].
  rewrite context_sections_snoc. cbn [fst snd].
  rewrite strip_context. fold (context_of init).
  unfold splitlines. rewrite splitlines_sections.
  - rewrite (splitlines_last_section _ _ Hp Hne Hbody).
    unfold write_back. rewrite fold_left_app. cbn [fold_left fst snd].
    fold (write_back repo_path init st).
    clear Hp Hne Hbody. revert st.
    induction Hinit as [|f init (Hs & _ & Hc & _ & Hb) _ IH]; intros st.
    + now apply scan_last_block.
    + cbn [flat_map]. rewrite <- app_assoc.
      rewrite (scan_echoed_block _ _ _ _ Hs Hc).
      * apply IH.
      * apply Forall_and_inv in Hb. apply Hb.
  - eapply List.Forall_impl; [|exact Hinit].
    intros f (_ & Hp' & _ & Hne' & Hb'). repeat split; [exact Hp' | exact Hne' |].
    apply Forall_and_inv in Hb'. apply Hb'.
Qed.

End Echo.

(** ** Version detection, beyond the manifest *)

Lemma filter_suggestions_tail (current_version : string) (kept : list string) :
  filter_suggestions current_version candidates = Ok kept ->
  (exists k, kept = skipn k candidates) /\ ~ In current_version kept.
Proof.
  unfold filter_suggestions.
  destruct (PyFloat.int_of_float current_version) as [major|e] eqn:Hmajor;
    cbv beta iota delta [bind].
  - rewrite SuggestionFacts.keep_greater_candidates. intros [= <-].
    unfold suggested_above, candidate_values. cbn [List.filter map fst snd].
    destruct (Z.ltb_spec major 11), (Z.ltb_spec major 17), (Z.ltb_spec major 21);
      try lia; cbn [map fst].
    + split; [now exists 0|].
      intros [<- | [<- | [<- | []]]]; vm_compute in Hmajor;
        injection Hmajor as <-; lia.
    + split; [now exists 1|].
      intros [<- | [<- | []]]; vm_compute in Hmajor; injection Hmajor as <-; lia.
    + split; [now exists 2|].
      intros [<- | []]; vm_compute in Hmajor; injection Hmajor as <-; lia.
    + split; [now exists 3 | intros []].
  - destruct e; try discriminate. intros [= <-].
    split; [now exists 0|].
    intros [<- | [<- | [<- | []]]]; vm_compute in Hmajor; discriminate.
Qed.

Lemma detect_java_version_filter (pom : manifest ET.element)
    (gradle : manifest string) (info : version_info) :
  detect_java_version pom gradle = Ok info ->
  filter_suggestions (current_version info) candidates
  = Ok (suggested_versions info).
Proof.
  unfold detect_java_version.
  match goal with
  | |- context [filter_suggestions ?v candidates] =>
      destruct (filter_suggestions v candidates) as [kept|e] eqn:Hkept
  end; cbv beta iota delta [bind]; [|discriminate].
  now intros [= <-].
Qed.

(** X5. Whatever the manifests hold, the versions [detect_java_version]
suggests are a tail of the list 11, 17, 21 (if 17 is suggested, so is 21),
and the detected version itself is never among them. *)
Theorem suggestions_are_a_tail_without_the_current_version
    (pom : manifest ET.element) (gradle : manifest string) (info : version_info) :
  detect_java_version pom gradle = Ok info ->
  (exists k, suggested_versions info = skipn k candidates)
  /\ ~ In (current_version info) (suggested_versions info).
Proof.
  intros H. now apply detect_java_version_filter, filter_suggestions_tail in H.
Qed.

(** *** The line of build.gradle *)

Lemma no_space_append (a b : string) :
  no_space (a ++ b) = no_space a && no_space b.
Proof.
  induction a as [|c a IH]; simpl; [reflexivity|].
  now rewrite IH, andb_assoc.
Qed.

Lemma split_whitespace_no_space (s : string) : forall cur,
  no_space cur = true ->
  Forall (fun part => no_space part = true) (split_whitespace_from cur s).
Proof.
  induction s as [|c s IH]; intros cur Hcur; simpl.
  - destruct cur; [constructor | now repeat constructor].
  - destruct (isspace c) eqn:Hc.
    + destruct cur; [now apply IH | constructor; [exact Hcur | now apply IH]].
    + apply IH. unfold snoc. rewrite no_space_append, Hcur. simpl. now rewrite Hc.
Qed.

Lemma no_space_lstrip (p : ascii -> bool) (s : string) :
  no_space s = true -> no_space (lstrip_by p s) = true.
Proof.
  induction s as [|c s IH]; simpl; [reflexivity|].
  intros H. destruct (p c); [|exact H].
  apply andb_true_iff in H as [_ H]. now apply IH.
Qed.

Lemma no_space_rstrip (p : ascii -> bool) (s : string) :
  no_space s = true -> no_space (rstrip_by p s) = true.
Proof.
  induction s as [|c s IH]; simpl; [reflexivity|].
  intros [Hc Hs]%andb_true_iff. specialize (IH Hs).
  destruct (rstrip_by p s) as [|d r].
  - destruct (p c); [reflexivity | simpl; now rewrite Hc].
  - simpl. simpl in IH. now rewrite Hc, IH.
Qed.

Lemma no_space_strip_chars (chars s : string) :
  no_space s = true -> no_space (strip_chars chars s) = true.
Proof.
  intros H. unfold strip_chars. now apply no_space_rstrip, no_space_lstrip.
Qed.

Lemma last_Forall (P : string -> Prop) (l : list string) (d : string) :
  P d -> Forall P l -> P (List.last l d).
Proof.
  intros Hd. induction 1 as [|x l Hx Hl IH]; [exact Hd|].
  destruct l; [exact Hx | exact IH].
Qed.

(** What is left of [rstrip_by p] does not end in a character of [p]. *)
Lemma rstrip_by_end (p : ascii -> bool) (s : string) :
  rstrip_by p s = ""
  \/ exists a c, rstrip_by p s = a ++ String c "" /\ p c = false.
Proof.
  induction s as [|c s IH]; simpl; [now left|].
  destruct (rstrip_by p s) as [|d r] eqn:Hr.
  - destruct (p c) eqn:Hc; [now left|]. right. now exists "", c.
  - right. destruct IH as [IH | (a & x & IH & Hx)]; [discriminate|].
    exists (String c a), x. simpl. now rewrite IH.
Qed.

Lemma lstrip_by_start (p : ascii -> bool) (s : string) :
  match lstrip_by p s with
  | EmptyString => True
  | String c _ => p c = false
  end.
Proof.
  induction s as [|c s IH]; simpl; [exact I|].
  destruct (p c) eqn:Hc; [exact IH | exact Hc].
Qed.

Lemma rstrip_by_keeps_start (p : ascii -> bool) (s : string) :
  match rstrip_by p s, s with
  | String c _, String d _ => c = d
  | String _ _, EmptyString => False
  | EmptyString, _ => True
  end.
Proof.
  destruct s as [|d s]; simpl; [exact I|].
  destruct (rstrip_by p s); [destruct (p d)|]; reflexivity || exact I.
Qed.

(** X6. A version read from build.gradle is a bare token: it is not
empty, holds no white space, and has no semicolon at either end. *)
Theorem gradle_version_is_a_bare_token (lines : list string) (version : string) :
  gradle_scan lines = Some version ->
  version <> ""
  /\ no_space version = true
  /\ startswith version ";" = false
  /\ endswith version ";" = false.
Proof.
  induction lines as [|line lines IH]; [discriminate|].
  cbn [gradle_scan].
  destruct (startswith (strip line) "sourceCompatibility"
            || startswith (strip line) "targetCompatibility"); [|exact IH].
  destruct (1 <? length (split_whitespace (strip line))); [|exact IH].
  set (token := strip_chars quote
                  (strip_chars "'" (List.last (split_whitespace (strip line)) ""))).
  assert (Htoken : no_space token = true).
  { unfold token. apply no_space_strip_chars, no_space_strip_chars.
    apply last_Forall; [reflexivity|].
    now apply split_whitespace_no_space. }
  destruct (strip_chars ";" token) as [|c r] eqn:Hversion; [exact IH|].
  intros [= <-]. split; [discriminate|].
  split; [rewrite <- Hversion; now apply no_space_strip_chars|].
  unfold strip_chars in Hversion.
  pose proof (lstrip_by_start (fun c => mem_char c ";") token) as Hstart.
  pose proof (rstrip_by_keeps_start (fun c => mem_char c ";")
                (lstrip_by (fun c => mem_char c ";") token)) as Hkeep.
  rewrite Hversion in Hkeep.
  destruct (lstrip_by (fun c => mem_char c ";") token) as [|d rest];
    [contradiction|].
  subst d. split.
  - destruct (startswith (String c r) ";") eqn:H; [|reflexivity].
    apply prefix_split in H as [s [= -> _]]. discriminate Hstart.
  - destruct (endswith (String c r) ";") eqn:H; [|reflexivity].
    apply endswith_split in H as [b Hb].
    destruct (rstrip_by_end (fun c => mem_char c ";") (String c rest))
      as [Hempty | (a & x & Hend & Hx)]; rewrite Hversion in *; [discriminate|].
    rewrite Hend in Hb. apply append_last_inj in Hb as ->. discriminate Hx.
Qed.

(** ** The file collector on a directory tree *)

Lemma tree_induction (P : tree -> Prop) :
  (forall dirs files, Forall (fun d => P (snd d)) dirs -> P (Node dirs files)) ->
  forall t, P t.
Proof.
  intros H. fix IH 1. intros [dirs files]. apply H.
  induction dirs as [|[name sub] dirs IHdirs]; constructor;
    [apply IH | exact IHdirs].
Qed.

Lemma proper_node (dirs : list (string * tree)) (files : list string) :
  proper_tree (Node dirs files)
  <-> Forall (fun name => name <> "" /\ no_slash name) files
      /\ Forall (fun d => (fst d <> "" /\ no_slash (fst d)) /\ proper_tree (snd d))
                dirs.
Proof.
  unfold proper_tree. cbn [entry_names]. rewrite Forall_app.
  apply and_iff_compat_l.
  induction dirs as [|[name sub] dirs IH].
  - split; constructor.
  - rewrite List.Forall_cons_iff, Forall_app, IH, List.Forall_cons_iff.
    cbn [fst snd]. tauto.
Qed.

Lemma walk_node (top : string) (dirs : list (string * tree)) (files : list string)
    (entry : string * list string * list string) :
  In entry (walk top (Node dirs files))
  <-> entry = (top, map fst dirs, files)
      \/ exists d, In d dirs /\ In entry (walk (OsPath.join top (fst d)) (snd d)).
Proof.
  cbn [walk]. cbn [In].
  match goal with
  | |- _ \/ In entry (?below dirs) <-> _ =>
      enough (Hbelow : forall l, In entry (below l)
                <-> exists d, In d l
                      /\ In entry (walk (OsPath.join top (fst d)) (snd d)))
  end.
  { rewrite Hbelow. split; (intros [H | H]; [left; now symmetry | now right]). }
  induction l as [|[name sub] l IH].
  - split; [intros [] | intros (d & [] & _)].
  - rewrite in_app_iff, IH. split.
    + intros [H | (d & Hd & H)].
      * exists (name, sub). split; [now left | exact H].
      * exists d. split; [now right | exact H].
    + intros (d & [<- | Hd] & H); [now left|]. right. now exists d.
Qed.

Lemma entry_not_absolute (name : string) :
  no_slash name -> startswith name "/" = false.
Proof.
  destruct name as [|c name]; [reflexivity|].
  intros [Hc _]%no_slash_cons.
  destruct (startswith (String c name) "/") eqn:H; [|reflexivity].
  apply prefix_split in H as [s [= -> _]]. discriminate Hc.
Qed.

Lemma join_entry (top name : string) :
  no_slash name ->
  exists sep, OsPath.join top name = top ++ sep ++ name.
Proof.
  intros H. unfold OsPath.join. rewrite (entry_not_absolute _ H).
  destruct (_ || _); [now exists "" | now exists "/"].
Qed.

(** Every directory [os.walk] lists has the top directory at the start of
its path, and holds names of directory entries. *)
Lemma walk_roots (t : tree) : forall top entry,
  proper_tree t ->
  In entry (walk top t) ->
  String.prefix top (fst (fst entry)) = true
  /\ Forall (fun name => name <> "" /\ no_slash name) (snd entry).
Proof.
  induction t as [dirs files IH] using tree_induction.
  intros top entry [Hfiles Hdirs]%proper_node [-> | (d & Hd & Hin)]%walk_node.
  - cbn [fst snd]. split; [|exact Hfiles].
    rewrite <- (append_nil_r top) at 2. apply prefix_append.
  - rewrite List.Forall_forall in IH, Hdirs.
    destruct (Hdirs d Hd) as [[_ Hname] Hsub].
    destruct (IH d Hd _ _ Hsub Hin) as [Hprefix Hnames].
    split; [|exact Hnames].
    destruct (join_entry top (fst d) Hname) as [sep Hjoin].
    eapply prefix_trans; [|exact Hprefix]. rewrite Hjoin. apply prefix_append.
Qed.

Lemma flat_map_nil {A B : Type} (f : A -> list B) (l : list A) :
  (forall x, In x l -> f x = []) -> flat_map f l = [].
Proof.
  induction l as [|x l IH]; intros H; [reflexivity|].
  cbn [flat_map]. rewrite (H x (or_introl eq_refl)), IH; [reflexivity|].
  intros y Hy. apply H. now right.
Qed.

(** The collector finds nothing when the test of line 166 fails for every
directory. *)
Lemma find_java_files_nil (project_dir : string) (t : tree) :
  (forall entry, In entry (walk project_dir t) ->
     contains "build" (fst (fst entry)) || contains "target" (fst (fst entry))
     = true) ->
  find_java_files project_dir t = [].
Proof.
  intros H. unfold find_java_files. apply flat_map_nil.
  intros [[root dirs] files] Hentry. specialize (H _ Hentry). cbn [fst] in H.
  apply flat_map_nil. intros file _.
  destruct (endswith file ".java"); [|reflexivity].
  apply orb_true_iff in H as [-> | ->]; [reflexivity|].
  now rewrite andb_false_r.
Qed.

Lemma walk_roots_contain (needle project_dir : string) (t : tree) :
  proper_tree t ->
  contains needle project_dir = true ->
  forall entry, In entry (walk project_dir t) ->
                contains needle (fst (fst entry)) = true.
Proof.
  intros Ht Hdir entry Hentry.
  destruct (walk_roots t _ _ Ht Hentry) as [[s ->]%prefix_split _].
  now apply contains_ahead.
Qed.

(** X7. Every path [find_java_files] returns ends in [.java] and has the
project directory at its start; the directory it was found in has neither
[build] nor [target] anywhere in its path. *)
Theorem java_files_lie_under_the_project_directory
    (project_dir : string) (t : tree) (p : string) :
  proper_tree t ->
  In p (find_java_files project_dir t) ->
  endswith p ".java" = true
  /\ String.prefix project_dir p = true
  /\ exists root file,
       p = OsPath.join root file
       /\ no_slash file
       /\ contains "build" root = false
       /\ contains "target" root = false.
Proof.
  intros Ht. unfold find_java_files.
  intros ([[root dirs] files] & Hentry & Hp)%in_flat_map.
  apply in_flat_map in Hp as (file & Hfile & Hp).
  destruct (endswith file ".java") eqn:Hjava; [|contradiction].
  destruct (negb (contains "build" root) && negb (contains "target" root))
    eqn:Hclean; [|contradiction].
  destruct Hp as [<- | []].
  destruct (walk_roots t _ _ Ht Hentry) as [Hprefix Hnames].
  cbn [fst snd] in Hprefix, Hnames.
  rewrite List.Forall_forall in Hnames. destruct (Hnames file Hfile) as [_ Hname].
  destruct (join_entry root file Hname) as [sep Hjoin].
  apply andb_true_iff in Hclean as [H1%negb_true_iff H2%negb_true_iff].
  repeat split.
  - rewrite Hjoin, <- append_assoc. now apply endswith_behind.
  - eapply prefix_trans; [exact Hprefix|]. rewrite Hjoin. apply prefix_append.
  - now exists root, file.
Qed.

(** X8. When the path of the project directory itself has [build] or
[target] in it, [find_java_files] returns no file at all, whatever the
directory holds. *)
Theorem build_in_the_project_path_hides_every_file
    (project_dir : string) (t : tree) :
  proper_tree t ->
  contains "build" project_dir || contains "target" project_dir = true ->
  find_java_files project_dir t = [].
Proof.
  intros Ht H. apply find_java_files_nil. intros entry Hentry.
  apply orb_true_iff in H as [H | H].
  - now rewrite (walk_roots_contain _ _ _ Ht H entry Hentry).
  - rewrite (walk_roots_contain _ _ _ Ht H entry Hentry). apply orb_true_r.
Qed.

(** ** Cloning *)

(** [replace] brings in no character that is neither in the string nor in
the replacement. *)
Lemma replace_from_keeps_out (c : ascii) (old new : string) (s : string) :
  mem_char c new = false -> mem_char c s = false ->
  forall skip, mem_char c (PyText.replace_from old new skip s) = false.
Proof.
  intros Hnew. induction s as [|d s IH]; intros Hs skip; [reflexivity|].
  cbn [mem_char] in Hs. apply orb_false_iff in Hs as [Hd Hs].
  cbn [PyText.replace_from]. destruct skip as [|skip]; [|now apply IH].
  destruct (String.prefix old (String d s)).
  - rewrite mem_char_append, Hnew. now apply IH.
  - cbn [mem_char]. rewrite Hd. now apply IH.
Qed.

(** Replacing a character takes every occurrence of it away. *)
Lemma replace_char_removes (c : ascii) (new s : string) :
  mem_char c new = false ->
  mem_char c (PyText.replace (String c "") new s) = false.
Proof.
  intros Hnew. unfold PyText.replace. induction s as [|d s IH]; [reflexivity|].
  cbn [PyText.replace_from String.length Nat.sub].
  destruct (String.prefix (String c "") (String d s)) eqn:Hp.
  - rewrite mem_char_append, Hnew. exact IH.
  - cbn [mem_char]. rewrite IH, orb_false_r.
    destruct (Ascii.eqb_spec c d) as [->|]; [|reflexivity].
    pose proof (prefix_append (String d "") s) as Hd.
    change (String d "" ++ s) with (String d s) in Hd. congruence.
Qed.

Lemma repo_name_safe_characters (git_url : string) :
  mem_char "/" (repo_name_safe git_url) = false
  /\ mem_char "." (repo_name_safe git_url) = false
  /\ mem_char "-" (repo_name_safe git_url) = false.
Proof.
  unfold repo_name_safe.
  set (name := List.last (split "/" (PyText.rstrip_slash git_url)) "").
  assert (Hname : mem_char "/" name = false)
    by (apply (last_Forall no_slash); [reflexivity | apply split_no_slash]).
  repeat split.
  - unfold PyText.replace. repeat (apply replace_from_keeps_out; [reflexivity|]).
    exact Hname.
  - unfold PyText.replace at 1. apply replace_from_keeps_out; [reflexivity|].
    now apply replace_char_removes.
  - now apply replace_char_removes.
Qed.

(** X9. The directory [clone_and_detect] clones into is [/tmp/] followed
by a name that holds no slash, no dot and no hyphen, whatever the URL: no
URL makes it a directory outside [/tmp] or deeper than one level. *)
Theorem clone_directory_is_a_child_of_tmp (git_url : string) :
  clone_dir_of git_url = "/tmp/" ++ repo_name_safe git_url
  /\ mem_char "/" (repo_name_safe git_url) = false
  /\ mem_char "." (repo_name_safe git_url) = false
  /\ mem_char "-" (repo_name_safe git_url) = false.
Proof.
  destruct (repo_name_safe_characters git_url) as (Hslash & Hdot & Hhyphen).
  repeat split; [|exact Hslash | exact Hdot | exact Hhyphen].
  unfold clone_dir_of, OsPath.join.
  now rewrite (entry_not_absolute _ Hslash).
Qed.

(** X10. A project whose name, made safe, has [build] or [target] in it is
cloned into a directory where [find_java_files] finds no file: the test of
line 166 of utils.py fails for the whole working copy. *)
Theorem project_named_build_has_no_java_files (git_url : string) (t : tree) :
  proper_tree t ->
  contains "build" (repo_name_safe git_url)
  || contains "target" (repo_name_safe git_url) = true ->
  find_java_files (clone_dir_of git_url) t = [].
Proof.
  intros Ht H. apply find_java_files_nil. intros entry Hentry.
  destruct (repo_name_safe_characters git_url) as (Hslash & _).
  assert (Hdir : clone_dir_of git_url = "/tmp/" ++ repo_name_safe git_url).
  { unfold clone_dir_of, OsPath.join. now rewrite (entry_not_absolute _ Hslash). }
  apply orb_true_iff in H as [H | H];
    apply (contains_behind _ "/tmp/") in H; rewrite <- Hdir in H;
    rewrite (walk_roots_contain _ _ _ Ht H entry Hentry);
    [reflexivity | apply orb_true_r].
Qed.

Lemma rstrip_by_kept (p : ascii -> bool) (s : string) :
  (forall c, p c = true -> mem_char c s = false) -> rstrip_by p s = s.
Proof.
  induction s as [|d s IH]; intros H; [reflexivity|].
  cbn [rstrip_by]. rewrite IH.
  - destruct s; [|reflexivity].
    destruct (p d) eqn:Hd; [|reflexivity].
    specialize (H d Hd). cbn [mem_char] in H.
    now rewrite Ascii.eqb_refl in H.
  - intros c Hc. specialize (H c Hc). cbn [mem_char] in H.
    now apply orb_false_iff in H.
Qed.

Lemma rstrip_by_behind (p : ascii -> bool) (a b : string) :
  rstrip_by p b <> "" -> rstrip_by p (a ++ b) = a ++ rstrip_by p b.
Proof.
  intros Hb. induction a as [|c a IH]; [reflexivity|].
  change (String c a ++ b) with (String c (a ++ b)).
  cbn [rstrip_by]. rewrite IH.
  change (String c a ++ rstrip_by p b) with (String c (a ++ rstrip_by p b)).
  destruct (a ++ rstrip_by p b) eqn:H; [|reflexivity].
  destruct a; [now elim Hb | discriminate H].
Qed.

Lemma last_app_nonempty (l1 l2 : list string) (d : string) :
  l2 <> [] -> List.last (l1 ++ l2) d = List.last l2 d.
Proof.
  intros H. induction l1 as [|x l1 IH]; [reflexivity|].
  cbn [app]. destruct (l1 ++ l2)%list eqn:Happ; [|exact IH].
  apply app_eq_nil in Happ as [_ ->]. now elim H.
Qed.

(** The name of line 29 is made from what follows the last slash. *)
Lemma repo_name_safe_last_segment (before name : string) :
  name <> "" -> no_slash name ->
  repo_name_safe (before ++ "/" ++ name) = repo_name_safe name.
Proof.
  intros Hne Hname.
  assert (Hkept : PyText.rstrip_slash name = name).
  { apply rstrip_by_kept. intros c Hc. apply Ascii.eqb_eq in Hc as ->. exact Hname. }
  unfold repo_name_safe.
  replace (PyText.rstrip_slash (before ++ "/" ++ name)) with (before ++ "/" ++ name).
  - rewrite Hkept, split_append_sep, (split_one _ Hname).
    now rewrite last_app_nonempty.
  - unfold PyText.rstrip_slash in *.
    rewrite <- append_assoc, rstrip_by_behind; rewrite Hkept; [reflexivity | exact Hne].
Qed.

(** X11. The clone directory is made from the last segment of the URL
alone: two projects whose URLs end in the same name are cloned into the
same directory, whatever comes before it (the host, the group). *)
Theorem clone_directory_depends_on_the_last_segment_only
    (before before' name : string) :
  name <> "" -> no_slash name ->
  clone_dir_of (before ++ "/" ++ name) = clone_dir_of (before' ++ "/" ++ name).
Proof.
  intros Hne Hname. unfold clone_dir_of.
  now rewrite !repo_name_safe_last_segment.
Qed.

Section Cloning.

Context {os : FileSystem} {host : Service os}.

(** X12. [clone_repo] reports success exactly when the URL starts with
[https://gitlab.com/] and the one git command it ran (a pull when the
directory exists, a clone otherwise) ended with exit code 0. For any other
URL it runs no command: the state is as it was and the message names the
URL. *)
Theorem clone_succeeds_exactly_on_exit_code_zero
    (git_url clone_dir : string) (fs : FS) :
  (fst (snd (clone_repo git_url clone_dir fs)) = true
   <-> startswith git_url "https://gitlab.com/" = true
       /\ exists stdout stderr,
            snd (subprocess_run (git_command git_url clone_dir fs) fs)
            = Completed 0 stdout stderr)
  /\ (startswith git_url "https://gitlab.com/" = true ->
      fst (clone_repo git_url clone_dir fs)
      = fst (subprocess_run (git_command git_url clone_dir fs) fs))
  /\ (startswith git_url "https://gitlab.com/" = false ->
      clone_repo git_url clone_dir fs
      = (fs, (false, "Unsupported Git URL format: " ++ git_url))).
Proof.
  unfold clone_repo, git_command.
  destruct (startswith git_url "https://gitlab.com/");
    [|repeat split; try discriminate; now intros [? _]].
  destruct (path_exists clone_dir fs);
    (destruct (subprocess_run _ fs) as [fs' [returncode out err| |e]]; cbn [fst snd];
     [destruct (Z.eqb_spec returncode 0) as [->|Hcode]; cbn [negb fst snd]|..];
     (split; [split|split; [reflexivity | discriminate]]);
     try discriminate; try (intros [_ (? & ? & [=])]; congruence);
     try (now intros _; split; [reflexivity | eexists; eexists])).
Qed.

End Cloning.

(** ** The endpoints and the page *)

Lemma errors_is_no_message (e : string) :
  write_failure e = true \/ startswith e "LLM response for " = true ->
  String.eqb "errors" e = false.
Proof.
  intros H. destruct (String.eqb_spec "errors" e) as [<-|]; [|reflexivity].
  destruct H as [H | H]; vm_compute in H; discriminate H.
Qed.

Lemma show_respond {os : FileSystem} (target_version : string) (st : apply_state) :
  Forall (fun e => write_failure e = true
                   \/ startswith e "LLM response for " = true)
         (errors_applying_changes st) ->
  show_upgrade_result (respond target_version st)
  = [st_success ("Upgrade Status: " ++ status (respond target_version st))].
Proof.
  intros Hshape. unfold respond.
  destruct (errors_applying_changes st) as [|e es]; [reflexivity|].
  unfold show_upgrade_result. cbn [details status].
  assert (Hnone : existsb (String.eqb "errors") (e :: es) = false).
  { induction Hshape as [|x l Hx _ IH]; [reflexivity|].
    cbn [existsb]. now rewrite (errors_is_no_message x Hx). }
  now rewrite Hnone.
Qed.

(** *** The dictionary of file contents *)

Lemma dict_set_keys (k v x : string) (d : list (string * string)) :
  In x (map fst (PyText.dict_set k v d)) -> x = k \/ In x (map fst d).
Proof.
  induction d as [|[a b] d IH]; cbn [PyText.dict_set map fst In].
  - intros [<- | []]. left. reflexivity.
  - destruct (String.eqb_spec a k) as [->|Hne]; cbn [map fst In].
    + intros [<- | H]; [now left | right; now right].
    + intros [<- | H]; [right; now left|].
      destruct (IH H) as [-> | H']; [now left | right; now right].
Qed.

Lemma dict_set_nodup (k v : string) (d : list (string * string)) :
  List.NoDup (map fst d) -> List.NoDup (map fst (PyText.dict_set k v d)).
Proof.
  induction d as [|[a b] d IH]; cbn [PyText.dict_set map fst].
  - intros _. apply List.NoDup_cons; [intros [] | apply List.NoDup_nil].
  - intros [Ha Hd]%NoDup_cons_iff.
    destruct (String.eqb_spec a k) as [->|Hne]; cbn [map fst].
    + now apply NoDup_cons_iff.
    + apply NoDup_cons_iff. split; [|now apply IH].
      intros [-> | H]%dict_set_keys; [now elim Hne | contradiction].
Qed.

Lemma dict_set_in (k v k' v' : string) (d : list (string * string)) :
  List.NoDup (map fst d) ->
  In (k', v') (PyText.dict_set k v d)
  <-> (k' = k /\ v' = v) \/ (k' <> k /\ In (k', v') d).
Proof.
  induction d as [|[a b] d IH]; cbn [PyText.dict_set map fst In].
  - intros _. split.
    + intros [[= <- <-] | []]. now left.
    + intros [[-> ->] | [_ []]]. now left.
  - intros [Ha Hd]%NoDup_cons_iff.
    destruct (String.eqb_spec a k) as [->|Hne]; cbn [In].
    + split.
      * intros [[= <- <-] | H]; [now left|]. right. split; [|now right].
        intros ->. apply Ha. now apply (in_map fst) in H.
      * intros [[-> ->] | [Hk [[= <- _] | H]]];
          [now left | now elim Hk | now right].
    + rewrite (IH Hd). split.
      * intros [[= <- <-] | [[-> ->] | [Hk H]]].
        -- right. split; [congruence | now left].
        -- now left.
        -- right. split; [exact Hk | now right].
      * intros [[-> ->] | [Hk [[= <- <-] | H]]].
        -- right. now left.
        -- now left.
        -- right. right. now split.
Qed.

Section Endpoint.

Context {os : FileSystem} {host : Service os}.

(** With no manifest in the directory the version is not detected. *)
Lemma no_manifest_no_version (repo_path : string) (fs : FS) :
  relevant_files repo_path fs = [] ->
  exists info, detect_java_version_in repo_path fs = Ok info
               /\ current_version info = "Unknown".
Proof.
  unfold relevant_files, detect_java_version_in, pom_manifest, gradle_manifest.
  intros [_ [Hpom Hgradle]%app_eq_nil]%app_eq_nil.
  destruct (path_exists (OsPath.join repo_path "pom.xml") fs); [discriminate|].
  destruct (path_exists (OsPath.join repo_path "build.gradle") fs); [discriminate|].
  eexists. split; reflexivity.
Qed.

(** The dictionary of lines 116-125 holds the files that could be read,
each once. *)
Lemma read_files_spec (fs : FS) (files : list string) :
  forall file_contents,
    List.NoDup (map fst file_contents) ->
    (forall p c, In (p, c) file_contents -> open_read p fs = Ok c) ->
    List.NoDup (map fst (read_files files fs file_contents))
    /\ forall p c,
         In (p, c) (read_files files fs file_contents)
         <-> In (p, c) file_contents
             \/ (In p files /\ open_read p fs = Ok c).
Proof.
  induction files as [|f files IH]; intros acc Hnodup Hacc; cbn [read_files].
  - split; [exact Hnodup|]. intros p c. cbn [In]. tauto.
  - destruct (open_read f fs) as [content|e] eqn:Hread.
    + destruct (IH (PyText.dict_set f content acc)) as [Hn Hin].
      * now apply dict_set_nodup.
      * intros p c [[-> ->] | [_ H]]%dict_set_in; [exact Hread | now apply Hacc|].
        exact Hnodup.
      * split; [exact Hn|]. intros p c. rewrite Hin, (dict_set_in _ _ _ _ _ Hnodup).
        cbn [In]. split.
        -- intros [[[-> ->] | [_ H]] | [H1 H2]].
           ++ right. split; [now left | exact Hread].
           ++ now left.
           ++ right. split; [now right | exact H2].
        -- intros [H | [[<- | H1] H2]].
           ++ destruct (String.eqb_spec p f) as [->|Hne].
              ** left. left. split; [reflexivity|].
                 apply Hacc in H. congruence.
              ** left. right. now split.
           ++ left. left. split; [reflexivity | congruence].
           ++ right. now split.
    + destruct (IH acc Hnodup Hacc) as [Hn Hin].
      split; [exact Hn|]. intros p c. rewrite Hin. cbn [In]. split.
      * intros [H | [H1 H2]]; [now left | right; split; [now right | exact H2]].
      * intros [H | [[<- | H1] H2]]; [now left | congruence | right; now split].
Qed.

(** The ways through [upgrade_java]. *)
Ltac upgrade_java_cases repo_path target_version ollama_model fs :=
  unfold upgrade_java; cbv zeta;
  destruct (isdir repo_path fs) eqn:Hisdir; cbn [negb];
  [destruct (detect_java_version_in repo_path fs) as [found|raised] eqn:Hinfo;
   [destruct (String.eqb (current_version found) "Unknown") eqn:Hunknown;
    [|destruct (String.eqb (current_version found) target_version) eqn:Htarget;
      [|destruct (relevant_files repo_path fs) as [|f files] eqn:Hrel;
        [|destruct (ollama_post ollama_model
                      (build_prompt (current_version found) target_version
                         (read_files (f :: files) fs [])))
            as [response|message|message] eqn:Hpost;
          [destruct (apply_llm_output repo_path fs target_version
                       (strip match response with
                              | Some text => text
                              | None => ""
                              end))
             as [[st answer']|raised'] eqn:Hpass| |]]]]|]|];
  cbn [reply disk_after prompt_sent].

(** X13. Whatever dictionary [upgrade_java] returns, the page shows it as a
success: one green box with the status. The errors of
[Upgrade finished with errors] are never shown, because line 85 of app.py
looks for the word [errors] among the error messages and line 89 for a
key [errors], and neither is ever there. *)
Theorem page_shows_every_answer_as_a_success
    (repo_path target_version ollama_model : string) (fs : FS) (answer : response) :
  reply (upgrade_java repo_path target_version ollama_model fs) = Returned answer ->
  show_upgrade_result answer = [st_success ("Upgrade Status: " ++ status answer)].
Proof.
  upgrade_java_cases repo_path target_version ollama_model fs;
    try discriminate; intros [= <-]; try reflexivity.
  revert Hpass. unfold apply_llm_output.
  destruct (scan _ _ _) as [st'|e] eqn:Hscan; [|discriminate].
  cbv beta iota delta [bind]. intros [= <- <-].
  apply show_respond.
  exact (reaches_error_shapes repo_path _ _ _ _
           (scan_reaches repo_path _ _ _ Hscan) (List.Forall_nil _)).
Qed.

(** X14. A prompt that is sent shows exactly the relevant files that could
be read (the Java files found, then pom.xml and build.gradle when they
exist), each once and with the content read; a file that cannot be read
is left out and the request goes on. *)
Theorem prompt_shows_the_files_that_could_be_read
    (repo_path target_version ollama_model : string) (fs : FS) (prompt : string) :
  prompt_sent (upgrade_java repo_path target_version ollama_model fs) = Some prompt ->
  exists info file_contents,
    detect_java_version_in repo_path fs = Ok info
    /\ prompt = build_prompt (current_version info) target_version file_contents
    /\ List.NoDup (map fst file_contents)
    /\ forall p c,
         In (p, c) file_contents
         <-> In p (relevant_files repo_path fs) /\ open_read p fs = Ok c.
Proof.
  assert (Hspec : forall files,
             List.NoDup (map fst (read_files files fs []))
             /\ forall p c,
                  In (p, c) (read_files files fs [])
                  <-> In p files /\ open_read p fs = Ok c).
  { intros files.
    destruct (read_files_spec fs files [] (List.NoDup_nil _)) as [Hn Hin];
      [intros p c []|].
    split; [exact Hn|]. intros p c. rewrite Hin. cbn [In]. tauto. }
  upgrade_java_cases repo_path target_version ollama_model fs;
    try discriminate; intros [= <-];
    exists found, (read_files (f :: files) fs []);
    (split; [reflexivity|]); (split; [reflexivity|]); apply Hspec.
Qed.

(** X15. The status [No relevant files found for upgrade.] is never
returned: a project directory with neither pom.xml nor build.gradle has no
detected version, and the request has ended with the error 400 before the
files are looked for. *)
Theorem no_relevant_files_is_never_answered
    (repo_path target_version ollama_model : string) (fs : FS) (answer : response) :
  reply (upgrade_java repo_path target_version ollama_model fs) = Returned answer ->
  status answer <> "No relevant files found for upgrade.".
Proof.
  upgrade_java_cases repo_path target_version ollama_model fs;
    try discriminate; intros [= <-]; cbn [status].
  - discriminate.
  - destruct (no_manifest_no_version _ _ Hrel) as (info & Hinfo' & Hversion).
    rewrite Hinfo in Hinfo'. injection Hinfo' as ->.
    rewrite Hversion in Hunknown. discriminate Hunknown.
  - revert Hpass. unfold apply_llm_output.
    destruct (scan _ _ _) as [st'|e]; [|discriminate].
    cbv beta iota delta [bind]. intros [= <- <-]. unfold respond.
    destruct (errors_applying_changes st'); cbn [status]; discriminate.
Qed.

(** X16. The working copy changes only after the model has answered: when
the endpoint ends with an [HTTPException], or without having sent a
prompt, the disk is as it was; and when it is not, a prompt was sent and
the model gave an answer to it. A request for the version the project is
detected at is one that sends no prompt: it is answered by the status
saying so, or by the error 400 when the path is no directory or the
detected version is the word Unknown. *)
Theorem disk_changes_only_after_an_answer
    (repo_path target_version ollama_model : string) (fs : FS) :
  (forall status_code detail,
     reply (upgrade_java repo_path target_version ollama_model fs)
     = HTTPException status_code detail ->
     disk_after (upgrade_java repo_path target_version ollama_model fs) = Some fs)
  /\ (prompt_sent (upgrade_java repo_path target_version ollama_model fs) = None ->
      disk_after (upgrade_java repo_path target_version ollama_model fs) = Some fs)
  /\ (disk_after (upgrade_java repo_path target_version ollama_model fs) <> Some fs ->
      exists prompt response,
        prompt_sent (upgrade_java repo_path target_version ollama_model fs)
        = Some prompt
        /\ ollama_post ollama_model prompt = Generated response)
  /\ (forall info,
        detect_java_version_in repo_path fs = Ok info ->
        current_version info = target_version ->
        prompt_sent (upgrade_java repo_path target_version ollama_model fs) = None
        /\ (reply (upgrade_java repo_path target_version ollama_model fs)
            = Returned {| status := "Project is already at target Java version "
                                    ++ target_version;
                          details := None |}
            \/ exists detail,
                 reply (upgrade_java repo_path target_version ollama_model fs)
                 = HTTPException 400 detail)).
Proof.
  upgrade_java_cases repo_path target_version ollama_model fs;
    (split; [|split; [|split]]);
    try reflexivity; try discriminate; try congruence;
    try (intros _; eexists; eexists; split; [reflexivity | exact Hpost]);
    intros info' Hdetect Hsame;
    try (split; [reflexivity | (now left) || (right; now eexists)]);
    injection Hdetect as ->;
    rewrite Hsame, String.eqb_refl in Htarget; discriminate Htarget.
Qed.

(** X17. After [clone_and_detect] has answered, every target version the
page lets the user pick is one of 11, 17 and 21 and differs from the
detected version, and the directory it names is the clone directory. So,
as long as the working copy stays as it is, a request from the page is
never answered by [Project is already at target Java version]. *)
Theorem page_never_asks_for_the_detected_version
    (git_url : string) (fs fs' : FS) (data : detected) (target_version : string) :
  clone_and_detect git_url fs = (fs', Returned data) ->
  In target_version (offered_targets (analysed data)) ->
  returned_repo_path data = clone_dir_of git_url
  /\ In target_version candidates
  /\ target_version <> current_java_version data
  /\ forall ollama_model answer,
       reply (upgrade_java (returned_repo_path data) target_version
                ollama_model fs') = Returned answer ->
       status answer
       <> "Project is already at target Java version " ++ target_version.
Proof.
  unfold clone_and_detect.
  destruct (clone_repo git_url (clone_dir_of git_url) fs) as [fs1 [[|] msg]];
    [|discriminate].
  destruct (detect_java_version_in (clone_dir_of git_url) fs1) as [info|e] eqn:Hdetect;
    [|discriminate].
  intros [= -> <-]. cbn [returned_repo_path current_java_version].
  unfold offered_targets, analysed.
  cbn [session_repo_path session_current_java_version
       session_suggested_java_versions suggested_java_versions
       current_java_version returned_repo_path].
  intros Hoffered.
  assert (Hin : In target_version (suggested_versions info)).
  { destruct (_ && _); [exact Hoffered | destruct Hoffered]. }
  clear Hoffered.
  destruct (filter_suggestions_tail _ _
              (detect_java_version_filter _ _ _ Hdetect)) as [[k Hk] Hnot].
  assert (Hne : target_version <> current_version info)
    by (intros ->; contradiction).
  repeat split; [| exact Hne |].
  - rewrite Hk in Hin. unfold candidates in *.
    destruct k as [|[|[|[|k]]]]; cbn [skipn In] in *; tauto.
  - intros ollama_model answer.
    upgrade_java_cases (clone_dir_of git_url) target_version ollama_model fs';
      try discriminate; intros [= <-]; cbn [status].
    + apply String.eqb_eq in Htarget. congruence.
    + discriminate.
    + revert Hpass. unfold apply_llm_output.
      destruct (scan _ _ _) as [st'|e]; [|discriminate].
      cbv beta iota delta [bind]. intros [= <- <-]. unfold respond.
      destruct (errors_applying_changes st'); cbn [status]; discriminate.
Qed.

End Endpoint.

(** ** Answers made of complete blocks, and answers that raise *)

Section Blocks.

Context {os : FileSystem}.
Variable repo_path : string.

Lemma scan_talk (st : apply_state) (talk rest : list string) :
  Forall (fun line => is_file_header line = false) talk ->
  scan repo_path st (talk ++ rest) = scan repo_path st rest.
Proof.
  induction 1 as [|line talk Hline _ IH]; [reflexivity|].
  cbn [app]. now rewrite scan_cons, loop_body_plain.
Qed.

(** X18. When the lines of the completion text are some lines without a
header followed by complete blocks (a header line whose path passes the
check of line 191, a fence line, body lines none of which is a fence line,
a fence line, then lines without a header), the pass hands every block to
the write, in the order of the text, and returns. *)
Theorem complete_blocks_are_written_in_order
    (fs : FS) (target_version llm_output : string)
    (talk : list string) (blocks : list block) :
  splitlines llm_output = (talk ++ flat_map block_lines blocks)%list ->
  Forall (fun line => is_file_header line = false) talk ->
  Forall (fun b =>
            is_file_header (block_header b) = true
            /\ path_check repo_path
                 (OsPath.join repo_path (header_path (block_header b))) = Ok true
            /\ fence_line (block_opening b)
            /\ Forall (fun l => ~ fence_line l) (block_body b)
            /\ fence_line (block_closing b)
            /\ Forall (fun line => is_file_header line = false) (block_trailer b))
         blocks ->
  apply_llm_output repo_path fs target_version llm_output
  = Ok (write_blocks repo_path blocks (initial fs),
        respond target_version (write_blocks repo_path blocks (initial fs)))
  /\ write_attempts (write_blocks repo_path blocks (initial fs))
     = map (fun b => (OsPath.join repo_path (header_path (block_header b)),
                      PyStr.join nl (block_body b))) blocks.
Proof.
  intros Hlines Htalk Hblocks. split.
  - unfold apply_llm_output. rewrite Hlines, (scan_talk _ _ _ Htalk).
    enough (Hscan : forall st,
               scan repo_path st (flat_map block_lines blocks)
               = Ok (write_blocks repo_path blocks st))
      by now rewrite Hscan.
    clear Hlines. unfold write_blocks.
    induction Hblocks as [|b blocks (Hh & Hc & Ho & Hb & Hcl & Ht) _ IH];
      intros st; [apply scan_nil|].
    cbn [flat_map fold_left]. unfold block_lines at 1. cbn [app].
    rewrite scan_cons, <- !app_assoc. cbn [app].
    rewrite (loop_body_block repo_path st _ _ _ _ _ Hh Hc Ho Hb Hcl).
    rewrite (scan_talk _ _ _ Ht). apply IH.
  - clear. unfold write_blocks.
    enough (H : forall st,
               write_attempts
                 (fold_left
                    (fun st b =>
                       save_file st
                         (OsPath.join repo_path (header_path (block_header b)))
                         (block_body b)) blocks st)
               = (write_attempts st
                  ++ map (fun b =>
                            (OsPath.join repo_path (header_path (block_header b)),
                             PyStr.join nl (block_body b))) blocks)%list)
      by exact (H (initial fs)).
    induction blocks as [|b blocks IH]; intros st; cbn [fold_left map].
    + now rewrite app_nil_r.
    + rewrite IH.
      destruct (save_file_cases st
                  (OsPath.join repo_path (header_path (block_header b)))
                  (block_body b)) as [-> _].
      now rewrite <- app_assoc.
Qed.

(** X19. The pass raises only at the check of line 191: when it raises,
the exception is the one [os.path.realpath] or [os.path.commonpath] raised
for the path of a header line of the text. A write that fails never makes
the pass raise. *)
Theorem pass_raises_only_at_the_path_check
    (fs : FS) (target_version llm_output : string) (e : exn) :
  apply_llm_output repo_path fs target_version llm_output = Raise e ->
  exists line,
    In line (splitlines llm_output)
    /\ is_file_header line = true
    /\ path_check repo_path (OsPath.join repo_path (header_path line)) = Raise e.
Proof.
  unfold apply_llm_output.
  destruct (scan repo_path (initial fs) (splitlines llm_output)) as [st|e'] eqn:Hscan;
    [discriminate|].
  cbv beta iota delta [bind]. intros [= <-].
  enough (H : forall lines st,
             scan repo_path st lines = Raise e' ->
             exists line,
               In line lines /\ is_file_header line = true
               /\ path_check repo_path (OsPath.join repo_path (header_path line))
                  = Raise e')
    by exact (H _ _ Hscan).
  clear. intros lines.
  induction lines as [lines IH] using (induction_ltof1 _ (@length string)).
  intros st. destruct lines as [|line rest]; [rewrite scan_nil; discriminate|].
  rewrite scan_cons.
  destruct (loop_body repo_path st line rest) as [[st1 rest1]|e] eqn:Hstep.
  - intros Hrest.
    destruct (loop_body_suffix repo_path _ _ _ _ _ Hstep) as [before Hbefore].
    destruct (IH rest1) with (2 := Hrest) as (l & Hin & Hl).
    + unfold ltof. apply loop_body_length in Hstep. simpl. lia.
    + exists l. split; [|exact Hl]. right. rewrite Hbefore.
      apply in_or_app. now right.
  - intros [= ->]. exists line. split; [now left|].
    revert Hstep. unfold loop_body.
    destruct (is_file_header line); [|discriminate]. split; [reflexivity|].
    destruct (path_check repo_path _) as [kept|e]; [|now injection Hstep as ->].
    revert Hstep. cbv beta iota delta [bind].
    destruct kept; simpl negb; cbv iota; [|discriminate].
    destruct rest as [|opening after]; [discriminate|].
    destruct (is_fence opening); [|discriminate].
    destruct (collect after) as [body [|closing after_closing]]; discriminate.
Qed.

End Blocks.

(** ** Two file systems *)

Section TwoFileSystems.

Variables os1 os2 : FileSystem.
Variable repo_path : string.

Hypothesis same_resolution : forall p, @realpath os1 p = @realpath os2 p.

Lemma path_check_on_another_file_system (abs_file_path : string) :
  path_check (os := os1) repo_path abs_file_path
  = path_check (os := os2) repo_path abs_file_path.
Proof using same_resolution.
  unfold path_check. now rewrite !same_resolution.
Qed.

(** An iteration of the outer loop moves the cursor and extends the write
attempts in a way that depends on the lines and on the resolution of
paths alone. *)
Lemma loop_body_on_another_file_system
    (st1 st1' : apply_state (os := os1)) (st2 : apply_state (os := os2))
    (line : string) (rest rest' : list string) :
  write_attempts st1 = write_attempts st2 ->
  loop_body repo_path st1 line rest = Ok (st1', rest') ->
  exists st2',
    loop_body repo_path st2 line rest = Ok (st2', rest')
    /\ write_attempts st1' = write_attempts st2'.
Proof using same_resolution.
  intros Hsame. unfold loop_body.
  rewrite <- path_check_on_another_file_system.
  destruct (is_file_header line); [|intros [= <- <-]; now exists st2].
  destruct (path_check repo_path _) as [kept|e]; [|discriminate].
  cbv beta iota delta [bind].
  destruct kept; simpl negb; cbv iota; [|intros [= <- <-]; now exists st2].
  destruct rest as [|opening after]; [intros [= <- <-]; now exists st2|].
  destruct (is_fence opening); [|intros [= <- <-]; now exists st2].
  destruct (collect after) as [body [|closing after_closing]]; intros [= <- <-].
  - eexists. split; [reflexivity | exact Hsame].
  - eexists. split; [reflexivity|].
    destruct (save_file_cases st1 (OsPath.join repo_path (header_path line)) body)
      as [-> _].
    destruct (save_file_cases st2 (OsPath.join repo_path (header_path line)) body)
      as [-> _].
    now rewrite Hsame.
Qed.

(** X20. Which writes the pass attempts, and with which content, depends
on the completion text and on how [os.path.realpath] resolves paths, and
on nothing else: on two file systems that resolve every path alike,
whatever they hold and whichever of the writes fail on them, if the pass
returns on one it returns on the other, with the same sequence of write
attempts. *)
Theorem attempts_depend_on_the_text_and_the_resolution
    (fs1 : @FS os1) (fs2 : @FS os2) (target_version llm_output : string)
    (st : apply_state (os := os1)) (answer : response) :
  apply_llm_output repo_path fs1 target_version llm_output = Ok (st, answer) ->
  exists st' : apply_state (os := os2),
    apply_llm_output repo_path fs2 target_version llm_output
    = Ok (st', respond target_version st')
    /\ write_attempts st' = write_attempts st.
Proof using same_resolution.
  unfold apply_llm_output.
  destruct (scan repo_path (initial fs1) (splitlines llm_output)) as [st1|e] eqn:Hscan;
    [|discriminate].
  cbv beta iota delta [bind]. intros [= <- _].
  enough (H : forall lines (s1 s1' : apply_state (os := os1))
                     (s2 : apply_state (os := os2)),
             write_attempts s1 = write_attempts s2 ->
             scan repo_path s1 lines = Ok s1' ->
             exists s2', scan repo_path s2 lines = Ok s2'
                         /\ write_attempts s2' = write_attempts s1').
  { destruct (H _ (initial fs1) _ (initial fs2) eq_refl Hscan) as (st' & -> & Hatt).
    now exists st'. }
  clear - same_resolution. intros lines.
  induction lines as [lines IH] using (induction_ltof1 _ (@length string)).
  intros s1 s1' s2 Hsame. destruct lines as [|line rest].
  - rewrite !scan_nil. intros [= <-]. now exists s2.
  - rewrite !scan_cons.
    destruct (loop_body repo_path s1 line rest) as [[t1 rest1]|e] eqn:Hstep;
      [|discriminate].
    destruct (loop_body_on_another_file_system _ _ s2 _ _ _ Hsame Hstep)
      as (t2 & -> & Hnext).
    apply IH; [|exact Hnext].
    unfold ltof. apply loop_body_length in Hstep. simpl. lia.
Qed.

End TwoFileSystems.

(** ** The further properties on the example working copy *)

Lemma mixed_answer_run :
  Example.run Demo.mixed_answer = Ok (Demo.mixed_state, Demo.mixed_response).
Proof. vm_compute. reflexivity. Qed.

(** The pass on [Demo.interrupted_answer] writes src/A.java and then raises
at the last line. *)
Lemma interrupted_answer_raises :
  Example.run Demo.interrupted_answer = Raise (ValueError "embedded null byte").
Proof. vm_compute. reflexivity. Qed.

Lemma interrupted_answer_reaches :
  reaches Example.repo_path Example.start (splitlines Demo.interrupted_answer)
    Demo.interrupted_state [Example.nul_answer].
Proof.
  apply (reaches_next Example.repo_path Example.start
           "--- File: src/A.java ---"
           ["```"; "class A { int x; }"; "```"; Example.nul_answer]
           Demo.interrupted_state [Example.nul_answer]
           Demo.interrupted_state [Example.nul_answer]).
  - vm_compute. reflexivity.
  - apply reaches_here.
Qed.

Lemma writes_come_from_headers_inside_the_root_witness :
  Forall (fun a => exists line file_real,
            In line (splitlines Demo.interrupted_answer)
            /\ is_file_header line = true
            /\ fst a = OsPath.join Example.repo_path (header_path line)
            /\ MemFS.realpath (fst a) = Ok file_real
            /\ inside "/tmp/proj" file_real)
         (write_attempts Demo.interrupted_state).
Proof.
  apply (writes_come_from_headers_inside_the_root (os := MemFS.os)
           Example.repo_path "/tmp/proj" Example.working_copy
           Demo.interrupted_answer Demo.interrupted_state [Example.nul_answer]).
  - vm_compute. reflexivity.
  - vm_compute. reflexivity.
  - exact memfs_realpath_canonical.
  - exact interrupted_answer_reaches.
Defined.

Lemma pass_accounts_for_every_attempt_witness :
  updated_files_count Demo.mixed_state
  + length (List.filter write_failure (errors_applying_changes Demo.mixed_state))
  = length (write_attempts Demo.mixed_state)
  /\ length (List.filter (fun e => negb (write_failure e))
               (errors_applying_changes Demo.mixed_state)) <= 1.
Proof.
  apply (pass_accounts_for_every_attempt (os := MemFS.os)
           Example.repo_path Example.working_copy "21" Demo.mixed_answer
           Demo.mixed_state Demo.mixed_response).
  vm_compute. reflexivity.
Defined.

Lemma pass_returns_when_header_paths_resolve_witness :
  exists st, Example.run Demo.mixed_answer = Ok (st, respond "21" st).
Proof.
  apply (pass_returns_when_header_paths_resolve (os := MemFS.os)
           Example.repo_path Example.working_copy "21" Demo.mixed_answer).
  - exists "/tmp/proj". split; vm_compute; reflexivity.
  - intros line Hin Hheader.
    assert (Hlines : splitlines Demo.mixed_answer
                     = ["Here are the files."; "";
                        "--- File: src/A.java ---"; "```"; "class A { int x; }"; "```";
                        "--- File: src ---"; "```"; "class A { }"; "```";
                        "--- File: src/B.java ---"; "```"; "class B {"])
      by (vm_compute; reflexivity).
    rewrite Hlines in Hin. clear Hlines.
    repeat (destruct Hin as [<- | Hin];
            [first [ discriminate Hheader
                   | eexists; split; vm_compute; reflexivity ]|]).
    destruct Hin.
Defined.

Lemma echoed_context_is_written_back_witness :
  apply_llm_output (os := MemFS.os) Example.repo_path Demo.working_copy "21"
    (strip (context_of Demo.shown))
  = Ok (write_back Example.repo_path Demo.shown
          (initial (os := MemFS.os) Demo.working_copy),
        respond "21"
          (write_back Example.repo_path Demo.shown
             (initial (os := MemFS.os) Demo.working_copy)))
  /\ write_attempts
       (write_back Example.repo_path Demo.shown
          (initial (os := MemFS.os) Demo.working_copy))
     = map (fun f => (OsPath.join Example.repo_path (fst f), PyStr.join nl (snd f)))
           Demo.shown.
Proof.
  apply (echoed_context_is_written_back (os := MemFS.os) Example.repo_path
           Demo.shown Demo.working_copy "21").
  repeat constructor; try reflexivity; try discriminate; not_a_fence_line.
Defined.

(** The context of the prompt for the working copy, given back as the
answer, leaves the working copy as it was. *)
Lemma echoed_context_changes_nothing :
  match apply_llm_output (os := MemFS.os) Example.repo_path Demo.working_copy "21"
          (strip (context_sections Demo.file_contents)) with
  | Ok (st, answer) =>
      disk st = Demo.working_copy
      /\ status answer = "Successfully upgraded 2 files to Java 21"
  | Raise _ => False
  end.
Proof. vm_compute. split; reflexivity. Qed.

Lemma page_shows_every_answer_as_a_success_witness :
  reply (upgrade_java (host := Demo.service) "/tmp/proj" "21" "llama3"
           Demo.working_copy)
  = Returned {| status := "Upgrade finished with errors";
                details := Some Demo.mixed_errors |}
  /\ show_upgrade_result {| status := "Upgrade finished with errors";
                            details := Some Demo.mixed_errors |}
     = [st_success "Upgrade Status: Upgrade finished with errors"].
Proof.
  split; [vm_compute; reflexivity|].
  apply (page_shows_every_answer_as_a_success (host := Demo.service)
           "/tmp/proj" "21" "llama3" Demo.working_copy).
  vm_compute. reflexivity.
Defined.

Lemma no_relevant_files_is_never_answered_witness :
  status {| status := "Upgrade finished with errors";
            details := Some Demo.mixed_errors |}
  <> "No relevant files found for upgrade.".
Proof.
  apply (no_relevant_files_is_never_answered (host := Demo.service)
           "/tmp/proj" "21" "llama3" Demo.working_copy).
  vm_compute. reflexivity.
Defined.

Lemma suggestions_are_a_tail_without_the_current_version_witness :
  (exists k, suggested_versions Demo.info = skipn k candidates)
  /\ ~ In (current_version Demo.info) (suggested_versions Demo.info).
Proof.
  apply (suggestions_are_a_tail_without_the_current_version
           (Present (Example.pom_both "17" "17")) Absent Demo.info).
  vm_compute. reflexivity.
Defined.

Lemma page_never_asks_for_the_detected_version_witness :
  returned_repo_path Demo.data = clone_dir_of Demo.git_url
  /\ In "21" candidates
  /\ "21" <> current_java_version Demo.data
  /\ forall ollama_model answer,
       reply (upgrade_java (host := Demo.service) (returned_repo_path Demo.data)
                "21" ollama_model Demo.working_copy) = Returned answer ->
       status answer <> "Project is already at target Java version " ++ "21".
Proof.
  apply (page_never_asks_for_the_detected_version (host := Demo.service)
           Demo.git_url Demo.working_copy Demo.working_copy Demo.data "21").
  - vm_compute. reflexivity.
  - vm_compute. now left.
Defined.

(** The closing quote stays when a semicolon follows it: line 134 takes
the quotes away before the semicolon. *)
Lemma gradle_version_is_a_bare_token_witness :
  gradle_scan Demo.gradle_lines = Some "1.8'"
  /\ ("1.8'" <> ""
      /\ no_space "1.8'" = true
      /\ startswith "1.8'" ";" = false
      /\ endswith "1.8'" ";" = false).
Proof.
  split; [vm_compute; reflexivity|].
  apply (gradle_version_is_a_bare_token Demo.gradle_lines "1.8'").
  vm_compute. reflexivity.
Defined.

Lemma source_tree_is_proper : proper_tree Example.source_tree.
Proof. repeat constructor; discriminate. Qed.

Lemma java_files_lie_under_the_project_directory_witness :
  endswith "/tmp/proj/src/main/A.java" ".java" = true
  /\ String.prefix "/tmp/proj" "/tmp/proj/src/main/A.java" = true
  /\ exists root file,
       "/tmp/proj/src/main/A.java" = OsPath.join root file
       /\ no_slash file
       /\ contains "build" root = false
       /\ contains "target" root = false.
Proof.
  apply (java_files_lie_under_the_project_directory "/tmp/proj"
           Example.source_tree "/tmp/proj/src/main/A.java").
  - repeat constructor; discriminate.
  - vm_compute. now left.
Defined.

Lemma build_in_the_project_path_hides_every_file_witness :
  find_java_files "/srv/rebuild/proj" Example.source_tree = [].
Proof.
  apply (build_in_the_project_path_hides_every_file "/srv/rebuild/proj"
           Example.source_tree).
  - repeat constructor; discriminate.
  - vm_compute. reflexivity.
Defined.

Lemma project_named_build_has_no_java_files_witness :
  clone_dir_of Demo.build_tools_url = "/tmp/build_tools"
  /\ find_java_files (clone_dir_of Demo.build_tools_url) Example.source_tree = [].
Proof.
  split; [vm_compute; reflexivity|].
  apply (project_named_build_has_no_java_files Demo.build_tools_url
           Example.source_tree).
  - repeat constructor; discriminate.
  - vm_compute. reflexivity.
Defined.

Lemma complete_blocks_are_written_in_order_witness :
  Example.run Demo.complete_answer
  = Ok (write_blocks Example.repo_path Demo.mixed_blocks Example.start,
        respond "21" (write_blocks Example.repo_path Demo.mixed_blocks Example.start))
  /\ write_attempts (write_blocks Example.repo_path Demo.mixed_blocks Example.start)
     = map (fun b => (OsPath.join Example.repo_path (header_path (block_header b)),
                      PyStr.join nl (block_body b))) Demo.mixed_blocks.
Proof.
  apply (complete_blocks_are_written_in_order (os := MemFS.os) Example.repo_path
           Example.working_copy "21" Demo.complete_answer
           ["Here are the files."; ""] Demo.mixed_blocks).
  - vm_compute. reflexivity.
  - repeat constructor.
  - repeat constructor; try a_fence_line; not_a_fence_line.
Defined.

Lemma pass_raises_only_at_the_path_check_witness :
  exists line,
    In line (splitlines Example.nul_answer)
    /\ is_file_header line = true
    /\ path_check (os := MemFS.os) Example.repo_path
         (OsPath.join Example.repo_path (header_path line))
       = Raise (ValueError "embedded null byte").
Proof.
  apply (pass_raises_only_at_the_path_check (os := MemFS.os) Example.repo_path
           Example.working_copy "21" Example.nul_answer).
  vm_compute. reflexivity.
Defined.

Lemma prompt_shows_the_files_that_could_be_read_witness :
  exists info file_contents,
    detect_java_version_in (host := Demo.service) "/tmp/proj" Demo.working_copy
    = Ok info
    /\ build_prompt "17" "21" Demo.file_contents
       = build_prompt (current_version info) "21" file_contents
    /\ List.NoDup (map fst file_contents)
    /\ forall p c,
         In (p, c) file_contents
         <-> In p (relevant_files (host := Demo.service) "/tmp/proj" Demo.working_copy)
             /\ open_read (Service := Demo.service) p Demo.working_copy = Ok c.
Proof.
  apply (prompt_shows_the_files_that_could_be_read (host := Demo.service)
           "/tmp/proj" "21" "llama3" Demo.working_copy).
  vm_compute. reflexivity.
Defined.

(** The projects app of alice and of bob share the directory /tmp/app:
with the first one cloned, the second is pulled into its working copy. *)
Lemma clone_directory_depends_on_the_last_segment_only_witness :
  clone_dir_of ("https://gitlab.com/alice" ++ "/" ++ "app")
  = clone_dir_of ("https://gitlab.com/bob" ++ "/" ++ "app").
Proof.
  apply (clone_directory_depends_on_the_last_segment_only
           "https://gitlab.com/alice" "https://gitlab.com/bob" "app").
  - discriminate.
  - reflexivity.
Defined.

Lemma second_project_is_pulled_into_the_first :
  clone_dir_of "https://gitlab.com/alice/app" = "/tmp/app"
  /\ git_command (host := Demo.service) "https://gitlab.com/bob/app" "/tmp/app"
       (<["/tmp/app" := MemFS.Dir]> Demo.working_copy)
     = ["git"; "-C"; "/tmp/app"; "pull"; "https://oauth2:@gitlab.com/bob/app"].
Proof. split; vm_compute; reflexivity. Qed.

(** On the read-only volume both writes fail, and the same two writes are
attempted as on the working copy, where the first succeeds. *)
Lemma attempts_depend_on_the_text_and_the_resolution_witness :
  exists st' : apply_state (os := Demo.read_only),
    apply_llm_output (os := Demo.read_only) Example.repo_path tt "21"
      Demo.mixed_answer
    = Ok (st', respond "21" st')
    /\ write_attempts st' = write_attempts Demo.mixed_state.
Proof.
  apply (attempts_depend_on_the_text_and_the_resolution MemFS.os Demo.read_only
           Example.repo_path (fun p => eq_refl)
           Example.working_copy tt "21" Demo.mixed_answer
           Demo.mixed_state Demo.mixed_response).
  vm_compute. reflexivity.
Defined.
